(** * datascale tsne_viz tutorial: indexer.py and viz_scatter.py

    A shallow embedding of the two programs of
    [cookbook/tutorials/tsne_viz]: the indexer (discover files, chunk them,
    embed the chunks, write [embeddings.json]) and the viewer (load
    [embeddings.json], reduce with t-SNE).

    Python values are modelled as they are used by the code:
    - a chunk is a Python dict that [embed_content] mutates in place, so
      chunks live in a heap (a list of dicts addressed by position) and the
      lists the code passes around are lists of references;
    - integers are [Z], [len] results and loop indices [nat], floats an
      abstract type [float]; a [str] is the [string] of the bytes of its
      UTF-8 encoding, so [len] counts code points and not bytes (the other
      string operations of the code look for ASCII characters only, which
      are bytes of their own in UTF-8);
    - the external collaborators (glob, open/read, the text splitter,
      [os.path.relpath], the embedding service, the clock, the file write,
      [float], [pd.DataFrame] on anything but a list of dicts, [np.array]
      and the t-SNE fit) are fields of an environment record; a
      collaborator that can raise says so in its result;
    - the file [embeddings.json] holds a JSON document, kept as the value
      that [json.load] returns for it;
    - what the viewer shows ([st.error], [st.warning]) and its call of the
      reduction are an event trace; the indexer's printing and sleeping are
      left out;
    - of the script of the viewer, the arguments of the sliders, the branch
      taken after the load and the table of the plot are modelled; a
      DataFrame's index labels are computed beside the frame where
      [plot_df] aligns a column on them. *)

From Stdlib Require Import ZArith Lia Ascii.
From stdpp Require Import base list strings gmap pretty.

Open Scope string_scope.
Open Scope list_scope.
Open Scope Z_scope.

(** ** Configuration (indexer.py, lines 30-35) *)

Definition CHUNK_SIZE : Z := 600.
Definition CHUNK_OVERLAP : Z := 200.
Definition EMBEDDING_SIZE : Z := 768.
Definition BATCH_SIZE : nat := 20.
Definition GEMINI_BATCH_LIMIT : nat := 100.
Definition OUTPUT_JSON_FILE : string := "embeddings.json".

(** ** Python helpers *)

(** [range(0, stop, step)] for a positive step. *)
Definition py_range (stop step : nat) : list nat :=
  (λ k, k * step)%nat <$> seq 0 ((stop + step - 1) / step)%nat.

(** [xs[i:i + n]] *)
Definition py_slice {A} (xs : list A) (i n : nat) : list A :=
  take n (drop i xs).

(** A [str] is kept as the bytes of its UTF-8 encoding. The bytes of the
    form [10xxxxxx] continue the code point that an earlier byte started;
    every other byte starts one. *)
Definition is_continuation_byte (c : ascii) : bool :=
  match c with
  | Ascii _ _ _ _ _ _ b6 b7 => b7 && negb b6
  end.

(** [len(s)]: the number of code points of the string. *)
Fixpoint py_len (s : string) : nat :=
  match s with
  | EmptyString => 0
  | String c s' =>
      ((if is_continuation_byte c then 0 else 1) + py_len s')%nat
  end.

(** The backslash character. *)
Definition backslash : ascii := "092"%char.

(** [s.replace(a, b)] for one-character [a] and [b]. *)
Fixpoint str_replace_char (a b : ascii) (s : string) : string :=
  match s with
  | EmptyString => EmptyString
  | String c s' =>
      String (if decide (c = a) then b else c) (str_replace_char a b s')
  end.

(** [s.startswith(c)] for a one-character prefix. *)
Definition startswith_char (c : ascii) (s : string) : bool :=
  match s with
  | String c' _ => bool_decide (c' = c)
  | EmptyString => false
  end.

(** [sep.join(xs)] *)
Fixpoint str_join (sep : string) (xs : list string) : string :=
  match xs with
  | [] => ""
  | [x] => x
  | x :: xs' => x +:+ sep +:+ str_join sep xs'
  end.

Section Model.

Context {float : Type}.

(** ** Data model *)

(** The values that [json.dump] writes and [json.load] returns. A dict is
    kept as its list of items in insertion order; its keys are distinct. *)
#[warnings="-register-all"] Inductive pyval :=
  | PNone
  | PBool (b : bool)
  | PInt (z : Z)
  | PFloat (f : float)
  | PStr (s : string)
  | PList (xs : list pyval)
  | PDict (items : list (string * pyval)).

(** A chunk dict. [embedding = None] is the dict without an ["embedding"]
    key, as [split_text] creates it. *)
Record chunk := Chunk {
  id : string;
  file_id : string;
  content : string;
  start_pos : Z;
  end_pos : Z;
  embedding : option (list float)
}.

(** References to chunk dicts, and the heap that holds them. *)
Abbreviation loc := nat (only parsing).
Abbreviation heap := (list chunk) (only parsing).

(** [chunk["embedding"] = v] *)
Definition set_embedding (v : list float) (c : chunk) : chunk :=
  {| id := id c; file_id := file_id c; content := content c;
     start_pos := start_pos c; end_pos := end_pos c; embedding := Some v |}.

(** Truth value of [chunk.get("embedding")]: a missing key gives [None],
    an empty list is falsy. *)
Definition has_embedding (c : chunk) : bool :=
  match embedding c with
  | Some (_ :: _) => true
  | _ => false
  end.

(** What one call of [client.models.embed_content] does: it raises, or it
    returns a response whose [embeddings] is a list of vectors. A response
    that makes the [try] body raise before the first assignment (for example
    [embeddings] being [None]) is an [ApiRaises]. *)
Inductive api_result :=
  | ApiRaises (e : string)
  | ApiReturns (embeddings : list (list float)).

(** What the file [embeddings.json] holds: a JSON document, kept as the
    value [json.load] gives for it, or text that is not JSON. *)
Inductive file_content :=
  | JsonDoc (v : pyval)
  | NotJson (raw : string).

(** What [open(OUTPUT_JSON_FILE, 'w')] followed by [json.dump] does. *)
Inductive write_outcome :=
  | WriteOk
  | WriteRaises (e : string) (left_behind : option file_content).

(** What [parser.parse_args()] does with the command line (lines 271-276):
    it returns the namespace with [directory], [file_types] and [dry_run],
    or argparse ends the process itself by [SystemExit], with code 2 after
    a usage error and code 0 after [--help]. The code uses [directory] in
    f-strings only, so the namespace holds its text: the [None] that
    [--directory] without a value gives reads as ["None"]. *)
Inductive parse_args_outcome :=
  | Namespace (directory : string) (file_types : list string) (dry_run : bool)
  | ArgparseExit (code : Z).

(** The world around the indexer. *)
Record IndexerEnv := {
  (** [glob.glob(pattern, recursive=True)] *)
  glob : string → list string;
  (** [open(path, 'r', encoding='utf-8').read()]; [None] when it raises *)
  open_read : string → option string;
  (** [RecursiveCharacterTextSplitter(600, 200).split_text]; [None] when
      it raises *)
  text_splitter : string → option (list string);
  (** [os.path.relpath]; [None] when it raises *)
  relpath : string → option string;
  (** the n-th call of the embedding service in this run, on these texts *)
  embed_api : nat → list string → api_result;
  (** [round(time.time() - start_time, 2)] at the end of the run *)
  elapsed : float;
  (** [str] of a float, for the messages *)
  str_float : float → string;
  (** writing the output file, given what the path held before *)
  try_write : option file_content → pyval → write_outcome
}.

Section Indexer.

Variable E : IndexerEnv.

(** ** read_text_file (lines 41-56) *)

Definition read_text_file (file_path : string) : string :=
  match open_read E file_path with
  | Some text => text
  | None => ""
  end.

(** ** split_text (lines 58-98) *)

(** The body of the [for i, chunk_text in enumerate(chunks)] loop. *)
Definition chunk_dict (file_id : string) (i : nat) (chunk_text : string) : chunk :=
  let start_pos :=
    if decide (0 < i)%nat then Z.of_nat i * (CHUNK_SIZE - CHUNK_OVERLAP) else 0 in
  let end_pos := start_pos + Z.of_nat (py_len chunk_text) in
  let chunk_id := file_id +:+ "_" +:+ pretty start_pos +:+ "-" +:+ pretty end_pos in
  {| id := chunk_id; file_id := file_id; content := chunk_text;
     start_pos := start_pos; end_pos := end_pos; embedding := None |}.

(** [split_text] allocates one fresh dict per piece and returns the list of
    the new references; [None] when the splitter or [relpath] raises, which
    happens before any dict is created. *)
Definition split_text (text file_path : string) (σ : heap)
    : option (list loc * heap) :=
  chunks ← text_splitter E text;
  rel ← relpath E file_path;
  let file_id := str_replace_char backslash "/"%char rel in
  let chunk_dicts := imap (chunk_dict file_id) chunks in
  Some (seq (length σ) (length chunk_dicts), σ ++ chunk_dicts).

(** ** embed_content (lines 100-148) *)

(** [texts = [chunk["content"] for chunk in batch]] *)
Definition batch_texts (σ : heap) (batch : list loc) : list string :=
  (λ l, from_option content "" (σ !! l)) <$> batch.

(** [for j, embedding in enumerate(response.embeddings):
       batch[j]["embedding"] = embedding.values].
    The flag is [false] when [batch[j]] raises [IndexError]; the dicts
    assigned before that keep their new value. *)
Fixpoint assign_embeddings (batch : list loc) (embeddings : list (list float))
    (σ : heap) : heap * bool :=
  match embeddings, batch with
  | [], _ => (σ, true)
  | v :: vs, l :: ls => assign_embeddings ls vs (alter (set_embedding v) l σ)
  | _ :: _, [] => (σ, false)
  end.

(** The [except] branch: [for chunk in batch: chunk["embedding"] = []]. *)
Definition clear_embeddings (batch : list loc) (σ : heap) : heap :=
  foldl (λ σ l, alter (set_embedding []) l σ) σ batch.

(** The state of the loop of [embed_content]: the heap, the number of calls
    made to the embedding service, and [all_chunks_with_embeddings]. *)
Record embed_state := EmbedState {
  es_heap : heap;
  es_calls : nat;
  es_all : list loc
}.

(** One iteration of [for i in range(0, len(chunks), GEMINI_BATCH_LIMIT)]. *)
Definition embed_batch (chunks : list loc) (st : embed_state) (i : nat)
    : embed_state :=
  let σ := es_heap st in
  let batch := py_slice chunks i GEMINI_BATCH_LIMIT in
  let texts := batch_texts σ batch in
  let σ' :=
    match embed_api E (es_calls st) texts with
    | ApiReturns embeddings =>
        match assign_embeddings batch embeddings σ with
        | (σ1, true) => σ1
        | (σ1, false) => clear_embeddings batch σ1
        end
    | ApiRaises _ => clear_embeddings batch σ
    end in
  {| es_heap := σ'; es_calls := S (es_calls st); es_all := es_all st ++ batch |}.

Definition embed_content (chunks : list loc) (σ : heap) (calls : nat)
    : embed_state :=
  foldl (embed_batch chunks)
        {| es_heap := σ; es_calls := calls; es_all := [] |}
        (py_range (length chunks) GEMINI_BATCH_LIMIT).

(** ** index_markdown_files (lines 150-267) *)

(** The [stats] dict. *)
Record stats := Stats {
  files_processed : Z;
  files_failed : Z;
  chunks_created : Z;
  chunks_indexed : Z;
  processing_time : pyval
}.

(** The dict that [index_markdown_files] returns; [r_stats = None] is the
    dict without a ["stats"] key. *)
Record result := Result {
  status : string;
  message : string;
  r_stats : option stats
}.

(** Lines 166-173: the discovery loop. *)
Definition find_files (directory : string) (file_types : list string)
    : list string :=
  foldl (λ all_found_files file_type,
           let file_type :=
             if startswith_char "." file_type then file_type
             else "." +:+ file_type in
           let found := glob E (directory +:+ "/**/*" +:+ file_type) in
           all_found_files ++ found)
        [] file_types.

(** The state of the loop over the files of one batch. *)
Record batch_state := BatchState {
  bs_heap : heap;
  bs_stats : stats;
  bs_all_chunks : list loc
}.

Definition fail_file (s : stats) : stats :=
  {| files_processed := files_processed s;
     files_failed := files_failed s + 1;
     chunks_created := chunks_created s;
     chunks_indexed := chunks_indexed s;
     processing_time := processing_time s |}.

Definition count_file (s : stats) (chunks : list loc) : stats :=
  {| files_processed := files_processed s + 1;
     files_failed := files_failed s;
     chunks_created := chunks_created s + Z.of_nat (length chunks);
     chunks_indexed := chunks_indexed s;
     processing_time := processing_time s |}.

(** Lines 199-221: the body of [for file_path in batch]. *)
Definition process_file (st : batch_state) (file_path : string) : batch_state :=
  let content := read_text_file file_path in
  if decide (content = "") then
    {| bs_heap := bs_heap st; bs_stats := fail_file (bs_stats st);
       bs_all_chunks := bs_all_chunks st |}
  else
    match split_text content file_path (bs_heap st) with
    | Some (chunks, σ') =>
        {| bs_heap := σ'; bs_stats := count_file (bs_stats st) chunks;
           bs_all_chunks := bs_all_chunks st ++ chunks |}
    | None =>
        {| bs_heap := bs_heap st; bs_stats := fail_file (bs_stats st);
           bs_all_chunks := bs_all_chunks st |}
    end.

(** [chunk.get("embedding")] on the dict a reference points to. *)
Definition valid_chunk (σ : heap) (l : loc) : bool :=
  from_option has_embedding false (σ !! l).

(** The state of the loop over the batches of files. *)
Record run_state := RunState {
  rs_heap : heap;
  rs_calls : nat;
  rs_stats : stats;
  rs_all_processed_chunks : list loc
}.

(** Lines 193-236: one iteration of
    [for i in range(0, len(all_found_files), BATCH_SIZE)]. *)
Definition process_batch (all_found_files : list string) (st : run_state)
    (i : nat) : run_state :=
  let batch := py_slice all_found_files i BATCH_SIZE in
  let bs :=
    foldl process_file
          {| bs_heap := rs_heap st; bs_stats := rs_stats st;
             bs_all_chunks := [] |}
          batch in
  match bs_all_chunks bs with
  | [] =>
      {| rs_heap := bs_heap bs; rs_calls := rs_calls st;
         rs_stats := bs_stats bs;
         rs_all_processed_chunks := rs_all_processed_chunks st |}
  | _ :: _ =>
      let es := embed_content (bs_all_chunks bs) (bs_heap bs) (rs_calls st) in
      let valid_chunks :=
        filter (λ l, valid_chunk (es_heap es) l) (es_all es) in
      {| rs_heap := es_heap es; rs_calls := es_calls es;
         rs_stats := bs_stats bs;
         rs_all_processed_chunks := rs_all_processed_chunks st ++ valid_chunks |}
  end.

Definition initial_stats : stats :=
  {| files_processed := 0; files_failed := 0; chunks_created := 0;
     chunks_indexed := 0; processing_time := PInt 0 |}.

(** The state after the loop over the batches (line 237). *)
Definition run_batches (all_found_files : list string) : run_state :=
  foldl (process_batch all_found_files)
        {| rs_heap := []; rs_calls := 0%nat; rs_stats := initial_stats;
           rs_all_processed_chunks := [] |}
        (py_range (length all_found_files) BATCH_SIZE).

(** Lines 239-240. *)
Definition final_stats (st : run_state) : stats :=
  {| files_processed := files_processed (rs_stats st);
     files_failed := files_failed (rs_stats st);
     chunks_created := chunks_created (rs_stats st);
     chunks_indexed := Z.of_nat (length (rs_all_processed_chunks st));
     processing_time := PFloat (elapsed E) |}.

(** The items of a chunk dict, in insertion order. *)
Definition chunk_items (c : chunk) : list (string * pyval) :=
  [("id", PStr (id c)); ("file_id", PStr (file_id c));
   ("content", PStr (content c)); ("start_pos", PInt (start_pos c));
   ("end_pos", PInt (end_pos c))]
  ++ match embedding c with
     | Some v => [("embedding", PList (PFloat <$> v))]
     | None => []
     end.

(** What [json.dump] writes for one chunk dict. *)
Definition chunk_to_py (c : chunk) : pyval := PDict (chunk_items c).

(** The dicts a list of references points to. *)
Definition deref (σ : heap) (ls : list loc) : list chunk :=
  omap (λ l, σ !! l) ls.

Definition dump_chunks (cs : list chunk) : pyval :=
  PList (chunk_to_py <$> cs).

(** [index_markdown_files], with the state of the output file passed in and
    out. Printing and sleeping are left out. *)
Definition index_markdown_files (directory : string) (file_types : list string)
    (dry_run : bool) (out : option file_content)
    : result * option file_content :=
  let all_found_files := find_files directory file_types in
  match all_found_files with
  | [] =>
      ({| status := "error";
          message := "No files with specified extensions ("
                     +:+ str_join ", " file_types +:+ ") found in " +:+ directory;
          r_stats := None |}, out)
  | _ :: _ =>
      let st := run_batches all_found_files in
      let stats := final_stats st in
      let all_processed_chunks := rs_all_processed_chunks st in
      if negb dry_run && bool_decide (all_processed_chunks ≠ []) then
        match try_write E out (dump_chunks (deref (rs_heap st) all_processed_chunks)) with
        | WriteOk =>
            ({| status := "success";
                message := "Processed " +:+ pretty (files_processed stats)
                           +:+ " files and saved " +:+ pretty (chunks_indexed stats)
                           +:+ " chunks to " +:+ OUTPUT_JSON_FILE +:+ " in "
                           +:+ str_float E (elapsed E) +:+ " seconds";
                r_stats := Some stats |},
             Some (JsonDoc (dump_chunks (deref (rs_heap st) all_processed_chunks))))
        | WriteRaises e left_behind =>
            ({| status := "error";
                message := "Failed to write embeddings to " +:+ OUTPUT_JSON_FILE
                           +:+ ": " +:+ e;
                r_stats := Some stats |}, left_behind)
        end
      else if dry_run then
        ({| status := "success";
            message := "Dry run complete. Would have saved "
                       +:+ pretty (chunks_indexed stats) +:+ " chunks to "
                       +:+ OUTPUT_JSON_FILE +:+ ". Processed "
                       +:+ pretty (files_processed stats) +:+ " files in "
                       +:+ str_float E (elapsed E) +:+ " seconds";
            r_stats := Some stats |}, out)
      else
        ({| status := "success";
            message := "No valid embeddings generated. Processed "
                       +:+ pretty (files_processed stats) +:+ " files in "
                       +:+ str_float E (elapsed E) +:+ " seconds";
            r_stats := Some stats |}, out)
  end.

(** ** main (lines 269-294)

    What [parser.parse_args()] did with the command line and the value of
    [GEMINI_API_KEY] are given; the result is the exit code of the process
    and the state of the output file. When argparse ends the process
    nothing else of [main] runs. *)
Definition main (args : parse_args_outcome) (GEMINI_API_KEY : option string)
    (out : option file_content) : Z * option file_content :=
  match args with
  | ArgparseExit code => (code, out)
  | Namespace directory file_types dry_run =>
      match GEMINI_API_KEY with
      | None | Some "" => (1, out)
      | Some _ =>
          let '(result, out') :=
            index_markdown_files directory file_types dry_run out in
          if decide (status result = "success") then (0, out') else (1, out')
      end
  end.

End Indexer.

(** ** The viewer: viz_scatter.py *)

Definition EMBEDDINGS_FILE : string := "embeddings.json".
Definition DEFAULT_PERPLEXITY : Z := 30.
Definition DEFAULT_ITERATIONS : Z := 300.
Definition DEFAULT_LEARNING_RATE : Z := 200.

(** The exceptions the [except] clauses of the viewer tell apart, with the
    text [str(e)] where a message shows it. *)
Inductive exn :=
  | FileNotFoundError
  | JSONDecodeError
  | ValueError (e : string)
  | OtherException (e : string).

Definition exn_text (x : exn) : string :=
  match x with
  | FileNotFoundError => "FileNotFoundError"
  | JSONDecodeError => "JSONDecodeError"
  | ValueError e => e
  | OtherException e => e
  end.

(** A computation that returns or raises. *)
Inductive res (A : Type) :=
  | Ok (a : A)
  | Raise (x : exn).
#[global] Arguments Ok {A} a.
#[global] Arguments Raise {A} x.

Definition res_bind {A B} (m : res A) (k : A → res B) : res B :=
  match m with
  | Ok a => k a
  | Raise x => Raise x
  end.

Fixpoint res_map {A B} (f : A → res B) (xs : list A) : res (list B) :=
  match xs with
  | [] => Ok []
  | x :: xs' =>
      res_bind (f x) (λ y, res_bind (res_map f xs') (λ ys, Ok (y :: ys)))
  end.

(** A cell of a DataFrame: a value taken from the JSON document, the NaN
    pandas fills in where a row has no value for a column, or the tuple of
    floats that [load_embeddings] puts in the embedding column. *)
Inductive cell :=
  | Cell (v : pyval)
  | Missing
  | FloatTuple (t : list float).

(** A DataFrame: its columns, and for each row the cells it holds. A column
    that is absent from a row's map reads as [Missing]. *)
Record DataFrame := Frame {
  columns : list string;
  rows : list (gmap string cell)
}.

(** [row[col]] *)
Definition cell_at (r : gmap string cell) (col : string) : cell :=
  default Missing (r !! col).

(** [df.empty] *)
Definition df_empty (df : DataFrame) : bool :=
  bool_decide (columns df = []) || bool_decide (rows df = []).

(** What the screen of the dashboard receives, and the call of the
    reduction, in the order in which they happen. *)
Record tsne_config := TSNE {
  n_components : Z;
  perplexity : Z;
  max_iter : Z;
  learning_rate : Z;
  random_state : Z;
  init : string;
  n_jobs : Z
}.

Inductive ui_event :=
  | StError (msg : string)
  | StWarning (msg : string)
  | TsneFitTransform (cfg : tsne_config) (embeddings_matrix : list cell).

(** The world around the viewer. *)
Record ViewerEnv := {
  (** [float(n)] for an int; raises for an int that is too large *)
  float_of_int : Z → res float;
  (** [float(s)] for a str *)
  float_of_str : string → res float;
  (** the text of the [TypeError] that [float] raises on this value *)
  float_type_error : pyval → string;
  (** [math.isnan] *)
  is_nan : float → bool;
  (** [pd.DataFrame(data)] where [data] is not a list of dicts *)
  frame_of_other : pyval → res DataFrame;
  (** the exception that [np.array] raises on the cells of the embedding
      column, if it raises (rows of different lengths, with the NumPy
      versions that refuse them) *)
  np_array_raises : list cell → option exn;
  (** [TSNE(...).fit_transform(embeddings_matrix)] *)
  fit_transform : tsne_config → list cell → res (list (float * float))
}.

Section Viewer.

Variable V : ViewerEnv.

(** [float(x)] *)
Definition to_float (x : pyval) : res float :=
  match x with
  | PFloat f => Ok f
  | PInt z => float_of_int V z
  | PBool b => float_of_int V (if b then 1 else 0)
  | PStr s => float_of_str V s
  | _ => Raise (OtherException (float_type_error V x))
  end.

(** The dicts of a list of dicts; [None] when an element is not a dict. *)
Fixpoint as_records (xs : list pyval) : option (list (list (string * pyval))) :=
  match xs with
  | [] => Some []
  | PDict items :: xs' => (items ::.) <$> as_records xs'
  | _ :: _ => None
  end.

(** The union of the keys of the records, in order of first appearance. *)
Definition record_columns (records : list (list (string * pyval))) : list string :=
  reverse (remove_dups (reverse (concat ((λ items, items.*1) <$> records)))).

(** [pd.DataFrame(data)]. A list of dicts gives one row per dict and one
    column per key; an empty list gives the empty frame. *)
Definition pd_DataFrame (data : pyval) : res DataFrame :=
  match data with
  | PList [] => Ok {| columns := []; rows := [] |}
  | PList (PDict items :: xs) =>
      match as_records xs with
      | Some records =>
          Ok {| columns := record_columns (items :: records);
                rows := (λ r, Cell <$> (list_to_map r : gmap string pyval))
                        <$> (items :: records) |}
      | None => frame_of_other V data
      end
  | _ => frame_of_other V data
  end.

(** [lambda x: tuple(map(float, x)) if isinstance(x, list) else None] *)
Definition coerce_embedding (x : cell) : res cell :=
  match x with
  | Cell (PList xs) => res_bind (res_map to_float xs) (λ t, Ok (FloatTuple t))
  | _ => Ok (Cell PNone)
  end.

(** [pd.isna] on a cell. *)
Definition isna (x : cell) : bool :=
  match x with
  | Cell PNone => true
  | Cell (PFloat f) => is_nan V f
  | Missing => true
  | _ => false
  end.

(** [df['embedding'] = df['embedding'].apply(f)] on the rows. *)
Definition apply_embedding (rs : list (gmap string cell))
    : res (list (gmap string cell)) :=
  res_map (λ r, res_bind (coerce_embedding (cell_at r "embedding"))
                         (λ x, Ok (<["embedding" := x]> r)))
          rs.

(** [df.dropna(subset=['embedding'], inplace=True)] on the rows. *)
Definition dropna_embedding (rs : list (gmap string cell))
    : list (gmap string cell) :=
  filter (λ r, ¬ isna (cell_at r "embedding")) rs.

(** What [open] and [json.load] give for a path. *)
Definition read_json (fs : gmap string file_content) (filepath : string)
    : res pyval :=
  match fs !! filepath with
  | None => Raise FileNotFoundError
  | Some (NotJson _) => Raise JSONDecodeError
  | Some (JsonDoc data) => Ok data
  end.

(** Lines 19-32: the body of the [try] of [load_embeddings]; the frame, or
    [None] with the error shown, and the warnings shown. *)
Definition load_embeddings_try (fs : gmap string file_content) (filepath : string)
    : res (option DataFrame * list ui_event) :=
  res_bind (read_json fs filepath) (λ data,
  res_bind (pd_DataFrame data) (λ df,
  if decide ("embedding" ∈ columns df) then
    res_bind (apply_embedding (rows df)) (λ rs,
    let df := {| columns := columns df; rows := dropna_embedding rs |} in
    if df_empty df then
      Ok (None, [StError ("No valid embeddings found in " +:+ filepath +:+ ".")])
    else if decide ("id" ∉ columns df ∨ "file_id" ∉ columns df
                    ∨ "content" ∉ columns df) then
      Ok (Some df,
          [StWarning "Embeddings file might be missing expected columns: 'id', 'file_id', 'content'. Hover data might be limited."])
    else Ok (Some df, []))
  else Raise (OtherException "'embedding'"))).

(** load_embeddings (lines 17-41). *)
Definition load_embeddings (fs : gmap string file_content) (filepath : string)
    : option DataFrame * list ui_event :=
  match load_embeddings_try fs filepath with
  | Ok r => r
  | Raise FileNotFoundError =>
      (None, [StError ("Error: Embeddings file not found at " +:+ filepath
                       +:+ ". Please run the indexer first.")])
  | Raise JSONDecodeError =>
      (None, [StError ("Error: Could not decode JSON from " +:+ filepath
                       +:+ ". The file might be corrupted or empty.")])
  | Raise x =>
      (None, [StError ("An unexpected error occurred while loading embeddings: "
                       +:+ exn_text x)])
  end.

(** run_tsne (lines 44-73). A [KeyError] of [embeddings_df['embedding']] and
    an exception of [np.array] are outside the [try] and leave the function.
    The array has one row per row of the frame, so [shape[0]] is their
    number. [json.JSONDecodeError] is a subclass of [ValueError]. *)
Definition run_tsne (embeddings_df : option DataFrame) (perplexity n_iter : Z)
    (learning_rate : Z) (random_state : Z)
    : res (option (list (float * float))) * list ui_event :=
  match embeddings_df with
  | None => (Ok None, [])
  | Some df =>
      if df_empty df then (Ok None, [])
      else if decide ("embedding" ∈ columns df) then
        let embeddings_matrix := (λ r, cell_at r "embedding") <$> rows df in
        match np_array_raises V embeddings_matrix with
        | Some x => (Raise x, [])
        | None =>
        let shape0 := Z.of_nat (length embeddings_matrix) in
        let '(perplexity, warned) :=
          if decide (shape0 ≤ perplexity) then
            (Z.max 1 (shape0 - 1),
             [StWarning ("Perplexity (" +:+ pretty perplexity
                         +:+ ") is too high for the number of samples ("
                         +:+ pretty shape0 +:+ "). Setting perplexity to "
                         +:+ pretty (Z.max 1 (shape0 - 1)) +:+ ".")])
          else (perplexity, []) in
        let tsne :=
          {| n_components := 2; perplexity := perplexity; max_iter := n_iter;
             learning_rate := learning_rate; random_state := random_state;
             init := "pca"; n_jobs := -1 |} in
        let called := warned ++ [TsneFitTransform tsne embeddings_matrix] in
        match fit_transform V tsne embeddings_matrix with
        | Ok projections => (Ok (Some projections), called)
        | Raise (ValueError ve) =>
            (Ok None,
             called ++ [StError ("t-SNE failed. This might be due to invalid parameters (e.g., perplexity too high for the dataset size). Error: " +:+ ve)])
        | Raise JSONDecodeError =>
            (Ok None,
             called ++ [StError ("t-SNE failed. This might be due to invalid parameters (e.g., perplexity too high for the dataset size). Error: " +:+ exn_text JSONDecodeError)])
        | Raise x =>
            (Ok None,
             called ++ [StError ("An unexpected error occurred during t-SNE computation: " +:+ exn_text x)])
        end
        end
      else (Raise (OtherException "'embedding'"), [])
  end.

End Viewer.

(** ** Definitions used to state the properties *)

(** The characters of a decimal numeral. *)
Definition is_digit (c : ascii) : bool :=
  bool_decide (c ∈ ["0"; "1"; "2"; "3"; "4"; "5"; "6"; "7"; "8"; "9"]%char).

Fixpoint all_digits (s : string) : bool :=
  match s with
  | EmptyString => true
  | String c s' => is_digit c && all_digits s'
  end.

(** The k-th batch of a list cut into batches of [m]:
    [xs[k * m:k * m + m]]. *)
Definition batch_at {A} (m : nat) (xs : list A) (k : nat) : list A :=
  py_slice xs (k * m) m.

(** The number of batches: [len(range(0, n, m))]. *)
Definition n_batches (m n : nat) : nat := ((n + m - 1) / m)%nat.

(** A chunk dict without its ["embedding"] key. *)
Definition forget_embedding (c : chunk) : chunk :=
  {| id := id c; file_id := file_id c; content := content c;
     start_pos := start_pos c; end_pos := end_pos c; embedding := None |}.

(** The [try] body of [embed_content] raises on this response: the call
    raised, or the response lists more embeddings than the batch has chunks
    and [batch[j]] raises [IndexError]. *)
Definition try_body_raises (batch : list loc) (r : api_result) : bool :=
  match r with
  | ApiRaises _ => true
  | ApiReturns embeddings => bool_decide (length batch < length embeddings)%nat
  end.

(** [response.embeddings] of a call that returned. *)
Definition returned_embeddings (r : api_result) : list (list float) :=
  match r with
  | ApiRaises _ => []
  | ApiReturns embeddings => embeddings
  end.

(** The k-th sub-batch of [embed_content]. *)
Definition sub_batch (chunks : list loc) (k : nat) : list loc :=
  batch_at GEMINI_BATCH_LIMIT chunks k.

(** The dict of the j-th chunk of a sub-batch after the sub-batch was
    processed with response [r]. *)
Definition after_sub_batch (batch : list loc) (r : api_result) (j : nat)
    (c : chunk) : chunk :=
  if try_body_raises batch r then set_embedding [] c
  else from_option (λ v, set_embedding v c) c (returned_embeddings r !! j).

(** The same world with another embedding service. *)
Definition with_embed_api (E : IndexerEnv)
    (api : nat → list string → api_result) : IndexerEnv :=
  {| glob := glob E; open_read := open_read E;
     text_splitter := text_splitter E; relpath := relpath E;
     embed_api := api; elapsed := elapsed E; str_float := str_float E;
     try_write := try_write E |}.

(** The same world with another way of reading files. *)
Definition with_open_read (E : IndexerEnv)
    (read : string → option string) : IndexerEnv :=
  {| glob := glob E; open_read := read;
     text_splitter := text_splitter E; relpath := relpath E;
     embed_api := embed_api E; elapsed := elapsed E; str_float := str_float E;
     try_write := try_write E |}.

(** What one file does to the counters. *)
Definition stats_after_file (E : IndexerEnv) (s : stats) (file_path : string)
    : stats :=
  let content := read_text_file E file_path in
  if decide (content = "") then fail_file s
  else
    match text_splitter E content, relpath E file_path with
    | Some pieces, Some _ =>
        {| files_processed := files_processed s + 1;
           files_failed := files_failed s;
           chunks_created := chunks_created s + Z.of_nat (length pieces);
           chunks_indexed := chunks_indexed s;
           processing_time := processing_time s |}
    | _, _ => fail_file s
    end.

(** The result list holds references to dicts with a non-empty embedding. *)
Definition all_valid (st : run_state) : Prop :=
  Forall (λ l, valid_chunk (rs_heap st) l = true) (rs_all_processed_chunks st).

(** The configuration that [run_tsne] builds for a perplexity. *)
Definition tsne_with (perplexity n_iter learning_rate random_state : Z)
    : tsne_config :=
  {| n_components := 2; perplexity := perplexity; max_iter := n_iter;
     learning_rate := learning_rate; random_state := random_state;
     init := "pca"; n_jobs := -1 |}.

(** The cells of the embedding column, one per row. *)
Definition embedding_column (df : DataFrame) : list cell :=
  (λ r, cell_at r "embedding") <$> rows df.

(** The event is an error message. *)
Definition is_st_error (ev : ui_event) : Prop :=
  match ev with
  | StError _ => True
  | _ => False
  end.

(** [d.get(key)] on the dict that a list of items stands for. *)
Definition record_get (items : list (string * pyval)) (key : string)
    : option pyval :=
  (list_to_map items : gmap string pyval) !! key.

(** The row that [pd.DataFrame] makes of a record. *)
Definition frame_row (items : list (string * pyval)) : gmap string cell :=
  Cell <$> (list_to_map items : gmap string pyval).

(** The row of the loaded table that a record gives: none when its
    embedding is not a list, and else the row with the embedding turned
    into a tuple of floats (none as well when an element of the list has no
    float value, in which case nothing is loaded at all). *)
Definition loaded_row (V : ViewerEnv) (items : list (string * pyval))
    : option (gmap string cell) :=
  match record_get items "embedding" with
  | Some (PList xs) =>
      match res_map (to_float V) xs with
      | Ok t => Some (<["embedding" := FloatTuple t]> (frame_row items))
      | Raise _ => None
      end
  | _ => None
  end.

(** Every embedding that is a list has a float value for each element. *)
Definition convertible (V : ViewerEnv) (items : list (string * pyval)) : Prop :=
  ∀ xs, record_get items "embedding" = Some (PList xs) →
        ∃ t, res_map (to_float V) xs = Ok t.

(** The row of the table for a persisted chunk. *)
Definition chunk_row (c : chunk) : gmap string cell :=
  <["embedding" := FloatTuple (default [] (embedding c))]>
    (frame_row (chunk_items c)).

(** ** The dashboard script (viz_scatter.py, lines 85-189) *)

(** The line feed character. *)
Definition newline : ascii := "010"%char.

(** [s.replace(a, b)] for a one-character [a]. *)
Fixpoint str_replace_char_by (a : ascii) (b : string) (s : string) : string :=
  match s with
  | EmptyString => EmptyString
  | String c s' =>
      if decide (c = a) then b +:+ str_replace_char_by a b s'
      else String c (str_replace_char_by a b s')
  end.

(** The arguments of a call of [st.sidebar.slider]. *)
Record slider := Slider {
  min_value : Z;
  max_value : Z;
  value : Z;
  step : Z
}.

(** Lines 94-101: the slider of the perplexity, for a table of [shape0]
    rows. *)
Definition perplexity_slider (shape0 : Z) : slider :=
  {| min_value := 5;
     max_value := Z.min 50 (if decide (1 < shape0) then shape0 - 1 else 50);
     value := Z.min DEFAULT_PERPLEXITY
                (if decide (1 < shape0) then shape0 - 1 else DEFAULT_PERPLEXITY);
     step := 1 |}.

(** Lines 102-109. *)
Definition n_iter_slider : slider :=
  {| min_value := 250; max_value := 2000; value := DEFAULT_ITERATIONS;
     step := 50 |}.

(** Lines 110-117. *)
Definition learning_rate_slider : slider :=
  {| min_value := 10; max_value := 1000; value := DEFAULT_LEARNING_RATE;
     step := 10 |}.

(** How the script goes on after the load: the [if] of line 89, the [elif]
    of line 184, or neither. *)
Inductive after_load :=
  | RunReduction (df : DataFrame)
  | WarnNoValidEmbeddings
  | NothingMore.

Definition branch_after_load (embeddings_df : option DataFrame) : after_load :=
  match embeddings_df with
  | Some df => if negb (df_empty df) then RunReduction df else WarnNoValidEmbeddings
  | None => NothingMore
  end.

(** The index labels that [dropna] leaves: those of the rows it keeps. The
    frame record does not carry the index, so it is computed beside it. *)
Definition dropna_labels (V : ViewerEnv) (labels : list nat)
    (rs : list (gmap string cell)) : list nat :=
  (filter (λ lr : nat * gmap string cell, ¬ isna V (cell_at lr.2 "embedding"))
          (zip labels rs)).*1.

(** The index of the frame that [load_embeddings] builds from a document
    that is a list of dicts: the positions [0, 1, ...] that [pd.DataFrame]
    gives to the records, less the rows that [dropna] removes. *)
Definition loaded_index (V : ViewerEnv) (fs : gmap string file_content)
    (filepath : string) : option (list nat) :=
  match read_json fs filepath with
  | Ok (PList xs) =>
      match as_records xs with
      | Some records =>
          match apply_embedding V (frame_row <$> records) with
          | Ok rs => Some (dropna_labels V (seq 0 (length rs)) rs)
          | Raise _ => None
          end
      | None => None
      end
  | _ => None
  end.

(** A row of [plot_df]. *)
Record plot_row := PlotRow {
  plot_x : float;
  plot_y : float;
  plot_file_id : cell;
  plot_display_content : cell;
  plot_chunk_id : cell
}.

(** [str(x)] as [astype(str)] computes it: a string is itself, and
    [str_other] gives the text of any other cell. *)
Definition cell_str (str_other : cell → string) (x : cell) : string :=
  match x with
  | Cell (PStr s) => s
  | _ => str_other x
  end.

(** [plot_df[col] = values] for an array of values: the lengths must
    agree. *)
Definition assign_array (n : nat) (values : list cell) : res (list cell) :=
  if decide (length values = n) then Ok values
  else Raise (ValueError "Length of values does not match length of index").

(** [plot_df[col] = series] for a Series: the values are aligned on the
    index labels, and a row of [plot_df] whose label the Series does not
    have gets NaN. *)
Definition assign_series (n : nat) (labels : list nat) (values : list cell)
    : list cell :=
  (λ k, match list_find (λ l, l = k) labels with
        | Some (p, _) => default Missing (values !! p)
        | None => Missing
        end) <$> seq 0 n.

(** Lines 129-137: [plot_df], built from the projections and from the
    columns of [embeddings_df], whose index labels are [labels]. *)
Definition plot_df (str_other : cell → string) (embeddings_df : DataFrame)
    (labels : list nat) (projections : list (float * float))
    : res (list plot_row) :=
  let n := length projections in
  res_bind
    (if decide ("file_id" ∈ columns embeddings_df)
     then assign_array n ((λ r, cell_at r "file_id") <$> rows embeddings_df)
     else Ok (replicate n (Cell (PStr "N/A"))))
    (λ file_ids,
  let display_contents :=
    if decide ("content" ∈ columns embeddings_df)
    then assign_series n labels
           ((λ r, Cell (PStr (str_replace_char_by newline "<br>"
                                (cell_str str_other (cell_at r "content")))))
            <$> rows embeddings_df)
    else replicate n (Cell (PStr "N/A")) in
  res_bind
    (if decide ("id" ∈ columns embeddings_df)
     then assign_array n ((λ r, cell_at r "id") <$> rows embeddings_df)
     else Ok (replicate n (Cell (PStr "N/A"))))
    (λ chunk_ids,
  Ok (imap (λ k (xy : float * float),
              {| plot_x := xy.1; plot_y := xy.2;
                 plot_file_id := default Missing (file_ids !! k);
                 plot_display_content := default Missing (display_contents !! k);
                 plot_chunk_id := default Missing (chunk_ids !! k) |})
           projections))).

(** ** More definitions used to state properties of the indexer *)

(** The pattern that the discovery loop hands to [glob.glob] for one
    requested extension: [f"{directory}/**/*{file_type}"] after the dot was
    put in front where it was missing. *)
Definition glob_pattern (directory file_type : string) : string :=
  directory +:+ "/**/*"
  +:+ (if startswith_char "." file_type then file_type else "." +:+ file_type).

(** [c in s] for a character. *)
Fixpoint str_has_char (c : ascii) (s : string) : bool :=
  match s with
  | EmptyString => false
  | String c' s' => bool_decide (c' = c) || str_has_char c s'
  end.

(** The embedding service raises on every call. *)
Definition api_always_raises (E : IndexerEnv) : Prop :=
  ∀ n texts, ∃ e, embed_api E n texts = ApiRaises e.

(** The embedding service answers every call with one non-empty vector per
    text. *)
Definition api_well_behaved (E : IndexerEnv) : Prop :=
  ∀ n texts, ∃ embeddings,
    embed_api E n texts = ApiReturns embeddings ∧
    length embeddings = length texts ∧
    Forall (λ v, v ≠ []) embeddings.

(** The keys of the objects of the output file, in order. *)
Definition OUTPUT_KEYS : list string :=
  ["id"; "file_id"; "content"; "start_pos"; "end_pos"; "embedding"].

(** What the loop over the batches keeps true: every created chunk is
    counted, and the result list is the list of the references to the
    dicts with a non-empty embedding, in the order of their creation. *)
Definition run_invariant (st : run_state) : Prop :=
  chunks_created (rs_stats st) = Z.of_nat (length (rs_heap st)) ∧
  rs_all_processed_chunks st
  = filter (λ l, valid_chunk (rs_heap st) l) (seq 0 (length (rs_heap st))).

(** A chunk whose [id] and offsets are those that [split_text] derives from
    its other keys: [id] is [{file_id}_{start_pos}-{end_pos}], [end_pos] is
    [start_pos] plus the length of the content, [start_pos] is a multiple of
    the stride, and [file_id] has no backslash. *)
Definition chunk_consistent (c : chunk) : Prop :=
  id c = file_id c +:+ "_" +:+ pretty (start_pos c) +:+ "-"
         +:+ pretty (end_pos c) ∧
  end_pos c = start_pos c + Z.of_nat (py_len (content c)) ∧
  (∃ i : nat, start_pos c = Z.of_nat i * (CHUNK_SIZE - CHUNK_OVERLAP)) ∧
  str_has_char backslash (file_id c) = false.

End Model.

(** * Test worlds

    Concrete worlds on which the model is run. Floats are integers here. *)

(** A directory with four markdown files: a small one, a big one in a
    sub-directory reached by a Windows-style path, an empty one and one
    that cannot be read. The second call of the embedding service fails. *)
Definition demo_env : @IndexerEnv Z := {|
  glob := λ pattern,
    if decide (pattern = "docs/**/*.md")
    then ["docs/notes.md"; "docs\sub\big.md"; "docs/empty.md"; "docs/locked.md"]
    else [];
  open_read := λ path,
    if decide (path = "docs/locked.md") then None
    else if decide (path = "docs/empty.md") then Some ""
    else if decide (path = "docs/notes.md") then Some "alpha beta gamma"
    else Some "big";
  text_splitter := λ text,
    if decide (text = "big") then Some (replicate 115 "x")
    else Some ["alpha"; "beta"; "gamma"];
  relpath := λ path, Some path;
  embed_api := λ n texts,
    if decide (n = 1%nat) then ApiRaises "quota exceeded"
    else ApiReturns ((λ t, [Z.of_nat (String.length t); 1]) <$> texts);
  elapsed := 2;
  str_float := λ f, pretty f +:+ ".0";
  try_write := λ _ _, WriteOk
|}.

(** The same directory on a disk that cannot be written. *)
Definition demo_env_read_only : @IndexerEnv Z := {|
  glob := glob demo_env;
  open_read := open_read demo_env;
  text_splitter := text_splitter demo_env;
  relpath := relpath demo_env;
  embed_api := embed_api demo_env;
  elapsed := elapsed demo_env;
  str_float := str_float demo_env;
  try_write := λ before _, WriteRaises "[Errno 30] Read-only file system" before
|}.

(** Three dicts as [split_text] leaves them, and the references to them. *)
Definition demo_heap : list (@chunk Z) :=
  imap (chunk_dict "notes.md") ["alpha"; "beta"; "gamma"].

Definition demo_chunks : list nat := [0; 1; 2]%nat.

(** Two chunks as the indexer persists them. *)
Definition demo_persisted : list (@chunk Z) :=
  [set_embedding [3; 1] (chunk_dict "notes.md" 0 "alpha");
   set_embedding [4; 1] (chunk_dict "notes.md" 1 "beta")].

(** A viewer whose reduction refuses a perplexity that is not below the
    number of samples. *)
Definition demo_viewer : @ViewerEnv Z := {|
  float_of_int := λ z, Ok z;
  float_of_str := λ s, Raise (ValueError ("could not convert string to float: " +:+ s));
  float_type_error := λ _, "float() argument must be a string or a real number";
  is_nan := λ _, false;
  frame_of_other := λ _, Raise (ValueError "DataFrame constructor not properly called!");
  np_array_raises := λ _, None;
  fit_transform := λ cfg matrix,
    if decide (perplexity cfg < Z.of_nat (length matrix))
    then Ok ((λ _, (0, 0)) <$> matrix)
    else Raise (ValueError "perplexity must be less than n_samples")
|}.

(** A table of three rows. *)
Definition demo_frame : @DataFrame Z := {|
  columns := ["id"; "embedding"];
  rows := (λ i : Z, {[ "id" := Cell (PInt i); "embedding" := FloatTuple [i; 1] ]})
          <$> [0; 1; 2]
|}.

(** A document with a row without embedding, a row whose embedding is
    null, a row with an empty embedding and a row with an embedding. *)
Definition demo_records : list (list (string * @pyval Z)) :=
  [ [("id", PStr "a")];
    [("id", PStr "b"); ("embedding", PNone)];
    [("id", PStr "c"); ("embedding", PList [])];
    [("id", PStr "d"); ("embedding", PList [PFloat 1; PInt 2])] ].


(** The same directory with an embedding service that always answers. *)
Definition demo_env_answering : @IndexerEnv Z :=
  with_embed_api demo_env
    (λ _ texts, ApiReturns ((λ t, [Z.of_nat (String.length t); 1]) <$> texts)).

(** The same directory with an embedding service that is down. *)
Definition demo_env_offline : @IndexerEnv Z :=
  with_embed_api demo_env (λ _ _, ApiRaises "service unavailable").

(** The same directory when no file can be read. *)
Definition demo_env_unreadable : @IndexerEnv Z :=
  with_open_read demo_env (λ _, None).

(** What the disk holds after a run on the demo directory. *)
Definition demo_disk : gmap string (@file_content Z) :=
  match (index_markdown_files demo_env "docs" ["md"] false None).2 with
  | Some c => {[ OUTPUT_JSON_FILE := c ]}
  | None => ∅
  end.

(** A table of seven rows. *)
Definition demo_frame_big : @DataFrame Z := {|
  columns := ["id"; "embedding"];
  rows := (λ i : Z, {[ "id" := Cell (PInt i); "embedding" := FloatTuple [i; 1] ]})
          <$> [0; 1; 2; 3; 4; 5; 6]
|}.

(** A document whose first record has a null embedding; the content of the
    second record has a line feed. *)
Definition demo_records_gap : list (list (string * @pyval Z)) :=
  [ [("id", PStr "a"); ("file_id", PStr "one.md"); ("content", PStr "first");
     ("embedding", PNone)];
    [("id", PStr "b"); ("file_id", PStr "one.md");
     ("content", PStr ("second" +:+ String newline "line"));
     ("embedding", PList [PFloat 1])];
    [("id", PStr "c"); ("file_id", PStr "two.md"); ("content", PStr "third");
     ("embedding", PList [PFloat 2])] ].

Definition demo_fs_gap : gmap string (@file_content Z) :=
  {[ EMBEDDINGS_FILE := JsonDoc (PList (PDict <$> demo_records_gap)) ]}.

(** [str] of a cell that is not a string. *)
Definition demo_str : @cell Z → string := λ _, "nan".

(** The table of the plot for the document with the gap, given one point
    per loaded row. *)
Definition demo_plot : res (list (@plot_row Z)) :=
  match (load_embeddings demo_viewer demo_fs_gap EMBEDDINGS_FILE).1,
        loaded_index demo_viewer demo_fs_gap EMBEDDINGS_FILE with
  | Some df, Some labels => plot_df demo_str df labels [(0, 0); (1, 1)]
  | _, _ => Raise (OtherException "no table")
  end.

(** A directory with one file, which the splitter leaves in one piece. *)
Definition demo_env_accents : @IndexerEnv Z := {|
  glob := λ _, ["docs/accents.md"];
  open_read := λ _, Some "héllo wörld";
  text_splitter := λ text, Some [text];
  relpath := λ path, Some path;
  embed_api := embed_api demo_env;
  elapsed := elapsed demo_env;
  str_float := str_float demo_env;
  try_write := try_write demo_env
|}.

(** The number of floats in a cell of the embedding column. *)
Definition tuple_length (x : @cell Z) : nat :=
  match x with
  | FloatTuple t => length t
  | _ => 0%nat
  end.

(** A viewer whose [np.array] refuses rows of different lengths, as NumPy
    does from version 1.24 on. *)
Definition demo_viewer_numpy : @ViewerEnv Z := {|
  float_of_int := float_of_int demo_viewer;
  float_of_str := float_of_str demo_viewer;
  float_type_error := float_type_error demo_viewer;
  is_nan := is_nan demo_viewer;
  frame_of_other := frame_of_other demo_viewer;
  np_array_raises := λ cells,
    match cells with
    | [] => None
    | x :: others =>
        if bool_decide (Forall (λ y, tuple_length y = tuple_length x) others)
        then None
        else Some (ValueError "setting an array element with a sequence. The requested array has an inhomogeneous shape after 1 dimensions.")
    end;
  fit_transform := fit_transform demo_viewer
|}.

(** The table that the loader returns for [demo_records]: an empty
    embedding and one of two floats. *)
Definition demo_frame_ragged : @DataFrame Z := {|
  columns := ["id"; "embedding"];
  rows := [ <["embedding" := FloatTuple []]>
              (frame_row [("id", PStr "c"); ("embedding", PList [])]);
            <["embedding" := FloatTuple [1; 2]]>
              (frame_row [("id", PStr "d");
                          ("embedding", PList [PFloat 1; PInt 2])]) ]
|}.

(** * Properties *)

Section Properties.

Context {float : Type}.

Local Abbreviation pyval := (@pyval float) (only parsing).
Local Abbreviation chunk := (@chunk float) (only parsing).
Local Abbreviation heap := (list chunk) (only parsing).
Local Abbreviation loc := nat (only parsing).
Local Abbreviation api_result := (@api_result float) (only parsing).
Local Abbreviation file_content := (@file_content float) (only parsing).
Local Abbreviation IndexerEnv := (@IndexerEnv float) (only parsing).
Local Abbreviation stats := (@stats float) (only parsing).
Local Abbreviation embed_state := (@embed_state float) (only parsing).
Local Abbreviation batch_state := (@batch_state float) (only parsing).
Local Abbreviation run_state := (@run_state float) (only parsing).
Local Abbreviation cell := (@cell float) (only parsing).
Local Abbreviation DataFrame := (@DataFrame float) (only parsing).
Local Abbreviation ui_event := (@ui_event float) (only parsing).
Local Abbreviation ViewerEnv := (@ViewerEnv float) (only parsing).
Local Abbreviation chunk_dict := (@chunk_dict float) (only parsing).
Local Abbreviation initial_stats := (@initial_stats float) (only parsing).
Local Abbreviation set_embedding := (@set_embedding float) (only parsing).
Local Abbreviation forget_embedding := (@forget_embedding float) (only parsing).


(** ** Decimal printing *)

Lemma pretty_N_char_digit x : is_digit (pretty_N_char x) = true.
Proof. unfold pretty_N_char. repeat case_match; reflexivity. Qed.

Lemma pretty_N_go_digits x s :
  all_digits s = true → all_digits (pretty_N_go x s) = true.
Proof.
  revert s. induction (N.lt_wf_0 x) as [x _ IH]; intros s Hs.
  destruct (decide (x = 0%N)) as [->|Hx].
  - by rewrite pretty_N_go_0.
  - rewrite pretty_N_go_step by lia. apply IH.
    + apply N.div_lt; lia.
    + simpl. by rewrite pretty_N_char_digit.
Qed.

Lemma pretty_Z_digits z : 0 ≤ z → all_digits (pretty z) = true.
Proof.
  destruct z as [|p|p]; intros Hz; [done| |lia].
  unfold pretty, pretty_Z, pretty, pretty_positive, pretty, pretty_N.
  case_decide; [done|]. by apply pretty_N_go_digits.
Qed.

(** A string of digits followed by a dash is cut at the dash. *)
Lemma digits_dash_inj a a' b b' :
  all_digits a = true → all_digits a' = true →
  a +:+ String "-" b = a' +:+ String "-" b' → a = a'.
Proof.
  revert a'. induction a as [|c a IH]; intros [|c' a'] Ha Ha' Heq;
    simpl in *; simplify_eq; try done.
  apply andb_prop in Ha as [_ Ha]. apply andb_prop in Ha' as [_ Ha'].
  f_equal. by eapply IH.
Qed.

Section SplitTextProofs.

Variable E : IndexerEnv.

Lemma chunk_dict_start_nonneg fid i piece : 0 ≤ start_pos (chunk_dict fid i piece).
Proof. simpl. case_decide; unfold CHUNK_SIZE, CHUNK_OVERLAP; lia. Qed.

Lemma chunk_dict_start_inj fid fid' i j p q :
  start_pos (chunk_dict fid i p) = start_pos (chunk_dict fid' j q) → i = j.
Proof.
  simpl. unfold CHUNK_SIZE, CHUNK_OVERLAP. repeat case_decide; lia.
Qed.

Lemma chunk_dict_id_inj fid i j p q :
  id (chunk_dict fid i p) = id (chunk_dict fid j q) → i = j.
Proof.
  intros Hid. apply (chunk_dict_start_inj fid fid i j p q).
  pose proof (chunk_dict_start_nonneg fid i p) as Hi.
  pose proof (chunk_dict_start_nonneg fid j q) as Hj.
  unfold id, chunk_dict in Hid. fold (start_pos (chunk_dict fid i p)) in *.
  cbv zeta in Hid.
  apply (inj (String.append fid)) in Hid.
  apply (inj (String.append "_")) in Hid.
  apply digits_dash_inj in Hid.
  - by apply (inj pretty) in Hid.
  - apply pretty_Z_digits. apply Hi.
  - apply pretty_Z_digits. apply Hj.
Qed.

(** What [split_text] returns and where it puts the new dicts. *)
Lemma split_text_Some text file_path σ pieces rel :
  text_splitter E text = Some pieces →
  relpath E file_path = Some rel →
  split_text E text file_path σ =
    Some (seq (length σ) (length pieces),
          σ ++ imap (chunk_dict (str_replace_char backslash "/"%char rel)) pieces).
Proof.
  intros Hs Hr. unfold split_text. rewrite Hs, Hr. simpl.
  by rewrite length_imap.
Qed.

Lemma split_text_inv text file_path σ locs σ' :
  split_text E text file_path σ = Some (locs, σ') →
  ∃ pieces rel,
    text_splitter E text = Some pieces ∧ relpath E file_path = Some rel ∧
    locs = seq (length σ) (length pieces) ∧
    σ' = σ ++ imap (chunk_dict (str_replace_char backslash "/"%char rel)) pieces.
Proof.
  unfold split_text. intros H.
  destruct (text_splitter E text) as [pieces|] eqn:Hs; [|done].
  destruct (relpath E file_path) as [rel|] eqn:Hr; [|done].
  simpl in H. rewrite length_imap in H. simplify_eq.
  by exists pieces, rel.
Qed.

(** C3. When the splitter returns pieces for the text and [relpath] a path
    for the file, [split_text] returns one chunk per piece, in order.
    Chunk 0 starts at 0 and chunk [i > 0] at [i * (CHUNK_SIZE -
    CHUNK_OVERLAP)]; [end_pos] is [start_pos] plus the length of the piece
    ([len], which counts code points);
    [file_id] is the relative path with every backslash replaced by a slash;
    [id] is the string [{file_id}_{start_pos}-{end_pos}]. Two chunks at
    different positions of the list have different ids. *)
Theorem split_text_positions_and_ids text file_path σ pieces rel :
  text_splitter E text = Some pieces →
  relpath E file_path = Some rel →
  ∃ locs σ',
    split_text E text file_path σ = Some (locs, σ') ∧
    length locs = length pieces ∧
    (∀ i piece, pieces !! i = Some piece →
       ∃ l c, locs !! i = Some l ∧ σ' !! l = Some c ∧
         file_id c = str_replace_char backslash "/"%char rel ∧
         content c = piece ∧
         (i = 0%nat → start_pos c = 0) ∧
         ((0 < i)%nat →
            start_pos c = Z.of_nat i * (CHUNK_SIZE - CHUNK_OVERLAP)) ∧
         end_pos c = start_pos c + Z.of_nat (py_len piece) ∧
         id c = file_id c +:+ "_" +:+ pretty (start_pos c) +:+ "-"
                +:+ pretty (end_pos c)) ∧
    (∀ i j li lj ci cj,
       locs !! i = Some li → locs !! j = Some lj →
       σ' !! li = Some ci → σ' !! lj = Some cj →
       i ≠ j → id ci ≠ id cj).
Proof.
  intros Hs Hr. eexists _, _. split; [by apply split_text_Some|].
  set (fid := str_replace_char _ _ rel).
  assert (Hnew : ∀ i l, seq (length σ) (length pieces) !! i = Some l →
            l = (length σ + i)%nat ∧
            (σ ++ imap (chunk_dict fid) pieces) !! l
              = chunk_dict fid i <$> pieces !! i).
  { intros i l Hl. apply lookup_seq in Hl as [-> Hi]. split; [done|].
    rewrite lookup_app_r by lia.
    replace (length σ + i - length σ)%nat with i by lia.
    apply list_lookup_imap. }
  split; [by rewrite length_seq|]. split.
  - intros i piece Hi.
    assert (Hlt : (i < length pieces)%nat) by (by eapply lookup_lt_Some).
    exists (length σ + i)%nat, (chunk_dict fid i piece).
    assert (Hl : seq (length σ) (length pieces) !! i = Some (length σ + i)%nat)
      by (by apply lookup_seq).
    split; [done|]. destruct (Hnew _ _ Hl) as [_ ->]. rewrite Hi.
    split; [done|]. simpl.
    repeat split; try done; intros; case_decide; (done || lia).
  - intros i j li lj ci cj Hi Hj Hci Hcj Hne Hid.
    destruct (Hnew _ _ Hi) as [-> Hi']. destruct (Hnew _ _ Hj) as [-> Hj'].
    rewrite Hci in Hi'. rewrite Hcj in Hj'.
    destruct (pieces !! i) as [p|]; [|done].
    destruct (pieces !! j) as [q|]; [|done].
    injection Hi' as ->. injection Hj' as ->.
    apply Hne. by apply (chunk_dict_id_inj fid i j p q).
Qed.

End SplitTextProofs.

(** ** Batching: [range(0, n, m)] and [xs[i:i + m]] *)

Section Batching.

Context {A : Type}.
Variable m : nat.
Hypothesis m_pos : (0 < m)%nat.

Lemma py_range_batches n : py_range n m = (λ k, k * m)%nat <$> seq 0 (n_batches m n).
Proof. reflexivity. Qed.

Lemma length_py_range n : length (py_range n m) = n_batches m n.
Proof. unfold py_range, n_batches. by rewrite length_fmap, length_seq. Qed.

Lemma n_batches_lt n k : (k < n_batches m n ↔ k * m < n)%nat.
Proof.
  unfold n_batches. split; intros H.
  - assert (k * m + m ≤ n + m - 1)%nat; [|lia].
    assert (S k ≤ (n + m - 1) / m)%nat by lia.
    transitivity (m * ((n + m - 1) / m))%nat; [nia|].
    apply Nat.Div0.mul_div_le.
  - apply Nat.div_le_lower_bound; lia.
Qed.

Lemma batch_at_lookup (xs : list A) k j x :
  batch_at m xs k !! j = Some x ↔ xs !! (k * m + j)%nat = Some x ∧ (j < m)%nat.
Proof.
  unfold batch_at, py_slice. by rewrite lookup_take_Some, lookup_drop.
Qed.

Lemma batch_at_elem_of (xs : list A) k x : x ∈ batch_at m xs k → x ∈ xs.
Proof.
  intros [j Hj]%list_elem_of_lookup. apply batch_at_lookup in Hj as [Hj _].
  by eapply list_elem_of_lookup_2.
Qed.

Lemma batch_at_length_le (xs : list A) k : (length (batch_at m xs k) ≤ m)%nat.
Proof. unfold batch_at, py_slice. rewrite length_take. lia. Qed.

Lemma batch_at_nonempty (xs : list A) k :
  (k < n_batches m (length xs))%nat → (0 < length (batch_at m xs k))%nat.
Proof.
  intros Hk%n_batches_lt. unfold batch_at, py_slice.
  rewrite length_take, length_drop. lia.
Qed.

Lemma batch_at_NoDup (xs : list A) k : NoDup xs → NoDup (batch_at m xs k).
Proof.
  intros Hxs. apply NoDup_alt. intros i j x [Hi ?]%batch_at_lookup [Hj ?]%batch_at_lookup.
  pose proof (proj1 (NoDup_alt xs) Hxs _ _ _ Hi Hj). lia.
Qed.

(** In a list without repetition, an element is in one batch only. *)
Lemma batch_at_disjoint (xs : list A) k k' x :
  NoDup xs → x ∈ batch_at m xs k → x ∈ batch_at m xs k' → k = k'.
Proof.
  intros Hxs [i [Hi ?]%batch_at_lookup]%list_elem_of_lookup
             [j [Hj ?]%batch_at_lookup]%list_elem_of_lookup.
  pose proof (proj1 (NoDup_alt xs) Hxs _ _ _ Hi Hj). nia.
Qed.

Lemma concat_batches_take (xs : list A) K :
  concat (batch_at m xs <$> seq 0 K) = take (K * m) xs.
Proof.
  induction K as [|K IH]; [done|].
  rewrite seq_S, fmap_app, concat_app, IH. simpl.
  rewrite app_nil_r. unfold batch_at, py_slice.
  rewrite take_take_drop. f_equal. lia.
Qed.

(** The batches, one after the other, are the list. *)
Lemma concat_batches (xs : list A) :
  concat (batch_at m xs <$> seq 0 (n_batches m (length xs))) = xs.
Proof.
  rewrite concat_batches_take. apply take_ge.
  destruct (decide (length xs ≤ n_batches m (length xs) * m)%nat) as [|Hn]; [done|].
  assert (H : (n_batches m (length xs) * m < length xs)%nat) by lia.
  apply n_batches_lt in H. lia.
Qed.

Lemma elem_of_batches (xs : list A) x :
  x ∈ xs → ∃ k, (k < n_batches m (length xs))%nat ∧ x ∈ batch_at m xs k.
Proof.
  intros [i Hi]%list_elem_of_lookup.
  pose proof (lookup_lt_Some _ _ _ Hi) as Hlt.
  pose proof (Nat.div_mod_eq i m) as Hdm.
  pose proof (Nat.mod_upper_bound i m) as Hub.
  exists (i / m)%nat. split.
  - apply n_batches_lt. nia.
  - apply list_elem_of_lookup. exists (i mod m)%nat. apply batch_at_lookup.
    split; [|lia]. by replace (i / m * m + i mod m)%nat with i by lia.
Qed.

End Batching.

(** ** embed_content *)

Lemma GEMINI_BATCH_LIMIT_pos : (0 < GEMINI_BATCH_LIMIT)%nat.
Proof. unfold GEMINI_BATCH_LIMIT. lia. Qed.

Lemma BATCH_SIZE_pos : (0 < BATCH_SIZE)%nat.
Proof. unfold BATCH_SIZE. lia. Qed.

Lemma forget_set_embedding v c :
  forget_embedding (set_embedding v c) = forget_embedding c.
Proof. reflexivity. Qed.

Lemma forget_alter v l (σ : heap) :
  forget_embedding <$> alter (set_embedding v) l σ = forget_embedding <$> σ.
Proof.
  rewrite (list_fmap_alter _ _ (λ x, x)).
  - by apply list_alter_id.
  - by apply Forall_forall.
Qed.

Lemma forget_lookup (σ σ' : heap) l :
  forget_embedding <$> σ' = forget_embedding <$> σ →
  forget_embedding <$> σ' !! l = forget_embedding <$> σ !! l.
Proof. intros H. by rewrite <-!list_lookup_fmap, H. Qed.

Lemma forget_length (σ σ' : heap) :
  forget_embedding <$> σ' = forget_embedding <$> σ → length σ' = length σ.
Proof. intros H. by rewrite <-(length_fmap forget_embedding σ'), H, length_fmap. Qed.

Lemma batch_texts_forget (σ σ' : heap) batch :
  forget_embedding <$> σ' = forget_embedding <$> σ →
  batch_texts σ' batch = batch_texts σ batch.
Proof.
  intros H. unfold batch_texts. apply list_fmap_ext. intros _ l _.
  pose proof (forget_lookup σ σ' l H) as Hl.
  destruct (σ' !! l) as [c'|], (σ !! l) as [c|]; by simplify_eq/=.
Qed.

(** *** The [except] branch *)

Lemma clear_embeddings_cons l batch (σ : heap) :
  clear_embeddings (l :: batch) σ
  = clear_embeddings batch (alter (set_embedding []) l σ).
Proof. reflexivity. Qed.

Lemma clear_embeddings_forget batch (σ : heap) :
  forget_embedding <$> clear_embeddings batch σ = forget_embedding <$> σ.
Proof.
  revert σ. induction batch as [|l batch IH]; intros σ; [done|].
  by rewrite clear_embeddings_cons, IH, forget_alter.
Qed.

Lemma clear_embeddings_frame batch (σ : heap) l :
  l ∉ batch → clear_embeddings batch σ !! l = σ !! l.
Proof.
  revert σ. induction batch as [|l' batch IH]; intros σ Hl; [done|].
  apply not_elem_of_cons in Hl as [Hne Hl].
  rewrite clear_embeddings_cons, IH by done.
  by apply list_lookup_alter_ne.
Qed.

Lemma clear_embeddings_elem batch (σ : heap) l :
  l ∈ batch → clear_embeddings batch σ !! l = set_embedding [] <$> σ !! l.
Proof.
  revert σ. induction batch as [|l' batch IH]; intros σ Hl.
  { by apply elem_of_nil in Hl. }
  rewrite clear_embeddings_cons.
  destruct (decide (l ∈ batch)) as [Hin|Hnin].
  - rewrite IH by done. rewrite list_lookup_alter. case_decide; [|done].
    subst. by destruct (σ !! l).
  - apply elem_of_cons in Hl as [->|?]; [|done].
    rewrite clear_embeddings_frame by done. apply list_lookup_alter_eq.
Qed.

(** *** The assignment loop *)

Lemma assign_embeddings_ok batch embeddings (σ : heap) :
  (assign_embeddings batch embeddings σ).2
  = bool_decide (length embeddings ≤ length batch)%nat.
Proof.
  revert batch σ. induction embeddings as [|v vs IH]; intros [|l ls] σ;
    cbn [assign_embeddings]; rewrite ?IH;
    repeat case_bool_decide; simpl in *; (done || lia).
Qed.

Lemma assign_embeddings_forget batch embeddings (σ : heap) :
  forget_embedding <$> (assign_embeddings batch embeddings σ).1
  = forget_embedding <$> σ.
Proof.
  revert batch σ. induction embeddings as [|v vs IH]; intros [|l ls] σ;
    simpl; try done.
  by rewrite IH, forget_alter.
Qed.

Lemma assign_embeddings_frame batch embeddings (σ : heap) l :
  l ∉ batch → (assign_embeddings batch embeddings σ).1 !! l = σ !! l.
Proof.
  revert batch σ. induction embeddings as [|v vs IH]; intros [|l' ls] σ Hl;
    simpl; try done.
  apply not_elem_of_cons in Hl as [Hne Hl].
  rewrite IH by done. by apply list_lookup_alter_ne.
Qed.

(** With distinct references the j-th embedding stays on the j-th dict. *)
Lemma assign_embeddings_lookup batch embeddings (σ : heap) j l :
  NoDup batch → (length embeddings ≤ length batch)%nat →
  batch !! j = Some l →
  (assign_embeddings batch embeddings σ).1 !! l
  = (λ c, from_option (λ v, set_embedding v c) c (embeddings !! j)) <$> σ !! l.
Proof.
  revert batch σ j.
  induction embeddings as [|v vs IH]; intros [|l' ls] σ j Hnd Hlen Hj;
    simpl in *; try done; try lia.
  - by destruct (σ !! l).
  - apply NoDup_cons in Hnd as [Hl' Hnd]. destruct j as [|j]; simpl in *.
    + simplify_eq. rewrite assign_embeddings_frame by done.
      apply list_lookup_alter_eq.
    + rewrite (IH ls _ j) by (done || lia).
      rewrite list_lookup_alter_ne; [done|].
      intros ->. apply Hl'. by eapply list_elem_of_lookup_2.
Qed.

(** *** One sub-batch *)

Section EmbedProofs.

Variable E : IndexerEnv.

Lemma embed_batch_forget chunks st i :
  forget_embedding <$> es_heap (embed_batch E chunks st i)
  = forget_embedding <$> es_heap st.
Proof.
  unfold embed_batch; simpl.
  destruct (embed_api E _ _) as [e|embeddings].
  - apply clear_embeddings_forget.
  - pose proof (assign_embeddings_forget
      (py_slice chunks i GEMINI_BATCH_LIMIT) embeddings (es_heap st)) as H.
    destruct (assign_embeddings _ _ _) as [σ1 []]; simpl in H; [done|].
    by rewrite clear_embeddings_forget.
Qed.

Lemma embed_batch_frame chunks st i l :
  l ∉ py_slice chunks i GEMINI_BATCH_LIMIT →
  es_heap (embed_batch E chunks st i) !! l = es_heap st !! l.
Proof.
  intros Hl. unfold embed_batch; simpl.
  destruct (embed_api E _ _) as [e|embeddings].
  - by apply clear_embeddings_frame.
  - pose proof (assign_embeddings_frame
      (py_slice chunks i GEMINI_BATCH_LIMIT) embeddings (es_heap st) l Hl) as H.
    destruct (assign_embeddings _ _ _) as [σ1 []]; simpl in H; [done|].
    by rewrite clear_embeddings_frame.
Qed.

Lemma set_embedding_forget v (x y : option chunk) :
  forget_embedding <$> x = forget_embedding <$> y →
  set_embedding v <$> x = set_embedding v <$> y.
Proof.
  destruct x as [[]|], y as [[]|]; simpl; intros H; by simplify_eq.
Qed.

Lemma embed_batch_lookup chunks st i j l :
  let batch := py_slice chunks i GEMINI_BATCH_LIMIT in
  let r := embed_api E (es_calls st) (batch_texts (es_heap st) batch) in
  NoDup batch → batch !! j = Some l →
  es_heap (embed_batch E chunks st i) !! l
  = after_sub_batch batch r j <$> es_heap st !! l.
Proof.
  intros batch r Hnd Hj. unfold embed_batch, after_sub_batch; simpl.
  fold batch. fold r.
  assert (Hin : l ∈ batch) by (by eapply list_elem_of_lookup_2).
  destruct r as [e|embeddings]; simpl.
  - by apply clear_embeddings_elem.
  - pose proof (assign_embeddings_ok batch embeddings (es_heap st)) as Hok.
    pose proof (assign_embeddings_forget batch embeddings (es_heap st)) as Hf.
    pose proof (assign_embeddings_lookup batch embeddings (es_heap st) j l Hnd) as Hl.
    destruct (assign_embeddings _ _ _) as [σ1 ok]; simpl in *. subst ok.
    case_bool_decide as Hle.
    + rewrite bool_decide_eq_false_2 by lia. by apply Hl.
    + rewrite bool_decide_eq_true_2 by lia.
      rewrite clear_embeddings_elem by done.
      apply set_embedding_forget. by apply forget_lookup.
Qed.

(** *** The loop over the sub-batches *)

Lemma embed_fold_calls chunks st idxs :
  es_calls (foldl (embed_batch E chunks) st idxs) = (es_calls st + length idxs)%nat.
Proof.
  revert st. induction idxs as [|i idxs IH]; intros st; simpl; [lia|].
  rewrite IH. simpl. lia.
Qed.

Lemma embed_fold_all chunks st idxs :
  es_all (foldl (embed_batch E chunks) st idxs)
  = es_all st ++ concat ((λ i, py_slice chunks i GEMINI_BATCH_LIMIT) <$> idxs).
Proof.
  revert st. induction idxs as [|i idxs IH]; intros st; simpl.
  - by rewrite app_nil_r.
  - rewrite IH. simpl. by rewrite app_assoc.
Qed.

Lemma embed_fold_forget chunks st idxs :
  forget_embedding <$> es_heap (foldl (embed_batch E chunks) st idxs)
  = forget_embedding <$> es_heap st.
Proof.
  revert st. induction idxs as [|i idxs IH]; intros st; simpl; [done|].
  by rewrite IH, embed_batch_forget.
Qed.

Lemma embed_fold_frame chunks st idxs l :
  (∀ i, i ∈ idxs → l ∉ py_slice chunks i GEMINI_BATCH_LIMIT) →
  es_heap (foldl (embed_batch E chunks) st idxs) !! l = es_heap st !! l.
Proof.
  revert st. induction idxs as [|i idxs IH]; intros st Hl; simpl; [done|].
  rewrite IH by (intros; apply Hl; by right).
  apply embed_batch_frame, Hl. by left.
Qed.

(** After the loop, the chunks of the sub-batch processed at position [p]
    hold what that sub-batch gave them. *)
Lemma embed_fold_lookup chunks st ks p k j l :
  NoDup chunks → NoDup ks →
  ks !! p = Some k → sub_batch chunks k !! j = Some l →
  es_heap (foldl (embed_batch E chunks) st
             ((λ k, k * GEMINI_BATCH_LIMIT)%nat <$> ks)) !! l
  = after_sub_batch (sub_batch chunks k)
      (embed_api E (es_calls st + p)
         (batch_texts (es_heap st) (sub_batch chunks k))) j
    <$> es_heap st !! l.
Proof.
  intros Hnd. revert st p.
  induction ks as [|k0 ks IH]; intros st p Hks Hp Hj; [done|].
  apply NoDup_cons in Hks as [Hk0 Hks].
  assert (Hin : l ∈ sub_batch chunks k) by (by eapply list_elem_of_lookup_2).
  rewrite fmap_cons. simpl foldl. destruct p as [|p]; simpl in Hp.
  - simplify_eq. rewrite embed_fold_frame.
    + rewrite Nat.add_0_r.
      apply (embed_batch_lookup chunks st (k * GEMINI_BATCH_LIMIT) j l);
        [|exact Hj].
      exact (batch_at_NoDup GEMINI_BATCH_LIMIT GEMINI_BATCH_LIMIT_pos chunks k Hnd).
    + intros i (k' & -> & Hk')%list_elem_of_fmap Hl.
      assert (k = k'); [|by subst].
      by eapply (batch_at_disjoint GEMINI_BATCH_LIMIT GEMINI_BATCH_LIMIT_pos chunks).
  - rewrite (IH _ p) by done.
    rewrite (batch_texts_forget _ _ _ (embed_batch_forget chunks st _)).
    rewrite embed_batch_frame.
    + simpl. by rewrite Nat.add_succ_r.
    + intros Hl. assert (k = k0);
        [by eapply (batch_at_disjoint GEMINI_BATCH_LIMIT GEMINI_BATCH_LIMIT_pos chunks)|].
      subst. apply Hk0. by eapply list_elem_of_lookup_2.
Qed.

Lemma embed_content_unfold chunks σ calls :
  embed_content E chunks σ calls
  = foldl (embed_batch E chunks)
      {| es_heap := σ; es_calls := calls; es_all := [] |}
      ((λ k, k * GEMINI_BATCH_LIMIT)%nat
         <$> seq 0 (n_batches GEMINI_BATCH_LIMIT (length chunks))).
Proof. reflexivity. Qed.

Lemma embed_content_all chunks σ calls :
  es_all (embed_content E chunks σ calls) = chunks.
Proof.
  rewrite embed_content_unfold, embed_fold_all. simpl.
  rewrite <-list_fmap_compose.
  apply (concat_batches GEMINI_BATCH_LIMIT GEMINI_BATCH_LIMIT_pos).
Qed.

Lemma embed_content_forget chunks σ calls :
  forget_embedding <$> es_heap (embed_content E chunks σ calls)
  = forget_embedding <$> σ.
Proof. by rewrite embed_content_unfold, embed_fold_forget. Qed.

Lemma embed_content_frame chunks σ calls l :
  l ∉ chunks → es_heap (embed_content E chunks σ calls) !! l = σ !! l.
Proof.
  intros Hl. rewrite embed_content_unfold, embed_fold_frame; [done|].
  intros i (k & -> & _)%list_elem_of_fmap Hin. apply Hl.
  by eapply (batch_at_elem_of GEMINI_BATCH_LIMIT).
Qed.

(** C2. [embed_content] on a list of distinct chunk dicts (as [split_text]
    creates them) cuts the list into consecutive sub-batches of at most 100
    chunks, in order, and makes one call per sub-batch. It returns normally
    with the same list. A chunk of the k-th sub-batch ends with an empty
    embedding when the [try] body of that sub-batch raises (the call raises,
    or the response has more embeddings than the sub-batch has chunks);
    otherwise the chunk at position j of the sub-batch ends with the j-th
    returned embedding (and keeps what it had when the response has no j-th
    one). What a chunk ends with depends on the response to its own
    sub-batch only; every other key of every dict is unchanged and dicts
    outside the list are untouched. *)
Theorem embed_content_sub_batches chunks (σ : heap) calls :
  NoDup chunks →
  (∀ l, l ∈ chunks → is_Some (σ !! l)) →
  let es := embed_content E chunks σ calls in
  let n := n_batches GEMINI_BATCH_LIMIT (length chunks) in
  concat (sub_batch chunks <$> seq 0 n) = chunks ∧
  (∀ k, (k < n)%nat → (0 < length (sub_batch chunks k) ≤ 100)%nat) ∧
  es_all es = chunks ∧
  es_calls es = (calls + n)%nat ∧
  forget_embedding <$> es_heap es = forget_embedding <$> σ ∧
  (∀ l, l ∉ chunks → es_heap es !! l = σ !! l) ∧
  (∀ k j l, (k < n)%nat → sub_batch chunks k !! j = Some l →
     ∃ c c', σ !! l = Some c ∧ es_heap es !! l = Some c' ∧
       let r := embed_api E (calls + k) (batch_texts σ (sub_batch chunks k)) in
       if try_body_raises (sub_batch chunks k) r
       then embedding c' = Some []
       else embedding c'
            = from_option Some (embedding c) (returned_embeddings r !! j)).
Proof.
  intros Hnd Hvalid es n. repeat split.
  - apply (concat_batches GEMINI_BATCH_LIMIT GEMINI_BATCH_LIMIT_pos).
  - by apply (batch_at_nonempty GEMINI_BATCH_LIMIT GEMINI_BATCH_LIMIT_pos).
  - exact (batch_at_length_le GEMINI_BATCH_LIMIT GEMINI_BATCH_LIMIT_pos chunks k).
  - apply embed_content_all.
  - unfold es. rewrite embed_content_unfold, embed_fold_calls. simpl.
    by rewrite length_fmap, length_seq.
  - apply embed_content_forget.
  - intros l Hl. by apply embed_content_frame.
  - intros k j l Hk Hj.
    assert (Hin : l ∈ chunks).
    { eapply (batch_at_elem_of GEMINI_BATCH_LIMIT), list_elem_of_lookup_2, Hj. }
    destruct (Hvalid l Hin) as [c Hc]. exists c.
    unfold es. rewrite embed_content_unfold.
    rewrite (embed_fold_lookup chunks _ (seq 0 n) k k j l);
      [|done|apply NoDup_seq|by apply lookup_seq|done].
    simpl. rewrite Hc. simpl. eexists; split; [done|]. split; [done|].
    unfold after_sub_batch.
    destruct (try_body_raises _ _); [done|].
    by destruct (returned_embeddings _ !! j).
Qed.

End EmbedProofs.

(** ** index_markdown_files *)

Section RunProofs.

Variable E : IndexerEnv.

(** *** The files of one batch *)

Lemma process_file_stats st file_path :
  bs_stats (process_file E st file_path)
  = stats_after_file E (bs_stats st) file_path.
Proof.
  unfold process_file, stats_after_file, split_text.
  case_decide; [done|].
  destruct (text_splitter E _) as [pieces|]; [|done].
  destruct (relpath E _) as [rel|]; [|done]. simpl.
  unfold count_file. by rewrite length_seq, length_imap.
Qed.

Lemma process_files_stats st files :
  bs_stats (foldl (process_file E) st files)
  = foldl (stats_after_file E) (bs_stats st) files.
Proof.
  revert st. induction files as [|f files IH]; intros st; simpl; [done|].
  by rewrite IH, process_file_stats.
Qed.

(** The dicts of a batch are appended to the heap, and [all_chunks] lists
    them in order. *)
Lemma process_file_alloc st file_path :
  ∃ new,
    bs_heap (process_file E st file_path) = bs_heap st ++ new ∧
    bs_all_chunks (process_file E st file_path)
    = bs_all_chunks st ++ seq (length (bs_heap st)) (length new) ∧
    Forall (λ c, embedding c = None) new.
Proof.
  unfold process_file. case_decide.
  { exists []. simpl. by rewrite !app_nil_r. }
  destruct (split_text E _ _ _) as [[chunks σ']|] eqn:Hs.
  - apply split_text_inv in Hs as (pieces & rel & _ & _ & -> & ->).
    eexists. simpl. split; [done|]. rewrite length_imap. split; [done|].
    apply Forall_forall. intros c (i & piece & -> & _)%elem_of_lookup_imap.
    done.
  - exists []. simpl. by rewrite !app_nil_r.
Qed.

Lemma process_files_alloc (σ : heap) s files :
  ∃ new,
    let bs := foldl (process_file E)
                {| bs_heap := σ; bs_stats := s; bs_all_chunks := [] |} files in
    bs_heap bs = σ ++ new ∧
    bs_all_chunks bs = seq (length σ) (length new) ∧
    Forall (λ c, embedding c = None) new.
Proof.
  induction files as [|f files IH] using rev_ind.
  { exists []. simpl. by rewrite app_nil_r. }
  destruct IH as (new & Hh & Ha & Hn). rewrite foldl_snoc. simpl in *.
  destruct (process_file_alloc
    (foldl (process_file E)
       {| bs_heap := σ; bs_stats := s; bs_all_chunks := [] |} files) f)
    as (new' & Hh' & Ha' & Hn').
  exists (new ++ new'). rewrite Hh', Ha', Hh, Ha.
  rewrite app_assoc, !length_app, seq_app. split; [done|]. split; [done|].
  by apply Forall_app.
Qed.

(** *** One batch of files *)

Lemma valid_chunk_lookup (σ : heap) l :
  valid_chunk σ l = true ↔
  ∃ c v vs, σ !! l = Some c ∧ embedding c = Some (v :: vs).
Proof.
  unfold valid_chunk, has_embedding. split.
  - destruct (σ !! l) as [c|]; [|done]. simpl.
    destruct (embedding c) as [[|v vs]|] eqn:He; try done. by exists c, v, vs.
  - intros (c & v & vs & -> & Hc). simpl. by rewrite Hc.
Qed.

Lemma valid_chunk_lt (σ : heap) l : valid_chunk σ l = true → (l < length σ)%nat.
Proof.
  intros (c & _ & _ & Hc & _)%valid_chunk_lookup. by eapply lookup_lt_Some.
Qed.

Lemma process_batch_stats files st i :
  rs_stats (process_batch E files st i)
  = foldl (stats_after_file E) (rs_stats st) (py_slice files i BATCH_SIZE).
Proof.
  unfold process_batch.
  destruct (bs_all_chunks _); simpl; by rewrite process_files_stats.
Qed.

Lemma process_batch_all_valid files st i :
  all_valid st → all_valid (process_batch E files st i).
Proof.
  unfold all_valid, process_batch. intros Hst.
  destruct (process_files_alloc (rs_heap st) (rs_stats st)
              (py_slice files i BATCH_SIZE)) as (new & Hh & Ha & _).
  simpl in Hh, Ha.
  set (bs := foldl (process_file E) _ _) in *.
  assert (Hold : ∀ l, valid_chunk (rs_heap st) l = true →
                      bs_heap bs !! l = rs_heap st !! l
                      ∧ l ∉ bs_all_chunks bs).
  { intros l Hl%valid_chunk_lt. rewrite Hh, Ha. split.
    - by apply lookup_app_l.
    - rewrite elem_of_seq. lia. }
  destruct (bs_all_chunks bs) as [|l0 ls] eqn:Hall; simpl.
  - eapply Forall_impl; [exact Hst|]. intros l Hl. simpl in Hl.
    unfold valid_chunk in *. by rewrite (proj1 (Hold l Hl)).
  - rewrite <-Hall in *. apply Forall_app. split.
    + eapply Forall_impl; [exact Hst|]. intros l Hl. simpl in Hl.
      destruct (Hold l Hl) as [Heq Hnin].
      unfold valid_chunk in *.
      by rewrite embed_content_frame, Heq.
    + apply Forall_forall. intros l [Hl _]%list_elem_of_filter.
      by apply Is_true_true.
Qed.

(** *** The loop over the batches *)

Lemma run_fold_all_valid files st idxs :
  all_valid st → all_valid (foldl (process_batch E files) st idxs).
Proof.
  revert st. induction idxs as [|i idxs IH]; intros st Hst; simpl; [done|].
  by apply IH, process_batch_all_valid.
Qed.

Lemma run_batches_all_valid files : all_valid (run_batches E files).
Proof. apply run_fold_all_valid. by apply Forall_nil. Qed.

Lemma run_fold_stats files st idxs :
  rs_stats (foldl (process_batch E files) st idxs)
  = foldl (stats_after_file E) (rs_stats st)
      (concat ((λ i, py_slice files i BATCH_SIZE) <$> idxs)).
Proof.
  revert st. induction idxs as [|i idxs IH]; intros st; simpl; [done|].
  by rewrite IH, foldl_app, process_batch_stats.
Qed.

(** The counters of a run are those of its files taken one by one: they do
    not depend on the batches, on the heap or on the embedding service. *)
Lemma run_batches_stats files :
  rs_stats (run_batches E files)
  = foldl (stats_after_file E) initial_stats files.
Proof.
  unfold run_batches. rewrite run_fold_stats. simpl.
  rewrite (py_range_batches BATCH_SIZE), <-list_fmap_compose.
  f_equal. exact (concat_batches BATCH_SIZE BATCH_SIZE_pos files).
Qed.

Lemma deref_all_valid (σ : heap) ls :
  Forall (λ l, valid_chunk σ l = true) ls →
  length (deref σ ls) = length ls ∧
  Forall (λ c, ∃ v vs, embedding c = Some (v :: vs)) (deref σ ls).
Proof.
  induction 1 as [|l ls Hl _ [IHlen IH]]; [by split|].
  apply valid_chunk_lookup in Hl as (c & v & vs & Hc & He).
  unfold deref in *. simpl. rewrite Hc. simpl. split; [by f_equal|].
  apply Forall_cons. split; [by exists v, vs|done].
Qed.

(** *** The whole run *)

Lemma run_batches_nil : run_batches E [] =
  {| rs_heap := []; rs_calls := 0%nat; rs_stats := initial_stats;
     rs_all_processed_chunks := [] |}.
Proof. reflexivity. Qed.

(** Without files the function returns before it sets up the counters. *)
Lemma index_no_files directory file_types dry_run out :
  find_files E directory file_types = [] →
  index_markdown_files E directory file_types dry_run out
  = ({| status := "error";
        message := "No files with specified extensions ("
                   +:+ str_join ", " file_types +:+ ") found in " +:+ directory;
        r_stats := None |}, out).
Proof. intros H. unfold index_markdown_files. by rewrite H. Qed.

(** With files the result carries the counters, whatever happens next. *)
Lemma index_with_files directory file_types dry_run out :
  find_files E directory file_types ≠ [] →
  let st := run_batches E (find_files E directory file_types) in
  let res := index_markdown_files E directory file_types dry_run out in
  r_stats res.1 = Some (final_stats E st) ∧
  (status res.1 = "success" ∧
     (res.2 = out
      ∨ dry_run = false
        ∧ res.2 = Some (JsonDoc (dump_chunks
                    (deref (rs_heap st) (rs_all_processed_chunks st)))))
   ∨ status res.1 = "error" ∧ dry_run = false ∧
     rs_all_processed_chunks st ≠ [] ∧
     ∃ e, try_write E out (dump_chunks
            (deref (rs_heap st) (rs_all_processed_chunks st)))
          = WriteRaises e res.2).
Proof.
  intros Hfiles st res. unfold res, index_markdown_files. fold st.
  destruct (find_files E directory file_types) as [|f fs] eqn:Hf; [done|].
  destruct dry_run; simpl.
  { split; [done|]. left. split; [done|]. by left. }
  case_bool_decide as Hne; simpl.
  - destruct (try_write E out _) as [|e left_behind] eqn:Hw; simpl.
    + split; [done|]. left. split; [done|]. by right.
    + split; [done|]. right. repeat split; try done. by exists e.
  - split; [done|]. left. split; [done|]. by left.
Qed.

End RunProofs.

(** C1. At the end of every run, every reference in the result list
    [all_processed_chunks] points to a dict whose embedding is a non-empty
    list, so the list that [json.dump] receives has one dict per reference,
    each with a non-empty embedding, and the output file either is left as
    it was, or holds that list, or is what a failed write left behind.
    When the result has counters, [chunks_indexed] is the length of that
    list, and [files_processed] is the same with any other behaviour of the
    embedding service. *)
Theorem indexed_chunks_have_embeddings (E : IndexerEnv)
    directory file_types dry_run out :
  let st := run_batches E (find_files E directory file_types) in
  let persisted := deref (rs_heap st) (rs_all_processed_chunks st) in
  let res := index_markdown_files E directory file_types dry_run out in
  Forall (λ l, ∃ c v vs, rs_heap st !! l = Some c ∧ embedding c = Some (v :: vs))
         (rs_all_processed_chunks st) ∧
  length persisted = length (rs_all_processed_chunks st) ∧
  Forall (λ c, ∃ v vs, embedding c = Some (v :: vs)) persisted ∧
  (res.2 = out ∨ res.2 = Some (JsonDoc (dump_chunks persisted))
   ∨ ∃ e, try_write E out (dump_chunks persisted) = WriteRaises e res.2) ∧
  (r_stats res.1 = None ↔ find_files E directory file_types = []) ∧
  (∀ s, r_stats res.1 = Some s →
        chunks_indexed s = Z.of_nat (length persisted)) ∧
  (∀ api s s',
     r_stats res.1 = Some s →
     r_stats (index_markdown_files (with_embed_api E api)
                directory file_types dry_run out).1 = Some s' →
     files_processed s' = files_processed s).
Proof.
  intros st persisted res.
  pose proof (run_batches_all_valid E (find_files E directory file_types)) as Hv.
  fold st in Hv. unfold all_valid in Hv.
  destruct (deref_all_valid _ _ Hv) as [Hlen Hall]. fold persisted in Hlen, Hall.
  split. { eapply Forall_impl; [exact Hv|]. intros l Hl. by apply valid_chunk_lookup. }
  split; [done|]. split; [done|].
  destruct (decide (find_files E directory file_types = [])) as [Hnil|Hfiles].
  - unfold res. rewrite (index_no_files E _ _ _ _ Hnil). simpl.
    split; [by left|]. split; [done|]. split; [done|]. done.
  - destruct (index_with_files E directory file_types dry_run out Hfiles)
      as [Hstats Hcases]. fold st res in Hstats, Hcases. fold persisted in Hcases.
    split.
    { destruct Hcases as [[_ [?|[_ ?]]]|(_ & _ & _ & e & ?)]; eauto. }
    split. { rewrite Hstats. split; [done|]. intros ?. done. }
    split.
    { intros s Hs. rewrite Hstats in Hs. injection Hs as <-. simpl.
      by rewrite Hlen. }
    intros api s s' Hs Hs'. rewrite Hstats in Hs. injection Hs as <-.
    change (find_files E directory file_types)
      with (find_files (with_embed_api E api) directory file_types) in Hfiles.
    destruct (index_with_files (with_embed_api E api)
                directory file_types dry_run out Hfiles) as [Hstats' _].
    rewrite Hstats' in Hs'. injection Hs' as <-. simpl.
    unfold st. rewrite !run_batches_stats. reflexivity.
Qed.

(** C4 (as amended). A dry run leaves the output file as it was, whatever
    the run produced; and when discovery found at least one file, the
    result is a success that carries the counters of the run. *)
Theorem dry_run_never_writes (E : IndexerEnv) directory file_types out :
  let res := index_markdown_files E directory file_types true out in
  res.2 = out ∧
  (find_files E directory file_types ≠ [] →
   status res.1 = "success" ∧
   r_stats res.1
   = Some (final_stats E (run_batches E (find_files E directory file_types)))).
Proof.
  intros res. unfold res, index_markdown_files.
  destruct (find_files E directory file_types) as [|f fs] eqn:Hf; simpl.
  - split; [done|]. intros []. done.
  - by split.
Qed.

(** C7. When no file matches, [index_markdown_files] returns the error
    result, which has no ["stats"] key, leaves the output file alone, and
    [main], run on the parsed arguments, exits with code 1. *)
Theorem no_files_is_an_error (E : IndexerEnv)
    GEMINI_API_KEY directory file_types dry_run out :
  find_files E directory file_types = [] →
  let res := index_markdown_files E directory file_types dry_run out in
  status res.1 = "error" ∧
  r_stats res.1 = None ∧
  res.2 = out ∧
  main E (Namespace directory file_types dry_run) GEMINI_API_KEY out
  = (1, out).
Proof.
  intros Hnil res. unfold res, main.
  rewrite (index_no_files E _ _ _ _ Hnil). simpl.
  repeat split. by destruct GEMINI_API_KEY as [[|? ?]|].
Qed.

(** C8. In a run that is not a dry run and has at least one valid chunk,
    when writing the output file raises, the result has status ["error"]
    and carries the counters of the run, with [chunks_indexed] and
    [processing_time] set; [main] then exits with code 1. *)
Theorem write_failure_keeps_stats (E : IndexerEnv)
    directory file_types out e left_behind :
  let st := run_batches E (find_files E directory file_types) in
  rs_all_processed_chunks st ≠ [] →
  try_write E out
    (dump_chunks (deref (rs_heap st) (rs_all_processed_chunks st)))
  = WriteRaises e left_behind →
  index_markdown_files E directory file_types false out
  = ({| status := "error";
        message := "Failed to write embeddings to " +:+ OUTPUT_JSON_FILE
                   +:+ ": " +:+ e;
        r_stats := Some (final_stats E st) |}, left_behind)
  ∧ chunks_indexed (final_stats E st)
    = Z.of_nat (length (rs_all_processed_chunks st))
  ∧ files_processed (final_stats E st) = files_processed (rs_stats st)
  ∧ files_failed (final_stats E st) = files_failed (rs_stats st)
  ∧ chunks_created (final_stats E st) = chunks_created (rs_stats st)
  ∧ processing_time (final_stats E st) = PFloat (elapsed E).
Proof.
  intros st Hne Hw. split; [|done].
  unfold index_markdown_files. fold st.
  destruct (find_files E directory file_types) as [|f fs] eqn:Hf.
  { exfalso. apply Hne. unfold st. by rewrite run_batches_nil. }
  simpl. rewrite bool_decide_eq_true_2 by done. by rewrite Hw.
Qed.

(** *** Reading a file *)

Lemma foldl_pointwise {A B} (f g : A → B → A) (a : A) (l : list B) :
  (∀ a b, f a b = g a b) → foldl f a l = foldl g a l.
Proof.
  intros Hfg. revert a. induction l as [|b l IH]; intros a; simpl; [done|].
  by rewrite Hfg, IH.
Qed.

Lemma read_text_file_empty (E : IndexerEnv) file_path :
  read_text_file E file_path = "" ↔
  open_read E file_path = None ∨ open_read E file_path = Some "".
Proof.
  unfold read_text_file. destruct (open_read E file_path) as [text|].
  - split; [intros ->; by right|]. by intros [?|[= ->]].
  - split; [by left|done].
Qed.

(** Two worlds that differ only in how a read fails or returns nothing
    give the same run. *)
Lemma index_markdown_files_read_ext (E : IndexerEnv) read
    directory file_types dry_run out :
  (∀ p, read_text_file (with_open_read E read) p = read_text_file E p) →
  index_markdown_files (with_open_read E read) directory file_types dry_run out
  = index_markdown_files E directory file_types dry_run out.
Proof.
  intros Hread.
  assert (Hfile : ∀ st f, process_file (with_open_read E read) st f
                          = process_file E st f).
  { intros st f. unfold process_file. by rewrite Hread. }
  assert (Hbatch : ∀ files st i, process_batch (with_open_read E read) files st i
                                 = process_batch E files st i).
  { intros files st i. unfold process_batch.
    by rewrite (foldl_pointwise _ _ _ _ Hfile). }
  assert (Hrun : ∀ files, run_batches (with_open_read E read) files
                          = run_batches E files).
  { intros files. unfold run_batches. apply foldl_pointwise. apply Hbatch. }
  unfold index_markdown_files.
  change (find_files (with_open_read E read) directory file_types)
    with (find_files E directory file_types).
  by rewrite Hrun.
Qed.

(** C9. A file whose read gives the empty string, because the read raised
    or because the file is empty, adds one to [files_failed], leaves
    [files_processed] and [chunks_created] as they were and creates no
    chunk. The two causes cannot be told apart in what the run returns: a
    world in which every unreadable file is instead readable and empty
    gives the same result, counters included, and the same output file. *)
Theorem empty_read_is_a_failed_file (E : IndexerEnv) st file_path :
  read_text_file E file_path = "" →
  (open_read E file_path = None ∨ open_read E file_path = Some "") ∧
  (let st' := process_file E st file_path in
   files_failed (bs_stats st') = files_failed (bs_stats st) + 1 ∧
   files_processed (bs_stats st') = files_processed (bs_stats st) ∧
   chunks_created (bs_stats st') = chunks_created (bs_stats st) ∧
   bs_all_chunks st' = bs_all_chunks st ∧
   bs_heap st' = bs_heap st) ∧
  (∀ directory file_types dry_run out,
     index_markdown_files
       (with_open_read E (λ p, Some (read_text_file E p)))
       directory file_types dry_run out
     = index_markdown_files E directory file_types dry_run out).
Proof.
  intros Hempty. split; [by apply read_text_file_empty|]. split.
  - unfold process_file. by rewrite Hempty.
  - intros. by apply index_markdown_files_read_ext.
Qed.

(** ** The viewer *)

(** [np.array] (line 50) comes before the guard and is outside the [try]:
    when it raises, its exception leaves [run_tsne], nothing is shown and
    the reduction is not run. *)
Lemma run_tsne_np_array_raises (V : ViewerEnv) df perplexity n_iter
    learning_rate random_state x :
  df_empty df = false →
  "embedding" ∈ columns df →
  np_array_raises V (embedding_column df) = Some x →
  run_tsne V (Some df) perplexity n_iter learning_rate random_state
  = (Raise x, []).
Proof.
  intros Hne Hcol Harr. unfold run_tsne. rewrite Hne.
  rewrite decide_True by done. fold (embedding_column df). by rewrite Harr.
Qed.

(** C6, amended. On a non-empty table with an embedding column and [n]
    rows, when [np.array] builds the matrix from the column: if the
    requested perplexity is at least [n], [run_tsne] first shows a warning
    and then runs the reduction with perplexity [max(1, n - 1)]; if it is
    below [n], no warning is shown and the reduction runs with the
    requested value; in both cases the reduction runs once, on the whole
    column, and nothing but an error message of the reduction follows.
    When [np.array] raises instead (embeddings of different lengths),
    [run_tsne] raises before the guard: nothing is shown and the reduction
    is not run. *)
Theorem perplexity_is_clamped (V : ViewerEnv) df perplexity n_iter
    learning_rate random_state :
  df_empty df = false →
  "embedding" ∈ columns df →
  let n := Z.of_nat (length (rows df)) in
  let out := run_tsne V (Some df) perplexity n_iter learning_rate random_state in
  match np_array_raises V (embedding_column df) with
  | None =>
      (n ≤ perplexity →
       ∃ msg rest,
         out.2 = StWarning msg
                 :: TsneFitTransform
                      (tsne_with (Z.max 1 (n - 1)) n_iter learning_rate
                         random_state)
                      (embedding_column df)
                 :: rest
         ∧ Forall is_st_error rest) ∧
      (perplexity < n →
       ∃ rest,
         out.2 = TsneFitTransform
                   (tsne_with perplexity n_iter learning_rate random_state)
                   (embedding_column df)
                 :: rest
         ∧ Forall is_st_error rest)
  | Some x => out = (Raise x, [])
  end.
Proof.
  intros Hne Hcol n out.
  destruct (np_array_raises V (embedding_column df)) as [x|] eqn:Harr.
  { by apply run_tsne_np_array_raises. }
  unfold out, run_tsne. rewrite Hne.
  rewrite decide_True by done.
  fold (embedding_column df). rewrite Harr.
  assert (Hn : Z.of_nat (length (embedding_column df)) = n).
  { unfold embedding_column. by rewrite length_fmap. }
  rewrite Hn. split; intros Hp.
  - rewrite decide_True by done. fold (tsne_with (Z.max 1 (n - 1)) n_iter learning_rate random_state).
    destruct (fit_transform V _ _) as [proj|[| |ve|e]]; simpl;
      eexists _, _; (split; [reflexivity|]); repeat constructor.
  - rewrite decide_False by lia. fold (tsne_with perplexity n_iter learning_rate random_state).
    destruct (fit_transform V _ _) as [proj|[| |ve|e]]; simpl;
      eexists; (split; [reflexivity|]); repeat constructor.
Qed.

(** *** Loading a list of records *)

Section ViewerProofs.

Variable V : ViewerEnv.

Lemma as_records_dicts (records : list (list (string * pyval))) : as_records (PDict <$> records) = Some records.
Proof.
  induction records as [|r rs IH]; [done|].
  rewrite fmap_cons. cbn [as_records]. by rewrite IH.
Qed.

Lemma pd_DataFrame_records (r : list (string * pyval)) records :
  pd_DataFrame V (PList (PDict <$> r :: records))
  = Ok {| columns := record_columns (r :: records);
          rows := frame_row <$> r :: records |}.
Proof. rewrite fmap_cons. cbn [pd_DataFrame]. by rewrite as_records_dicts. Qed.

Lemma cell_at_frame_row (items : list (string * pyval)) key :
  cell_at (frame_row items) key = from_option Cell Missing (record_get items key).
Proof.
  unfold cell_at, frame_row, record_get. rewrite lookup_fmap.
  by destruct (_ !! key).
Qed.

Lemma cell_at_insert (r : gmap string cell) k x : cell_at (<[k := x]> r) k = x.
Proof. unfold cell_at. by rewrite lookup_insert_eq. Qed.

Lemma cell_at_insert_ne (r : gmap string cell) k k' x :
  k ≠ k' → cell_at (<[k := x]> r) k' = cell_at r k'.
Proof. intros. unfold cell_at. by rewrite lookup_insert_ne. Qed.

Lemma apply_embedding_cons r rs :
  apply_embedding V (r :: rs)
  = res_bind (coerce_embedding V (cell_at r "embedding")) (λ x,
    res_bind (apply_embedding V rs) (λ ys,
    Ok (<["embedding" := x]> r :: ys))).
Proof.
  unfold apply_embedding. simpl.
  by destruct (coerce_embedding V (cell_at r "embedding")).
Qed.

Lemma coerce_frame_row (items : list (string * pyval)) :
  coerce_embedding V (cell_at (frame_row items) "embedding")
  = match record_get items "embedding" with
    | Some (PList xs) =>
        res_bind (res_map (to_float V) xs) (λ t, Ok (FloatTuple t))
    | _ => Ok (Cell PNone)
    end.
Proof.
  rewrite cell_at_frame_row.
  by destruct (record_get items "embedding") as [[]|].
Qed.

Lemma dropna_embedding_cons r x rs :
  dropna_embedding V (<["embedding" := x]> r :: rs)
  = if isna V x then dropna_embedding V rs
    else <["embedding" := x]> r :: dropna_embedding V rs.
Proof.
  unfold dropna_embedding. destruct (isna V x) eqn:Hx.
  - apply filter_cons_False. rewrite cell_at_insert, Hx. simpl. tauto.
  - apply filter_cons_True. rewrite cell_at_insert, Hx. simpl. tauto.
Qed.

(** What [apply] and [dropna] make of the rows of a list of records. *)
Lemma apply_dropna_records (records : list (list (string * pyval))) rs :
  apply_embedding V (frame_row <$> records) = Ok rs →
  dropna_embedding V rs = omap (loaded_row V) records ∧
  Forall (convertible V) records.
Proof.
  revert rs. induction records as [|r records IH]; intros rs Hrs.
  { injection Hrs as <-. by split. }
  rewrite fmap_cons, apply_embedding_cons, coerce_frame_row in Hrs.
  cbn [omap list_omap]. unfold loaded_row at 1.
  rewrite Forall_cons. unfold convertible at 1.
  destruct (record_get r "embedding") as [v|] eqn:Hget.
  - destruct v as [| | | | |xs|];
      try (destruct (apply_embedding V (frame_row <$> records)) as [rs'|]; [|done];
           simpl in Hrs; injection Hrs as <-;
           destruct (IH rs' eq_refl) as [IHrows IHconv];
           rewrite dropna_embedding_cons; simpl;
           split; [done|]; split; [|done]; by intros ? [=]).
    destruct (res_map (to_float V) xs) as [t|] eqn:Ht; [|done].
    destruct (apply_embedding V (frame_row <$> records)) as [rs'|]; [|done].
    simpl in Hrs. injection Hrs as <-.
    destruct (IH rs' eq_refl) as [IHrows IHconv].
    rewrite dropna_embedding_cons. simpl.
    split; [by rewrite IHrows|]. split; [|done].
    intros ? [= <-]. by exists t.
  - destruct (apply_embedding V (frame_row <$> records)) as [rs'|]; [|done].
    simpl in Hrs. injection Hrs as <-.
    destruct (IH rs' eq_refl) as [IHrows IHconv].
    rewrite dropna_embedding_cons. simpl.
    split; [done|]. split; [|done]. by intros ? [=].
Qed.

(** When every list converts, [apply] returns. *)
Lemma apply_embedding_convertible (records : list (list (string * pyval))) :
  Forall (convertible V) records →
  ∃ rs, apply_embedding V (frame_row <$> records) = Ok rs.
Proof.
  induction 1 as [|r records Hr _ [rs IH]]; [by exists []|].
  rewrite fmap_cons, apply_embedding_cons, coerce_frame_row, IH.
  destruct (record_get r "embedding") as [[| | | | |xs|]|] eqn:Hget;
    simpl; eauto.
  destruct (Hr xs Hget) as [t ->]. simpl. eauto.
Qed.

Lemma record_get_column (r : list (string * pyval)) records k v :
  r ∈ records → record_get r k = Some v → k ∈ record_columns records.
Proof.
  unfold record_get, record_columns. intros Hr Hk%elem_of_list_to_map_2.
  apply elem_of_reverse, elem_of_remove_dups, elem_of_reverse.
  apply list_elem_of_In, in_concat.
  exists (r.*1). split; apply list_elem_of_In.
  - by apply (list_elem_of_fmap_2 (λ items : list (string * pyval), items.*1)).
  - by apply (list_elem_of_fmap_2' fst _ (k, v)).
Qed.

(** What [load_embeddings] does on a document that is a list of dicts. *)
Lemma load_embeddings_records fs filepath
    (records : list (list (string * pyval))) :
  fs !! filepath = Some (JsonDoc (PList (PDict <$> records))) →
  load_embeddings_try V fs filepath
  = if decide ("embedding" ∈ record_columns records) then
      res_bind (apply_embedding V (frame_row <$> records)) (λ rs,
      let df := {| columns := record_columns records;
                   rows := dropna_embedding V rs |} in
      if df_empty df then
        Ok (None, [StError ("No valid embeddings found in " +:+ filepath +:+ ".")])
      else if decide ("id" ∉ columns df ∨ "file_id" ∉ columns df
                      ∨ "content" ∉ columns df) then
        Ok (Some df,
            [StWarning "Embeddings file might be missing expected columns: 'id', 'file_id', 'content'. Hover data might be limited."])
      else Ok (Some df, []))
    else Raise (OtherException "'embedding'").
Proof.
  intros Hfs. unfold load_embeddings_try, read_json. rewrite Hfs.
  destruct records as [|r records].
  - reflexivity.
  - cbn [res_bind]. by rewrite pd_DataFrame_records.
Qed.

(** C10. On a document that is a list of dicts, whenever [load_embeddings]
    returns a table, its rows are, in order, the rows of the records whose
    embedding is a list, each with the list turned into a tuple of floats;
    the records whose embedding is missing or is not a list are the ones
    dropped. A table is returned as soon as every list converts and one
    record has a list. A record whose embedding is the empty list is kept,
    with the empty tuple. *)
Theorem load_drops_only_non_list_embeddings fs filepath
    (records : list (list (string * pyval))) :
  fs !! filepath = Some (JsonDoc (PList (PDict <$> records))) →
  (∀ df shown, load_embeddings V fs filepath = (Some df, shown) →
     columns df = record_columns records ∧
     rows df = omap (loaded_row V) records ∧
     Forall (convertible V) records) ∧
  (Forall (convertible V) records →
   (∃ r xs, r ∈ records ∧ record_get r "embedding" = Some (PList xs)) →
   ∃ df shown, load_embeddings V fs filepath = (Some df, shown)) ∧
  (∀ r, convertible V r →
     (loaded_row V r = None ↔
      ¬ ∃ xs, record_get r "embedding" = Some (PList xs))) ∧
  (∀ r, record_get r "embedding" = Some (PList []) →
     loaded_row V r
     = Some (<["embedding" := FloatTuple []]> (frame_row r))).
Proof.
  intros Hfs. pose proof (load_embeddings_records fs filepath records Hfs) as Hload.
  split; [|split; [|split]].
  - intros df shown Hdf. unfold load_embeddings in Hdf. rewrite Hload in Hdf.
    case_decide as Hcol; [|done].
    destruct (apply_embedding V (frame_row <$> records)) as [rs|x] eqn:Hrs.
    2:{ simpl in Hdf. by destruct x. }
    destruct (apply_dropna_records records rs Hrs) as [Hrows Hconv].
    simpl in Hdf. destruct (df_empty _); [done|].
    case_decide; injection Hdf as <- _; simpl; by rewrite Hrows.
  - intros Hconv (r & xs & Hr & Hget).
    destruct (apply_embedding_convertible records Hconv) as [rs Hrs].
    destruct (apply_dropna_records records rs Hrs) as [Hrows _].
    unfold load_embeddings. rewrite Hload.
    rewrite decide_True by (by eapply record_get_column).
    rewrite Hrs. simpl.
    assert (Hne : df_empty {| columns := record_columns records;
                              rows := dropna_embedding V rs |} = false).
    { unfold df_empty. simpl. apply orb_false_intro; apply bool_decide_eq_false.
      - intros Hnil. pose proof (record_get_column r records _ _ Hr Hget) as Hin.
        rewrite Hnil in Hin. by apply elem_of_nil in Hin.
      - rewrite Hrows. intros Hnil.
        rewrite Forall_forall in Hconv.
        destruct (Hconv r Hr xs Hget) as [t Ht].
        assert (Hin : <["embedding" := FloatTuple t]> (frame_row r)
                      ∈ omap (loaded_row V) records).
        { apply list_elem_of_omap. exists r. split; [done|].
          unfold loaded_row. by rewrite Hget, Ht. }
        rewrite Hnil in Hin. by apply elem_of_nil in Hin. }
    rewrite Hne. clear Hload.
    destruct (decide ("id" ∉ _ ∨ _)); simpl; eexists _, _; reflexivity.
  - intros r Hconv. unfold loaded_row. split.
    + intros Hnone (xs & Hget). rewrite Hget in Hnone.
      destruct (Hconv xs Hget) as [t Ht]. by rewrite Ht in Hnone.
    + intros Hnot.
      destruct (record_get r "embedding") as [[| | | | |xs|]|]; try done.
      destruct Hnot. by exists xs.
  - intros r Hget. unfold loaded_row. by rewrite Hget.
Qed.

(** *** From the indexer's file to the viewer's table *)

Lemma res_map_floats (e : list float) :
  res_map (to_float V) (PFloat <$> e) = Ok e.
Proof.
  induction e as [|x e IH]; [done|].
  rewrite fmap_cons. cbn [res_map]. by rewrite IH.
Qed.

Lemma record_get_chunk (c : chunk) e :
  embedding c = Some e →
  record_get (chunk_items c) "id" = Some (PStr (id c)) ∧
  record_get (chunk_items c) "file_id" = Some (PStr (file_id c)) ∧
  record_get (chunk_items c) "content" = Some (PStr (content c)) ∧
  record_get (chunk_items c) "start_pos" = Some (PInt (start_pos c)) ∧
  record_get (chunk_items c) "end_pos" = Some (PInt (end_pos c)) ∧
  record_get (chunk_items c) "embedding" = Some (PList (PFloat <$> e)).
Proof.
  intros He. unfold record_get, chunk_items. rewrite He. simpl.
  repeat split; by simplify_map_eq.
Qed.

Lemma loaded_row_chunk (c : chunk) e :
  embedding c = Some e → loaded_row V (chunk_items c) = Some (chunk_row c).
Proof.
  intros He. destruct (record_get_chunk c e He) as (_ & _ & _ & _ & _ & Hemb).
  unfold loaded_row, chunk_row. by rewrite Hemb, res_map_floats, He.
Qed.

Lemma loaded_rows_chunks (cs : list chunk) :
  Forall (λ c, ∃ v vs, embedding c = Some (v :: vs)) cs →
  omap (loaded_row V) (chunk_items <$> cs) = chunk_row <$> cs.
Proof.
  induction 1 as [|c cs (v & vs & He) _ IH]; [done|].
  rewrite !fmap_cons. cbn [omap list_omap].
  by rewrite (loaded_row_chunk c _ He), IH.
Qed.

Lemma dump_chunks_records (cs : list chunk) :
  dump_chunks cs = PList (PDict <$> (chunk_items <$> cs)).
Proof. unfold dump_chunks, chunk_to_py. by rewrite <-list_fmap_compose. Qed.

Lemma convertible_chunks (cs : list chunk) :
  Forall (λ c, ∃ v vs, embedding c = Some (v :: vs)) cs →
  Forall (convertible V) (chunk_items <$> cs).
Proof.
  intros Hcs. apply Forall_fmap. eapply Forall_impl; [exact Hcs|].
  intros c (v & vs & He) xs Hxs. simpl in *.
  destruct (record_get_chunk c _ He) as (_ & _ & _ & _ & _ & Hemb).
  rewrite Hemb in Hxs. injection Hxs as <-.
  exists (v :: vs). exact (res_map_floats (v :: vs)).
Qed.

(** Loading what [json.dump] wrote for a list of valid chunks. *)
Lemma load_dumped_chunks fs (cs : list chunk) :
  cs ≠ [] →
  Forall (λ c, ∃ v vs, embedding c = Some (v :: vs)) cs →
  fs !! OUTPUT_JSON_FILE = Some (JsonDoc (dump_chunks cs)) →
  load_embeddings V fs EMBEDDINGS_FILE
  = (Some {| columns := record_columns (chunk_items <$> cs);
             rows := chunk_row <$> cs |}, []).
Proof.
  intros Hne Hcs Hfs. rewrite dump_chunks_records in Hfs.
  change OUTPUT_JSON_FILE with EMBEDDINGS_FILE in Hfs.
  set (records := chunk_items <$> cs) in *.
  pose proof (convertible_chunks cs Hcs) as Hconv. fold records in Hconv.
  destruct (apply_embedding_convertible records Hconv) as [rs Hrs].
  destruct (apply_dropna_records records rs Hrs) as [Hrows _].
  unfold records in Hrows. rewrite (loaded_rows_chunks cs Hcs) in Hrows.
  destruct cs as [|c0 cs']; [done|]. set (cs := c0 :: cs') in *.
  assert (Hc0 : ∃ v vs, embedding c0 = Some (v :: vs))
    by (by apply Forall_cons in Hcs as [? _]).
  destruct Hc0 as (v0 & vs0 & He0).
  destruct (record_get_chunk c0 _ He0) as (Hid & Hfile & Hcontent & _ & _ & Hemb).
  assert (Hin : chunk_items c0 ∈ records) by (unfold records, cs; simpl; left).
  unfold load_embeddings.
  rewrite (load_embeddings_records fs EMBEDDINGS_FILE records Hfs).
  rewrite decide_True by (by eapply record_get_column).
  rewrite Hrs. simpl. rewrite Hrows.
  unfold df_empty. simpl.
  rewrite bool_decide_eq_false_2.
  2:{ intros Hnil. pose proof (record_get_column _ _ _ _ Hin Hemb) as Hc.
      rewrite Hnil in Hc. by apply elem_of_nil in Hc. }
  simpl. rewrite decide_False; [done|].
  intros [H|[H|H]]; apply H; by eapply record_get_column.
Qed.

(** C5. When the output file holds what [json.dump] writes for a non-empty
    list of chunks that all have a non-empty embedding, [load_embeddings]
    on that file returns a table and shows neither an error nor a warning.
    The table has one row per chunk, in order; the row of a chunk has the
    chunk's [id], [file_id], [content], [start_pos] and [end_pos], and its
    embedding cell is the tuple of the floats of the chunk's embedding. *)
Theorem json_round_trip fs (cs : list chunk) :
  cs ≠ [] →
  Forall (λ c, ∃ v vs, embedding c = Some (v :: vs)) cs →
  fs !! OUTPUT_JSON_FILE = Some (JsonDoc (dump_chunks cs)) →
  ∃ df,
    load_embeddings V fs EMBEDDINGS_FILE = (Some df, []) ∧
    length (rows df) = length cs ∧
    (∀ i c, cs !! i = Some c →
       ∃ row e,
         rows df !! i = Some row ∧
         cell_at row "id" = Cell (PStr (id c)) ∧
         cell_at row "file_id" = Cell (PStr (file_id c)) ∧
         cell_at row "content" = Cell (PStr (content c)) ∧
         cell_at row "start_pos" = Cell (PInt (start_pos c)) ∧
         cell_at row "end_pos" = Cell (PInt (end_pos c)) ∧
         embedding c = Some e ∧
         cell_at row "embedding" = FloatTuple e).
Proof.
  intros Hne Hcs Hfs. eexists. split; [by apply load_dumped_chunks|].
  cbn [rows]. split; [by rewrite length_fmap|].
  intros i c Hi. rewrite list_lookup_fmap, Hi. cbn [fmap option_fmap option_map].
  assert (Hc : ∃ v vs, embedding c = Some (v :: vs)).
  { rewrite Forall_forall in Hcs. apply Hcs. by eapply list_elem_of_lookup_2. }
  destruct Hc as (v & vs & He).
  destruct (record_get_chunk c _ He) as (H1 & H2 & H3 & H4 & H5 & _).
  exists (chunk_row c), (v :: vs). split; [done|]. unfold chunk_row.
  rewrite !cell_at_insert_ne by done. rewrite !cell_at_frame_row.
  rewrite H1, H2, H3, H4, H5, cell_at_insert, He. done.
Qed.

End ViewerProofs.

(** ** More on the indexer *)

Lemma find_files_fold (E : IndexerEnv) directory file_types acc :
  foldl (λ all_found_files file_type,
           let file_type :=
             if startswith_char "." file_type then file_type
             else "." +:+ file_type in
           let found := glob E (directory +:+ "/**/*" +:+ file_type) in
           all_found_files ++ found)
        acc file_types
  = acc ++ concat ((λ ft, glob E (glob_pattern directory ft)) <$> file_types).
Proof.
  revert acc. induction file_types as [|ft fts IH]; intros acc; simpl.
  - by rewrite app_nil_r.
  - rewrite IH. by rewrite app_assoc.
Qed.

(** X1. Discovery returns, one after the other in the order of the
    requested extensions, what [glob] finds for each of them; nothing is
    removed, so a file matched by two requested extensions is listed twice.
    An extension written without its dot finds the same files as the one
    written with it. *)
Theorem find_files_concatenates_globs (E : IndexerEnv) directory file_types :
  find_files E directory file_types
  = concat ((λ ft, glob E (glob_pattern directory ft)) <$> file_types) ∧
  (∀ more, find_files E directory (file_types ++ more)
           = find_files E directory file_types ++ find_files E directory more) ∧
  (∀ ft, startswith_char "." ft = false →
         find_files E directory [ft] = find_files E directory ["." +:+ ft]).
Proof.
  assert (Hconcat : ∀ fts, find_files E directory fts
            = concat ((λ ft, glob E (glob_pattern directory ft)) <$> fts)).
  { intros fts. unfold find_files. by rewrite find_files_fold. }
  split; [apply Hconcat|]. split.
  - intros more. by rewrite !Hconcat, fmap_app, concat_app.
  - intros ft Hft. rewrite !Hconcat. simpl. unfold glob_pattern.
    rewrite Hft. done.
Qed.

Lemma filter_ext_elem {A} (P Q : A → Prop)
    `{!∀ x, Decision (P x)} `{!∀ x, Decision (Q x)} (l : list A) :
  (∀ x, x ∈ l → (P x ↔ Q x)) → filter P l = filter Q l.
Proof.
  induction l as [|x l IH]; intros HPQ; [done|].
  rewrite !filter_cons.
  rewrite IH by (intros y Hy; apply HPQ; by right).
  destruct (decide (P x)) as [HP|HP], (decide (Q x)) as [HQ|HQ]; try done.
  - destruct HQ. by apply (HPQ x); [left|].
  - destruct HP. by apply (HPQ x); [left|].
Qed.

Lemma stats_after_files_count (E : IndexerEnv) s files :
  let s' := foldl (stats_after_file E) s files in
  files_processed s' + files_failed s'
  = files_processed s + files_failed s + Z.of_nat (length files).
Proof.
  revert s. induction files as [|f files IH]; intros s; simpl; [lia|].
  rewrite IH. unfold stats_after_file.
  case_decide; [simpl; lia|].
  destruct (text_splitter E (read_text_file E f)), (relpath E f); simpl; lia.
Qed.

Lemma process_file_created (E : IndexerEnv) st file_path :
  chunks_created (bs_stats (process_file E st file_path))
  - Z.of_nat (length (bs_heap (process_file E st file_path)))
  = chunks_created (bs_stats st) - Z.of_nat (length (bs_heap st)).
Proof.
  unfold process_file. case_decide; [done|].
  destruct (split_text E _ _ _) as [[chunks σ']|] eqn:Hs; [|done].
  apply split_text_inv in Hs as (pieces & rel & _ & _ & -> & ->). simpl.
  rewrite length_app, length_imap, length_seq. lia.
Qed.

Lemma process_files_created (E : IndexerEnv) st files :
  chunks_created (bs_stats (foldl (process_file E) st files))
  - Z.of_nat (length (bs_heap (foldl (process_file E) st files)))
  = chunks_created (bs_stats st) - Z.of_nat (length (bs_heap st)).
Proof.
  revert st. induction files as [|f files IH]; intros st; simpl; [done|].
  by rewrite IH, process_file_created.
Qed.

Lemma process_batch_invariant (E : IndexerEnv) files st i :
  run_invariant st → run_invariant (process_batch E files st i).
Proof.
  intros [Hcreated Hlist]. unfold run_invariant, process_batch.
  destruct (process_files_alloc E (rs_heap st) (rs_stats st)
              (py_slice files i BATCH_SIZE)) as (new & Hh & Ha & _).
  pose proof (process_files_created E
    {| bs_heap := rs_heap st; bs_stats := rs_stats st; bs_all_chunks := [] |}
    (py_slice files i BATCH_SIZE)) as Hc.
  simpl in Hh, Ha, Hc.
  set (bs := foldl (process_file E) _ _) in *.
  assert (Hold : ∀ (σ' : heap), (∀ l, (l < length (rs_heap st))%nat →
                       σ' !! l = rs_heap st !! l) →
            filter (λ l, valid_chunk σ' l) (seq 0 (length (rs_heap st)))
            = rs_all_processed_chunks st).
  { intros σ' Hσ'. rewrite Hlist. apply filter_ext_elem.
    intros l Hl%elem_of_seq. unfold valid_chunk. rewrite Hσ' by lia. done. }
  destruct (bs_all_chunks bs) as [|l0 ls] eqn:Hall; simpl.
  - assert (new = []) as ->.
    { destruct new; [done|]. rewrite Ha in Hall. simpl in Hall. done. }
    rewrite app_nil_r in Hh. rewrite Hh in Hc |- *. split; [lia|done].
  - rewrite <-Hall in Ha |- *. clear Hall l0 ls.
    pose proof (embed_content_forget E (bs_all_chunks bs) (bs_heap bs)
                  (rs_calls st)) as Hf%forget_length.
    rewrite Hf, embed_content_all. split; [lia|].
    rewrite Hh, length_app, seq_app, filter_app. simpl.
    rewrite <-Hh, <-Ha. f_equal.
    symmetry. apply Hold. intros l Hl.
    rewrite embed_content_frame by (rewrite Ha, elem_of_seq; lia).
    rewrite Hh. by apply lookup_app_l.
Qed.

Lemma run_batches_invariant (E : IndexerEnv) files :
  run_invariant (run_batches E files).
Proof.
  unfold run_batches.
  assert (H : ∀ idxs st, run_invariant st →
            run_invariant (foldl (process_batch E files) st idxs)).
  { induction idxs as [|i idxs IH]; intros st Hst; simpl; [done|].
    by apply IH, process_batch_invariant. }
  apply H. by split.
Qed.

Lemma deref_app_lt (σ τ : heap) ls :
  Forall (λ l, l < length σ)%nat ls → deref (σ ++ τ) ls = deref σ ls.
Proof.
  induction 1 as [|l ls Hl _ IH]; [done|].
  unfold deref in *. cbn [omap list_omap].
  rewrite lookup_app_l by done. by rewrite IH.
Qed.

Lemma deref_filter_seq (σ : heap) :
  deref σ (filter (λ l, valid_chunk σ l) (seq 0 (length σ)))
  = filter (λ c, has_embedding c) σ.
Proof.
  induction σ as [|c σ IH] using rev_ind; [done|].
  rewrite length_app. simpl length. rewrite Nat.add_1_r, seq_S. simpl.
  rewrite !filter_app. unfold deref at 1. rewrite omap_app.
  fold (deref (σ ++ [c])). f_equal.
  - rewrite <-IH.
    rewrite (filter_ext_elem (λ l, valid_chunk (σ ++ [c]) l)
                             (λ l, valid_chunk σ l)).
    + apply deref_app_lt. apply Forall_forall.
      intros l [_ Hl%elem_of_seq]%list_elem_of_filter. lia.
    + intros l Hl%elem_of_seq. unfold valid_chunk.
      by rewrite lookup_app_l by lia.
  - rewrite !filter_cons, !filter_nil. unfold valid_chunk.
    rewrite lookup_app_r, Nat.sub_diag by lia. simpl.
    destruct (decide (has_embedding c)); [|done].
    simpl. by rewrite lookup_app_r, Nat.sub_diag by lia.
Qed.

Lemma stats_after_files_nonneg (E : IndexerEnv) s files :
  0 ≤ files_processed s → 0 ≤ files_failed s →
  let s' := foldl (stats_after_file E) s files in
  0 ≤ files_processed s' ∧ 0 ≤ files_failed s'.
Proof.
  revert s. induction files as [|f files IH]; intros s Hp Hf; simpl; [done|].
  apply IH; unfold stats_after_file; case_decide; simpl; try lia;
    destruct (text_splitter E (read_text_file E f)), (relpath E f); simpl; lia.
Qed.

(** X2. In every result that carries counters, each discovered file is
    counted exactly once, as processed or as failed, and the number of
    indexed chunks is at most the number of created chunks. *)
Theorem statistics_add_up (E : IndexerEnv) directory file_types dry_run out s :
  r_stats (index_markdown_files E directory file_types dry_run out).1 = Some s →
  files_processed s + files_failed s
  = Z.of_nat (length (find_files E directory file_types)) ∧
  0 ≤ files_processed s ∧ 0 ≤ files_failed s ∧
  0 ≤ chunks_indexed s ≤ chunks_created s.
Proof.
  intros Hs.
  destruct (decide (find_files E directory file_types = [])) as [Hnil|Hfiles].
  { by rewrite (index_no_files E _ _ _ _ Hnil) in Hs. }
  destruct (index_with_files E directory file_types dry_run out Hfiles)
    as [Hstats _].
  rewrite Hstats in Hs. injection Hs as <-. simpl.
  rewrite run_batches_stats.
  pose proof (stats_after_files_count E initial_stats
                (find_files E directory file_types)) as Hcount.
  pose proof (stats_after_files_nonneg E initial_stats
                (find_files E directory file_types)) as Hnn.
  simpl in Hcount, Hnn.
  destruct (run_batches_invariant E (find_files E directory file_types))
    as [Hcreated Hlist].
  rewrite run_batches_stats in Hcreated.
  split; [lia|]. split; [apply Hnn; lia|]. split; [apply Hnn; lia|].
  split; [lia|]. rewrite Hcreated, Hlist.
  pose proof (length_filter
    (λ l, valid_chunk (rs_heap (run_batches E (find_files E directory file_types))) l)
    (seq 0 (length (rs_heap (run_batches E (find_files E directory file_types))))))
    as Hle.
  rewrite length_seq in Hle. lia.
Qed.

(** X3. At the end of the loop the chunks that will be written are exactly
    the created chunks whose embedding is a non-empty list, in the order in
    which they were created; no chunk is listed twice. *)
Theorem persisted_chunks_are_the_valid_ones (E : IndexerEnv) files :
  let st := run_batches E files in
  deref (rs_heap st) (rs_all_processed_chunks st)
  = filter (λ c, has_embedding c) (rs_heap st) ∧
  sublist (rs_all_processed_chunks st) (seq 0 (length (rs_heap st))) ∧
  NoDup (rs_all_processed_chunks st).
Proof.
  intros st. destruct (run_batches_invariant E files) as [_ Hlist].
  fold st in Hlist. rewrite Hlist. split; [apply deref_filter_seq|].
  assert (Hsub : sublist (filter (λ l, valid_chunk (rs_heap st) l)
                            (seq 0 (length (rs_heap st))))
                         (seq 0 (length (rs_heap st))))
    by apply sublist_filter.
  split; [done|]. eapply sublist_NoDup; [apply NoDup_seq|exact Hsub].
Qed.

Lemma str_replace_char_removes a b s :
  a ≠ b → str_has_char a (str_replace_char a b s) = false.
Proof.
  intros Hab. induction s as [|c s IH]; [done|]. simpl. rewrite IH.
  case_decide; subst; rewrite bool_decide_eq_false_2; done.
Qed.

Lemma str_replace_char_id a b s :
  str_has_char a s = false → str_replace_char a b s = s.
Proof.
  induction s as [|c s IH]; [done|]. simpl.
  intros [Hc Hs]%orb_false_elim. apply bool_decide_eq_false in Hc.
  rewrite decide_False by done. by rewrite IH.
Qed.

Lemma chunk_dict_consistent fid i piece :
  str_has_char backslash fid = false →
  chunk_consistent (chunk_dict fid i piece).
Proof.
  intros Hfid. unfold chunk_consistent. simpl.
  repeat split; try done.
  exists i. case_decide; [done|]. assert (i = 0%nat) as -> by lia. done.
Qed.

Lemma chunk_consistent_forget (c c' : chunk) :
  forget_embedding c' = forget_embedding c →
  chunk_consistent c → chunk_consistent c'.
Proof.
  destruct c, c'. unfold forget_embedding, chunk_consistent. simpl.
  intros [= -> -> -> -> ->]. done.
Qed.

Lemma heap_consistent_forget (σ σ' : heap) :
  forget_embedding <$> σ' = forget_embedding <$> σ →
  Forall chunk_consistent σ → Forall chunk_consistent σ'.
Proof.
  intros Hf Hσ. apply Forall_lookup. intros l c' Hc'.
  pose proof (forget_lookup σ σ' l Hf) as Hl. rewrite Hc' in Hl.
  destruct (σ !! l) as [c|] eqn:Hc; [|done]. simpl in Hl.
  assert (Hl' : forget_embedding c' = forget_embedding c) by congruence.
  eapply chunk_consistent_forget; [exact Hl'|].
  by eapply (Forall_lookup_1 _ σ).
Qed.

Lemma process_file_consistent (E : IndexerEnv) st file_path :
  Forall chunk_consistent (bs_heap st) →
  Forall chunk_consistent (bs_heap (process_file E st file_path)).
Proof.
  intros Hst. unfold process_file. case_decide; [done|].
  destruct (split_text E _ _ _) as [[chunks σ']|] eqn:Hs; [|done].
  apply split_text_inv in Hs as (pieces & rel & _ & _ & -> & ->). simpl.
  apply Forall_app. split; [done|].
  apply Forall_forall. intros c (i & piece & -> & _)%elem_of_lookup_imap.
  apply chunk_dict_consistent, str_replace_char_removes. done.
Qed.

Lemma process_files_consistent (E : IndexerEnv) st files :
  Forall chunk_consistent (bs_heap st) →
  Forall chunk_consistent (bs_heap (foldl (process_file E) st files)).
Proof.
  revert st. induction files as [|f files IH]; intros st Hst; simpl; [done|].
  by apply IH, process_file_consistent.
Qed.

Lemma process_batch_consistent (E : IndexerEnv) files st i :
  Forall chunk_consistent (rs_heap st) →
  Forall chunk_consistent (rs_heap (process_batch E files st i)).
Proof.
  intros Hst. unfold process_batch.
  pose proof (process_files_consistent E
    {| bs_heap := rs_heap st; bs_stats := rs_stats st; bs_all_chunks := [] |}
    (py_slice files i BATCH_SIZE) Hst) as Hbs.
  destruct (bs_all_chunks _); simpl; [done|].
  eapply heap_consistent_forget; [apply embed_content_forget|done].
Qed.

Lemma run_batches_consistent (E : IndexerEnv) files :
  Forall chunk_consistent (rs_heap (run_batches E files)).
Proof.
  unfold run_batches.
  assert (H : ∀ idxs st0, Forall chunk_consistent (rs_heap st0) →
            Forall chunk_consistent
              (rs_heap (foldl (process_batch E files) st0 idxs))).
  { induction idxs as [|i idxs IH]; intros st0 Hst0; simpl; [done|].
    by apply IH, process_batch_consistent. }
  apply H. by apply Forall_nil.
Qed.

(** X4. Every chunk that a run creates, and so every chunk that it writes,
    still has at the end of the run the [id] and the offsets that follow
    from its own [file_id], [start_pos] and content, and its [file_id] has
    no backslash: embedding changes nothing but the embedding. *)
Theorem chunks_stay_consistent (E : IndexerEnv) files :
  let st := run_batches E files in
  Forall chunk_consistent (rs_heap st) ∧
  Forall chunk_consistent (deref (rs_heap st) (rs_all_processed_chunks st)).
Proof.
  intros st.
  pose proof (run_batches_consistent E files) as Hheap. fold st in Hheap.
  split; [done|].
  destruct (run_batches_invariant E files) as [_ Hlist]. fold st in Hlist.
  rewrite Hlist, deref_filter_seq.
  apply Forall_forall. intros c [_ Hc]%list_elem_of_filter.
  by eapply (proj1 (Forall_forall _ _) Hheap).
Qed.

(** *** Runs in which the embedding service always fails or never does *)

Lemma embed_content_lookup (E : IndexerEnv) chunks (σ : heap) calls l :
  NoDup chunks → l ∈ chunks →
  ∃ k j,
    sub_batch chunks k !! j = Some l ∧
    es_heap (embed_content E chunks σ calls) !! l
    = after_sub_batch (sub_batch chunks k)
        (embed_api E (calls + k) (batch_texts σ (sub_batch chunks k))) j
      <$> σ !! l.
Proof.
  intros Hnd Hl.
  destruct (elem_of_batches GEMINI_BATCH_LIMIT GEMINI_BATCH_LIMIT_pos chunks l Hl)
    as (k & Hk & [j Hj]%list_elem_of_lookup).
  exists k, j. split; [exact Hj|].
  rewrite embed_content_unfold.
  by rewrite (embed_fold_lookup E chunks _
                (seq 0 (n_batches GEMINI_BATCH_LIMIT (length chunks))) k k j l);
    [|done|apply NoDup_seq|by apply lookup_seq|done].
Qed.

Lemma embed_content_always_raises (E : IndexerEnv) chunks (σ : heap) calls l :
  api_always_raises E → NoDup chunks → l ∈ chunks →
  valid_chunk (es_heap (embed_content E chunks σ calls)) l = false.
Proof.
  intros Hraise Hnd Hl.
  destruct (embed_content_lookup E chunks σ calls l Hnd Hl) as (k & j & _ & Heq).
  unfold valid_chunk. rewrite Heq.
  destruct (Hraise (calls + k)%nat (batch_texts σ (sub_batch chunks k)))
    as [e ->].
  unfold after_sub_batch. simpl. by destruct (σ !! l).
Qed.

Lemma embed_content_well_behaved (E : IndexerEnv) chunks (σ : heap) calls l :
  api_well_behaved E → NoDup chunks → l ∈ chunks → is_Some (σ !! l) →
  valid_chunk (es_heap (embed_content E chunks σ calls)) l = true.
Proof.
  intros Hgood Hnd Hl [c Hc].
  destruct (embed_content_lookup E chunks σ calls l Hnd Hl)
    as (k & j & Hj & Heq).
  unfold valid_chunk. rewrite Heq, Hc. simpl.
  destruct (Hgood (calls + k)%nat (batch_texts σ (sub_batch chunks k)))
    as (embeddings & -> & Hlen & Hne).
  unfold batch_texts in Hlen. rewrite length_fmap in Hlen.
  unfold after_sub_batch. simpl.
  rewrite bool_decide_eq_false_2 by lia.
  pose proof (lookup_lt_Some _ _ _ Hj) as Hlt.
  destruct (lookup_lt_is_Some_2 embeddings j) as [v Hv]; [lia|].
  rewrite Hv. simpl. unfold has_embedding. simpl.
  destruct v as [|x v]; [|done].
  by apply (proj1 (Forall_lookup _ _) Hne) in Hv.
Qed.

(** When [embed_content] leaves every chunk it is given valid ([b = true])
    or every one invalid ([b = false]), so is every chunk of the heap after
    a batch of files. *)
Lemma process_batch_uniform (E : IndexerEnv) (b : bool) files st i :
  (∀ chunks (σ : heap) calls l,
     NoDup chunks → l ∈ chunks → is_Some (σ !! l) →
     valid_chunk (es_heap (embed_content E chunks σ calls)) l = b) →
  (∀ l, (l < length (rs_heap st))%nat → valid_chunk (rs_heap st) l = b) →
  ∀ l, (l < length (rs_heap (process_batch E files st i)))%nat →
       valid_chunk (rs_heap (process_batch E files st i)) l = b.
Proof.
  intros Hembed Hst. unfold process_batch.
  destruct (process_files_alloc E (rs_heap st) (rs_stats st)
              (py_slice files i BATCH_SIZE)) as (new & Hh & Ha & _).
  simpl in Hh, Ha. set (bs := foldl (process_file E) _ _) in *.
  destruct (bs_all_chunks bs) as [|l0 ls] eqn:Hall; simpl.
  - assert (new = []) as ->.
    { destruct new; [done|]. rewrite Ha in Hall. simpl in Hall. done. }
    rewrite app_nil_r in Hh. rewrite Hh. exact Hst.
  - rewrite <-Hall in Ha |- *. clear Hall l0 ls. intros l Hl.
    pose proof (embed_content_forget E (bs_all_chunks bs) (bs_heap bs)
                  (rs_calls st)) as Hf%forget_length.
    rewrite Hf, Hh, length_app in Hl.
    destruct (decide (l < length (rs_heap st))%nat) as [Hold|Hnew].
    + unfold valid_chunk.
      rewrite embed_content_frame by (rewrite Ha, elem_of_seq; lia).
      rewrite Hh, lookup_app_l by done. by apply Hst.
    + apply Hembed.
      * rewrite Ha. apply NoDup_seq.
      * rewrite Ha, elem_of_seq. lia.
      * apply lookup_lt_is_Some_2. rewrite Hh, length_app. lia.
Qed.

Lemma run_batches_uniform (E : IndexerEnv) (b : bool) files :
  (∀ chunks (σ : heap) calls l,
     NoDup chunks → l ∈ chunks → is_Some (σ !! l) →
     valid_chunk (es_heap (embed_content E chunks σ calls)) l = b) →
  ∀ l, (l < length (rs_heap (run_batches E files)))%nat →
       valid_chunk (rs_heap (run_batches E files)) l = b.
Proof.
  intros Hembed. unfold run_batches.
  assert (H : ∀ idxs st,
            (∀ l, (l < length (rs_heap st))%nat → valid_chunk (rs_heap st) l = b) →
            ∀ l, (l < length (rs_heap (foldl (process_batch E files) st idxs)))%nat →
                 valid_chunk (rs_heap (foldl (process_batch E files) st idxs)) l = b).
  { induction idxs as [|i idxs IH]; intros st Hst; simpl; [done|].
    by apply IH, process_batch_uniform. }
  apply H. simpl. intros l Hl. lia.
Qed.

Lemma filter_all {A} (P : A → Prop) `{!∀ x, Decision (P x)} (l : list A) :
  (∀ x, x ∈ l → P x) → filter P l = l.
Proof.
  induction l as [|x l IH]; intros HP; [done|].
  rewrite filter_cons_True by (apply HP; by left).
  rewrite IH; [done|]. intros y Hy. apply HP. by right.
Qed.

Lemma filter_none {A} (P : A → Prop) `{!∀ x, Decision (P x)} (l : list A) :
  (∀ x, x ∈ l → ¬ P x) → filter P l = [].
Proof.
  induction l as [|x l IH]; intros HP; [done|].
  rewrite filter_cons_False by (apply HP; by left).
  apply IH. intros y Hy. apply HP. by right.
Qed.

Lemma run_batches_none_valid (E : IndexerEnv) files :
  api_always_raises E → rs_all_processed_chunks (run_batches E files) = [].
Proof.
  intros Hraise. destruct (run_batches_invariant E files) as [_ ->].
  apply filter_none. intros l Hl%elem_of_seq.
  rewrite (run_batches_uniform E false files); [by intros []| |lia].
  intros chunks σ calls l' Hnd Hl' _.
  by apply embed_content_always_raises.
Qed.

Lemma run_batches_all_indexed (E : IndexerEnv) files :
  api_well_behaved E →
  rs_all_processed_chunks (run_batches E files)
  = seq 0 (length (rs_heap (run_batches E files))).
Proof.
  intros Hgood. destruct (run_batches_invariant E files) as [_ ->].
  apply filter_all. intros l Hl%elem_of_seq.
  rewrite (run_batches_uniform E true files); [exact I| |lia].
  intros chunks σ calls l' Hnd Hl' Hsome.
  by apply embed_content_well_behaved.
Qed.

(** X5. When the embedding service answers every call with one non-empty
    vector per text, no chunk is lost: every created chunk is in the result
    list, in the order of creation, and the result reports as many indexed
    chunks as created ones. *)
Theorem nothing_lost_when_service_answers (E : IndexerEnv)
    directory file_types dry_run out :
  api_well_behaved E →
  let st := run_batches E (find_files E directory file_types) in
  deref (rs_heap st) (rs_all_processed_chunks st) = rs_heap st ∧
  Forall (λ c, has_embedding c = true) (rs_heap st) ∧
  ∀ s, r_stats (index_markdown_files E directory file_types dry_run out).1
       = Some s →
       chunks_indexed s = chunks_created s.
Proof.
  intros Hgood st.
  pose proof (run_batches_all_indexed E (find_files E directory file_types)
                Hgood) as Hall.
  fold st in Hall.
  destruct (run_batches_invariant E (find_files E directory file_types))
    as [Hcreated Hlist]. fold st in Hcreated, Hlist.
  assert (Hvalid : Forall (λ c, has_embedding c = true) (rs_heap st)).
  { apply Forall_lookup. intros l c Hc.
    pose proof (run_batches_uniform E true (find_files E directory file_types))
      as Hu. fold st in Hu.
    specialize (Hu (λ chunks σ calls l' Hnd Hl' Hsome,
      embed_content_well_behaved E chunks σ calls l' Hgood Hnd Hl' Hsome) l).
    unfold valid_chunk in Hu. rewrite Hc in Hu. apply Hu.
    by eapply lookup_lt_Some. }
  split; [|split; [done|]].
  - rewrite Hlist, deref_filter_seq. apply filter_all.
    intros c Hc. apply Is_true_true.
    by apply (proj1 (Forall_forall _ _) Hvalid).
  - intros s Hs.
    destruct (decide (find_files E directory file_types = [])) as [Hnil|Hfiles].
    { by rewrite (index_no_files E _ _ _ _ Hnil) in Hs. }
    destruct (index_with_files E directory file_types dry_run out Hfiles)
      as [Hstats _].
    rewrite Hstats in Hs. injection Hs as <-. simpl. fold st.
    by rewrite Hall, length_seq, Hcreated.
Qed.

(** X6. When every call of the embedding service raises, the run still
    ends with a success: no chunk is indexed, the output file is left as it
    was even without the dry-run flag, and the write is never attempted. *)
Theorem nothing_written_when_service_fails (E : IndexerEnv)
    directory file_types dry_run out :
  api_always_raises E →
  find_files E directory file_types ≠ [] →
  let res := index_markdown_files E directory file_types dry_run out in
  status res.1 = "success" ∧
  res.2 = out ∧
  (∃ s, r_stats res.1 = Some s ∧ chunks_indexed s = 0) ∧
  (∀ key, key ≠ "" →
     main E (Namespace directory file_types dry_run) (Some key) out
     = (0, out)).
Proof.
  intros Hraise Hfiles res.
  pose proof (run_batches_none_valid E (find_files E directory file_types)
                Hraise) as Hnone.
  assert (Hres : status res.1 = "success" ∧ res.2 = out ∧
                 ∃ s, r_stats res.1 = Some s ∧ chunks_indexed s = 0).
  { unfold res, index_markdown_files.
    destruct (find_files E directory file_types) as [|f fs] eqn:Hf; [done|].
    rewrite Hnone. rewrite bool_decide_eq_false_2 by (intros H; by apply H).
    rewrite andb_false_r.
    destruct dry_run; simpl; (split; [done|]); (split; [done|]);
      eexists; (split; [reflexivity|]); simpl; by rewrite Hnone. }
  destruct Hres as (Hstatus & Hout & Hs). repeat split; try done.
  intros key Hkey. unfold main. fold res.
  destruct res as [r o]. simpl in *. subst o.
  destruct key as [|a key]; [done|]. by rewrite decide_True.
Qed.

(** *** What is written, and the exit code *)

Lemma chunk_items_keys (c : chunk) e :
  embedding c = Some e →
  (chunk_items c).*1 = OUTPUT_KEYS.
Proof. intros He. unfold chunk_items. by rewrite He. Qed.

(** What the function does once the loop is over, case by case. *)
Lemma index_outcome (E : IndexerEnv) directory file_types dry_run out :
  find_files E directory file_types ≠ [] →
  let st := run_batches E (find_files E directory file_types) in
  let doc := dump_chunks (deref (rs_heap st) (rs_all_processed_chunks st)) in
  let res := index_markdown_files E directory file_types dry_run out in
  if negb dry_run && bool_decide (rs_all_processed_chunks st ≠ []) then
    match try_write E out doc with
    | WriteOk => status res.1 = "success" ∧ res.2 = Some (JsonDoc doc)
    | WriteRaises e left_behind => status res.1 = "error" ∧ res.2 = left_behind
    end
  else status res.1 = "success" ∧ res.2 = out.
Proof.
  intros Hfiles st doc res. unfold res, doc, index_markdown_files. fold st.
  destruct (find_files E directory file_types) as [|f fs]; [done|].
  destruct (negb dry_run && bool_decide (rs_all_processed_chunks st ≠ [])).
  - by destruct (try_write E out _).
  - by destruct dry_run.
Qed.

(** X7. When a run that is not a dry run has at least one valid chunk and
    the write succeeds, the output file holds, whatever it held before, a
    list with one object per indexed chunk, and each object has exactly
    the keys id, file_id, content, start_pos, end_pos and embedding, in
    this order, the embedding being a non-empty list of floats. *)
Theorem output_file_format (E : IndexerEnv) directory file_types out :
  let st := run_batches E (find_files E directory file_types) in
  let res := index_markdown_files E directory file_types false out in
  rs_all_processed_chunks st ≠ [] →
  try_write E out
    (dump_chunks (deref (rs_heap st) (rs_all_processed_chunks st))) = WriteOk →
  ∃ docs,
    res.2 = Some (JsonDoc (PList docs)) ∧
    (∀ s, r_stats res.1 = Some s → chunks_indexed s = Z.of_nat (length docs)) ∧
    Forall (λ d, ∃ items v vs,
              d = PDict items ∧ items.*1 = OUTPUT_KEYS ∧
              record_get items "embedding" = Some (PList (PFloat <$> v :: vs)))
           docs.
Proof.
  intros st res Hne Hw.
  assert (Hfiles : find_files E directory file_types ≠ []).
  { intros Hnil. apply Hne. unfold st. by rewrite Hnil, run_batches_nil. }
  pose proof (index_outcome E directory file_types false out Hfiles) as Hout.
  fold st res in Hout. simpl in Hout.
  rewrite bool_decide_eq_true_2, Hw in Hout by done.
  destruct Hout as [_ Hout].
  destruct (index_with_files E directory file_types false out Hfiles)
    as [Hstats _]. fold st res in Hstats.
  destruct (deref_all_valid _ _ (run_batches_all_valid E
              (find_files E directory file_types))) as [Hlen Hall].
  fold st in Hlen, Hall.
  exists (chunk_to_py <$> deref (rs_heap st) (rs_all_processed_chunks st)).
  split; [exact Hout|]. split.
  - intros s Hs. rewrite Hstats in Hs. injection Hs as <-. simpl.
    by rewrite length_fmap, Hlen.
  - apply Forall_fmap. eapply Forall_impl; [exact Hall|].
    intros c (v & vs & He). simpl. exists (chunk_items c), v, vs.
    split; [done|]. split; [by eapply chunk_items_keys|].
    by destruct (record_get_chunk c _ He) as (_ & _ & _ & _ & _ & ?).
Qed.

(** X8. When argparse ends the process (code 2 after a usage error, code 0
    after [--help]), [main] exits with argparse's code and nothing else
    happens: the credential is not looked at and the output file is left
    alone. When the arguments are parsed, the process exits with 0 or with
    1, and with 0 exactly when the credential is set and not empty, at
    least one file was found, and the run was a dry run, or had no valid
    chunk to write, or wrote the output file without error. *)
Theorem exit_code_of_main (E : IndexerEnv) args GEMINI_API_KEY out :
  match args with
  | ArgparseExit code => main E args GEMINI_API_KEY out = (code, out)
  | Namespace directory file_types dry_run =>
      let st := run_batches E (find_files E directory file_types) in
      let code := (main E args GEMINI_API_KEY out).1 in
      (code = 0 ∨ code = 1) ∧
      (code = 0 ↔
       (∃ key, GEMINI_API_KEY = Some key ∧ key ≠ "") ∧
       find_files E directory file_types ≠ [] ∧
       (dry_run = true ∨ rs_all_processed_chunks st = []
        ∨ try_write E out
            (dump_chunks (deref (rs_heap st) (rs_all_processed_chunks st)))
          = WriteOk))
  end.
Proof.
  destruct args as [directory file_types dry_run|c]; [|done].
  intros st code. unfold code, main.
  destruct GEMINI_API_KEY as [[|a key]|].
  1,3: split; [by right|]; split; [done|]; intros [(k & Hk & Hne) _];
       by simplify_eq.
  destruct (decide (find_files E directory file_types = [])) as [Hnil|Hfiles].
  { rewrite (index_no_files E _ _ _ _ Hnil). simpl.
    split; [by right|]. split; [done|]. by intros (_ & ? & _). }
  pose proof (index_outcome E directory file_types dry_run out Hfiles) as Hout.
  fold st in Hout. simpl in Hout.
  destruct (index_markdown_files E directory file_types dry_run out)
    as [r o]. simpl in *.
  assert (Hkey : ∃ k, Some (String a key) = Some k ∧ k ≠ "")
    by (by eexists).
  destruct dry_run; simpl in Hout.
  { destruct Hout as [-> _]. simpl. split; [by left|].
    split; [|done]. intros _. split; [done|]. split; [done|]. by left. }
  case_bool_decide as Hproc; simpl in Hout.
  - destruct (try_write E out _) as [|e left_behind] eqn:Hw.
    + destruct Hout as [-> _]. simpl. split; [by left|].
      split; [|done]. intros _. split; [done|]. split; [done|]. by right; right.
    + destruct Hout as [-> _]. simpl. split; [by right|].
      split; [done|]. intros (_ & _ & [?|[?|?]]); done.
  - destruct Hout as [-> _]. simpl. split; [by left|].
    split; [|done]. intros _. split; [done|]. split; [done|].
    right; left. by destruct (rs_all_processed_chunks st); [|destruct Hproc].
Qed.

(** X9. A dry run reports the counters that the same run reports without
    the flag, whether its write succeeds or fails. *)
Theorem dry_run_reports_the_same_statistics (E : IndexerEnv)
    directory file_types out out' :
  r_stats (index_markdown_files E directory file_types true out).1
  = r_stats (index_markdown_files E directory file_types false out').1.
Proof.
  destruct (decide (find_files E directory file_types = [])) as [Hnil|Hfiles].
  - by rewrite !(index_no_files E _ _ _ _ Hnil).
  - destruct (index_with_files E directory file_types true out Hfiles)
      as [-> _].
    by destruct (index_with_files E directory file_types false out' Hfiles)
      as [-> _].
Qed.

(** *** Runs without a readable file *)

Lemma process_files_all_empty (E : IndexerEnv) st files :
  (∀ f, f ∈ files → read_text_file E f = "") →
  foldl (process_file E) st files
  = {| bs_heap := bs_heap st;
       bs_stats :=
         {| files_processed := files_processed (bs_stats st);
            files_failed := files_failed (bs_stats st) + Z.of_nat (length files);
            chunks_created := chunks_created (bs_stats st);
            chunks_indexed := chunks_indexed (bs_stats st);
            processing_time := processing_time (bs_stats st) |};
       bs_all_chunks := bs_all_chunks st |}.
Proof.
  revert st. induction files as [|f files IH]; intros st Hempty.
  { simpl. destruct st as [σ [] all]. simpl. by rewrite Z.add_0_r. }
  simpl foldl. rewrite IH by (intros; apply Hempty; by right).
  unfold process_file at 1 2 3 4 5 6 7.
  rewrite (Hempty f) by (by left). simpl. do 2 f_equal. lia.
Qed.

Lemma py_slice_elem_of {A} (xs : list A) i n x : x ∈ py_slice xs i n → x ∈ xs.
Proof.
  unfold py_slice. intros [j Hj]%list_elem_of_lookup.
  apply lookup_take_Some in Hj as [Hj _]. rewrite lookup_drop in Hj.
  by eapply list_elem_of_lookup_2.
Qed.

Lemma run_fold_all_empty (E : IndexerEnv) files st idxs :
  (∀ f, f ∈ files → read_text_file E f = "") →
  let st' := foldl (process_batch E files) st idxs in
  rs_heap st' = rs_heap st ∧ rs_calls st' = rs_calls st ∧
  rs_all_processed_chunks st' = rs_all_processed_chunks st ∧
  files_processed (rs_stats st') = files_processed (rs_stats st) ∧
  chunks_created (rs_stats st') = chunks_created (rs_stats st).
Proof.
  intros Hempty. revert st.
  induction idxs as [|i idxs IH]; intros st; simpl; [done|].
  destruct (IH (process_batch E files st i)) as (-> & -> & -> & -> & ->).
  unfold process_batch.
  rewrite process_files_all_empty
    by (intros f Hf%py_slice_elem_of; by apply Hempty).
  simpl. destruct (rs_all_processed_chunks st); done.
Qed.

(** X10. When files are found but every one of them reads as the empty
    string (unreadable or empty), the embedding service is never called
    and no chunk is created; every file is counted as failed, and the run
    nevertheless ends with a success, an untouched output file and exit
    code 0. *)
Theorem only_unreadable_files_is_a_success (E : IndexerEnv)
    directory file_types dry_run out :
  find_files E directory file_types ≠ [] →
  (∀ f, f ∈ find_files E directory file_types → read_text_file E f = "") →
  let st := run_batches E (find_files E directory file_types) in
  let res := index_markdown_files E directory file_types dry_run out in
  rs_calls st = 0%nat ∧ rs_heap st = [] ∧
  status res.1 = "success" ∧ res.2 = out ∧
  (∃ s, r_stats res.1 = Some s ∧
        files_processed s = 0 ∧
        files_failed s = Z.of_nat (length (find_files E directory file_types)) ∧
        chunks_created s = 0 ∧ chunks_indexed s = 0) ∧
  (∀ key, key ≠ "" →
     main E (Namespace directory file_types dry_run) (Some key) out
     = (0, out)).
Proof.
  intros Hfiles Hempty st res.
  destruct (run_fold_all_empty E (find_files E directory file_types)
              {| rs_heap := []; rs_calls := 0%nat; rs_stats := initial_stats;
                 rs_all_processed_chunks := [] |}
              (py_range (length (find_files E directory file_types)) BATCH_SIZE)
              Hempty) as (Hheap & Hcalls & Hproc & Hfp & Hcc).
  fold (run_batches E (find_files E directory file_types)) in *.
  fold st in Hheap, Hcalls, Hproc, Hfp, Hcc. simpl in *.
  destruct (index_with_files E directory file_types dry_run out Hfiles)
    as [Hstats _]. fold st res in Hstats.
  pose proof (index_outcome E directory file_types dry_run out Hfiles) as Hout.
  fold st res in Hout. simpl in Hout. rewrite Hproc in Hout.
  rewrite bool_decide_eq_false_2, andb_false_r in Hout by (intros H; by apply H).
  destruct Hout as [Hstatus Hout].
  split; [done|]. split; [done|]. split; [done|]. split; [done|]. split.
  - eexists. split; [exact Hstats|]. simpl. rewrite Hproc. simpl.
    pose proof (stats_after_files_count E initial_stats
                  (find_files E directory file_types)) as Hcount.
    simpl in Hcount. rewrite <-run_batches_stats in Hcount. fold st in Hcount.
    repeat split; try done. lia.
  - intros key Hkey. unfold main. fold res.
    destruct res as [r o]. simpl in *. subst o.
    destruct key as [|a key]; [done|]. by rewrite decide_True.
Qed.

(** X11. Within one file the start offsets grow strictly with the position
    of the chunk, by the stride [CHUNK_SIZE - CHUNK_OVERLAP] from one chunk
    to the next, and no chunk ends before it starts. *)
Theorem split_text_offsets_grow (E : IndexerEnv) text file_path (σ σ' : heap) locs :
  split_text E text file_path σ = Some (locs, σ') →
  ∀ i j li lj ci cj,
    locs !! i = Some li → locs !! j = Some lj →
    σ' !! li = Some ci → σ' !! lj = Some cj →
    start_pos ci ≤ end_pos ci ∧
    start_pos cj - start_pos ci
    = (Z.of_nat j - Z.of_nat i) * (CHUNK_SIZE - CHUNK_OVERLAP) ∧
    ((i < j)%nat → start_pos ci < start_pos cj).
Proof.
  intros (pieces & rel & _ & _ & -> & ->)%split_text_inv
         i j li lj ci cj Hi Hj Hci Hcj.
  apply lookup_seq in Hi as [-> Hi]. apply lookup_seq in Hj as [-> Hj].
  rewrite lookup_app_r in Hci, Hcj by lia.
  replace (length σ + i - length σ)%nat with i in Hci by lia.
  replace (length σ + j - length σ)%nat with j in Hcj by lia.
  apply list_lookup_imap_Some in Hci as (p & _ & ->).
  apply list_lookup_imap_Some in Hcj as (q & _ & ->).
  simpl. unfold CHUNK_SIZE, CHUNK_OVERLAP.
  repeat case_decide; repeat split; intros; lia.
Qed.


(** *** The calls of the embedding service *)

Lemma n_batches_bounds (n : nat) :
  (n ≤ GEMINI_BATCH_LIMIT * n_batches GEMINI_BATCH_LIMIT n
   ∧ GEMINI_BATCH_LIMIT * n_batches GEMINI_BATCH_LIMIT n
     ≤ n + (GEMINI_BATCH_LIMIT - 1)
   ∧ n_batches GEMINI_BATCH_LIMIT n ≤ n)%nat.
Proof.
  unfold n_batches, GEMINI_BATCH_LIMIT.
  pose proof (Nat.div_mod_eq (n + 100 - 1) 100) as Hdiv.
  pose proof (Nat.mod_upper_bound (n + 100 - 1) 100) as Hmod.
  lia.
Qed.

(** One batch of files makes one call per started hundred of the chunks it
    creates. *)
Lemma process_batch_calls (E : IndexerEnv) files st i :
  ∃ new : nat,
    length (rs_heap (process_batch E files st i))
    = (length (rs_heap st) + new)%nat ∧
    rs_calls (process_batch E files st i)
    = (rs_calls st + n_batches GEMINI_BATCH_LIMIT new)%nat.
Proof.
  unfold process_batch.
  destruct (process_files_alloc E (rs_heap st) (rs_stats st)
              (py_slice files i BATCH_SIZE)) as (new & Hh & Ha & _).
  simpl in Hh, Ha. set (bs := foldl (process_file E) _ _) in *.
  exists (length new).
  destruct (bs_all_chunks bs) as [|l0 ls] eqn:Hall; simpl.
  - assert (new = []) as ->.
    { destruct new; [done|]. rewrite Ha in Hall. simpl in Hall. done. }
    rewrite Hh, length_app. simpl. split; [done|]. unfold n_batches. simpl. lia.
  - rewrite <-Hall in Ha |- *. clear Hall l0 ls.
    pose proof (embed_content_forget E (bs_all_chunks bs) (bs_heap bs)
                  (rs_calls st)) as Hf%forget_length.
    rewrite Hf, Hh, length_app. split; [done|].
    rewrite embed_content_unfold, embed_fold_calls. simpl.
    by rewrite length_fmap, length_seq, Ha, length_seq.
Qed.

Lemma run_fold_calls (E : IndexerEnv) files st idxs :
  let st' := foldl (process_batch E files) st idxs in
  ∃ new calls : nat,
    length (rs_heap st') = (length (rs_heap st) + new)%nat ∧
    rs_calls st' = (rs_calls st + calls)%nat ∧
    (new ≤ GEMINI_BATCH_LIMIT * calls
     ∧ GEMINI_BATCH_LIMIT * calls
       ≤ new + (GEMINI_BATCH_LIMIT - 1) * length idxs
     ∧ calls ≤ new)%nat.
Proof.
  revert st. induction idxs as [|i idxs IH]; intros st; simpl.
  { exists 0%nat, 0%nat. lia. }
  destruct (IH (process_batch E files st i)) as (new' & calls' & Hh' & Hc' & Hb').
  destruct (process_batch_calls E files st i) as (new & Hh & Hc).
  pose proof (n_batches_bounds new) as Hb.
  exists (new + new')%nat, (n_batches GEMINI_BATCH_LIMIT new + calls')%nat.
  rewrite Hh', Hc', Hh, Hc. unfold GEMINI_BATCH_LIMIT in *. lia.
Qed.

(** X12. The number of calls of the embedding service in a run is bounded
    by the work: with sub-batches of 100, a run that creates n chunks from
    b batches of files makes at least n/100 calls, at most n calls, and at
    most n/100 + b; a run that creates no chunk makes no call. *)
Theorem embedding_calls_are_bounded (E : IndexerEnv) files :
  let st := run_batches E files in
  let created := chunks_created (rs_stats st) in
  let calls := Z.of_nat (rs_calls st) in
  let batches := Z.of_nat (n_batches BATCH_SIZE (length files)) in
  created = Z.of_nat (length (rs_heap st)) ∧
  created ≤ 100 * calls ∧
  100 * calls ≤ created + 99 * batches ∧
  calls ≤ created.
Proof.
  intros st created calls batches.
  destruct (run_batches_invariant E files) as [Hcreated _].
  fold st in Hcreated. fold created in Hcreated.
  destruct (run_fold_calls E files
              {| rs_heap := []; rs_calls := 0%nat; rs_stats := initial_stats;
                 rs_all_processed_chunks := [] |}
              (py_range (length files) BATCH_SIZE))
    as (new & n & Hh & Hc & Hb).
  fold (run_batches E files) in Hh, Hc. fold st in Hh, Hc. simpl in Hh, Hc.
  rewrite (length_py_range BATCH_SIZE) in Hb.
  unfold calls, batches. rewrite Hcreated, Hh, Hc.
  unfold GEMINI_BATCH_LIMIT in Hb. split; [done|]. lia.
Qed.

(** ** More on the viewer *)

Lemma coerce_embedding_result (V : ViewerEnv) x y :
  coerce_embedding V x = Ok y → (∃ t, y = FloatTuple t) ∨ y = Cell PNone.
Proof.
  unfold coerce_embedding.
  destruct x as [[| | | | |xs|]| |]; try (intros [= <-]; by right).
  destruct (res_map (to_float V) xs) as [t|]; simpl; [|done].
  intros [= <-]. left. by exists t.
Qed.

Lemma apply_dropna_tuples (V : ViewerEnv) (rs rs' : list (gmap string cell)) :
  apply_embedding V rs = Ok rs' →
  Forall (λ r, ∃ t, cell_at r "embedding" = FloatTuple t)
         (dropna_embedding V rs').
Proof.
  revert rs'. induction rs as [|r rs IH]; intros rs' Hrs.
  { injection Hrs as <-. apply Forall_nil. done. }
  rewrite apply_embedding_cons in Hrs.
  destruct (coerce_embedding V (cell_at r "embedding")) as [y|] eqn:Hy; [|done].
  destruct (apply_embedding V rs) as [rs0|]; [|done].
  simpl in Hrs. injection Hrs as <-.
  rewrite dropna_embedding_cons.
  destruct (coerce_embedding_result V _ _ Hy) as [[t ->]| ->]; simpl.
  - apply Forall_cons. split; [|by apply IH].
    exists t. apply cell_at_insert.
  - by apply IH.
Qed.

(** A table that [load_embeddings] returns, taken apart. *)
Lemma load_embeddings_inv (V : ViewerEnv)
    (fs : gmap string file_content) filepath df shown :
  load_embeddings V fs filepath = (Some df, shown) →
  ∃ df0 rs,
    "embedding" ∈ columns df0 ∧
    apply_embedding V (rows df0) = Ok rs ∧
    df = {| columns := columns df0; rows := dropna_embedding V rs |} ∧
    df_empty df = false.
Proof.
  unfold load_embeddings, load_embeddings_try. intros Hload.
  destruct (read_json fs filepath) as [data|x]; [|by destruct x].
  cbn [res_bind] in Hload.
  destruct (pd_DataFrame V data) as [df0|x]; [|by destruct x].
  cbn [res_bind] in Hload.
  destruct (decide ("embedding" ∈ columns df0)) as [Hcol|]; [|done].
  destruct (apply_embedding V (rows df0)) as [rs|x] eqn:Hrs; [|by destruct x].
  cbn [res_bind] in Hload.
  destruct (df_empty {| columns := columns df0;
                        rows := dropna_embedding V rs |}) eqn:Hempty; [done|].
  assert (df = {| columns := columns df0; rows := dropna_embedding V rs |})
    as -> by (by destruct (decide _); injection Hload as <- _).
  by exists df0, rs.
Qed.

(** X13. For any file and any document in it, a table that
    [load_embeddings] returns is never empty, has an embedding column, and
    holds in every row of that column a tuple of floats. *)
Theorem loaded_table_is_never_empty (V : ViewerEnv)
    (fs : gmap string file_content) filepath df shown :
  load_embeddings V fs filepath = (Some df, shown) →
  df_empty df = false ∧
  rows df ≠ [] ∧
  "embedding" ∈ columns df ∧
  Forall (λ r, ∃ t, cell_at r "embedding" = FloatTuple t) (rows df).
Proof.
  intros (df0 & rs & Hcol & Hrs & -> & Hempty)%load_embeddings_inv.
  split; [done|]. simpl. split.
  - unfold df_empty in Hempty. simpl in Hempty.
    apply orb_false_elim in Hempty as [_ Hrows].
    by apply bool_decide_eq_false in Hrows.
  - split; [done|]. by apply (apply_dropna_tuples V (rows df0)).
Qed.

(** X14. [load_embeddings] shows at most one message. It shows an error
    exactly when it returns no table; with a table it shows either nothing
    or the warning about missing columns, and it shows nothing exactly when
    the table has the columns id, file_id and content. *)
Theorem load_embeddings_messages (V : ViewerEnv)
    (fs : gmap string file_content) filepath :
  let r := load_embeddings V fs filepath in
  (r.1 = None → ∃ msg, r.2 = [StError msg]) ∧
  (∀ df, r.1 = Some df →
     (r.2 = [] ∨ ∃ msg, r.2 = [StWarning msg]) ∧
     (r.2 = [] ↔
      "id" ∈ columns df ∧ "file_id" ∈ columns df ∧ "content" ∈ columns df)).
Proof.
  intros r. unfold r, load_embeddings, load_embeddings_try.
  destruct (read_json fs filepath) as [data|x];
    [|destruct x; simpl; (split; [by eexists|done])].
  cbn [res_bind].
  destruct (pd_DataFrame V data) as [df0|x];
    [|destruct x; simpl; (split; [by eexists|done])].
  cbn [res_bind].
  destruct (decide ("embedding" ∈ columns df0)) as [Hcol|];
    [|simpl; (split; [by eexists|done])].
  destruct (apply_embedding V (rows df0)) as [rs|x];
    [|destruct x; simpl; (split; [by eexists|done])].
  cbn [res_bind].
  destruct (df_empty _); [simpl; (split; [by eexists|done])|].
  destruct (decide _) as [Hmiss|Hall]; simpl in *.
  - split; [done|]. intros df [= <-]. simpl. split; [right; by eexists|].
    split; [done|]. intros (? & ? & ?). by destruct Hmiss as [?|[?|?]].
  - split; [done|]. intros df [= <-]. simpl. split; [by left|].
    split; [|done]. intros _.
    repeat split; apply dec_stable; intros ?; apply Hall; auto.
Qed.


(** *** The reduction *)

(** [run_tsne] on a table that reaches the reduction. *)
Lemma run_tsne_unfold (V : ViewerEnv) df p n_iter lr rs :
  df_empty df = false →
  "embedding" ∈ columns df →
  np_array_raises V (embedding_column df) = None →
  let n := Z.of_nat (length (rows df)) in
  let p' := if decide (n ≤ p) then Z.max 1 (n - 1) else p in
  let cfg := tsne_with p' n_iter lr rs in
  ∃ warned,
    ((p < n ∧ warned = []) ∨ (n ≤ p ∧ ∃ msg, warned = [StWarning msg])) ∧
    ((∃ projections,
        fit_transform V cfg (embedding_column df) = Ok projections ∧
        run_tsne V (Some df) p n_iter lr rs
        = (Ok (Some projections),
           warned ++ [TsneFitTransform cfg (embedding_column df)]))
     ∨ (∃ x msg,
        fit_transform V cfg (embedding_column df) = Raise x ∧
        run_tsne V (Some df) p n_iter lr rs
        = (Ok None,
           (warned ++ [TsneFitTransform cfg (embedding_column df)])
           ++ [StError msg]))).
Proof.
  intros Hne Hcol Harr n p' cfg. unfold run_tsne. rewrite Hne.
  rewrite decide_True by done. fold (embedding_column df). rewrite Harr.
  assert (Hn : Z.of_nat (length (embedding_column df)) = n).
  { unfold embedding_column. by rewrite length_fmap. }
  rewrite Hn. unfold cfg, p', tsne_with.
  destruct (decide (n ≤ p)); cbv zeta.
  - eexists [StWarning _]. split; [right; split; [done|by eexists]|].
    destruct (fit_transform V _ _) as [proj|x].
    + left. exists proj. split; reflexivity.
    + right. destruct x; eexists _, _; split; reflexivity.
  - exists []. split; [left; split; [lia|done]|].
    destruct (fit_transform V _ _) as [proj|x].
    + left. exists proj. split; reflexivity.
    + right. destruct x; eexists _, _; split; reflexivity.
Qed.

(** X16. On a non-empty table with [n] rows, when [np.array] builds the
    matrix from the embedding column the reduction is called exactly once,
    on the whole column, and never with a perplexity above
    [max(1, n - 1)]: with two rows or more the perplexity it receives is
    below the number of rows, whatever was requested; with a single row
    and a requested perplexity of at least 1 it receives 1, which is not
    below the number of rows. When [np.array] raises (embeddings of
    different lengths), [run_tsne] raises its exception, shows nothing and
    does not call the reduction. *)
Theorem reduction_perplexity_is_bounded (V : ViewerEnv) df p n_iter lr rs :
  df_empty df = false →
  "embedding" ∈ columns df →
  let n := Z.of_nat (length (rows df)) in
  match np_array_raises V (embedding_column df) with
  | Some x => run_tsne V (Some df) p n_iter lr rs = (Raise x, [])
  | None =>
      ∃ cfg before after,
        (run_tsne V (Some df) p n_iter lr rs).2
        = before ++ [TsneFitTransform cfg (embedding_column df)] ++ after ∧
        Forall (λ ev, ∀ c m, ev ≠ TsneFitTransform c m) (before ++ after) ∧
        max_iter cfg = n_iter ∧ learning_rate cfg = lr ∧
        random_state cfg = rs ∧ n_components cfg = 2 ∧
        perplexity cfg ≤ Z.max 1 (n - 1) ∧
        (2 ≤ n → perplexity cfg < n) ∧
        (n = 1 → 1 ≤ p → perplexity cfg = 1)
  end.
Proof.
  intros Hne Hcol n.
  destruct (np_array_raises V (embedding_column df)) as [x|] eqn:Harr.
  { by apply run_tsne_np_array_raises. }
  destruct (run_tsne_unfold V df p n_iter lr rs Hne Hcol Harr)
    as (warned & Hwarned & Hrun).
  fold n in Hrun.
  set (p' := if decide (n ≤ p) then Z.max 1 (n - 1) else p) in *.
  exists (tsne_with p' n_iter lr rs), warned.
  assert (Hw : Forall (λ ev : ui_event, ∀ c m, ev ≠ TsneFitTransform c m) warned).
  { destruct Hwarned as [[_ ->]|[_ [msg ->]]]; repeat constructor; done. }
  assert (Hp : p' ≤ Z.max 1 (n - 1) ∧ (2 ≤ n → p' < n) ∧ (n = 1 → 1 ≤ p → p' = 1)).
  { unfold p'. case_decide; lia. }
  destruct Hp as (Hp1 & Hp2 & Hp3).
  destruct Hrun as [(proj & _ & ->)|(x & msg & _ & ->)]; cbn [snd].
  - exists []. split; [done|]. rewrite app_nil_r.
    split; [done|]. by repeat split.
  - exists [StError msg]. split; [by rewrite <-app_assoc|]. split.
    { apply Forall_app. split; [done|]. by repeat constructor. }
    by repeat split.
Qed.

(** X17. [run_tsne] returns the projections exactly when the reduction
    returns them, and then shows no error; when the reduction raises, it
    returns nothing, does not raise itself, and the last thing it shows is
    an error message. Without a table, or with an empty one, it returns
    nothing, shows nothing and does not call the reduction. *)
Theorem run_tsne_outcome (V : ViewerEnv) df p n_iter lr rs :
  run_tsne V None p n_iter lr rs = (Ok None, []) ∧
  (df_empty df = true → run_tsne V (Some df) p n_iter lr rs = (Ok None, [])) ∧
  (df_empty df = false →
   "embedding" ∈ columns df →
   np_array_raises V (embedding_column df) = None →
   let n := Z.of_nat (length (rows df)) in
   let cfg := tsne_with (if decide (n ≤ p) then Z.max 1 (n - 1) else p)
                n_iter lr rs in
   let out := run_tsne V (Some df) p n_iter lr rs in
   match fit_transform V cfg (embedding_column df) with
   | Ok projections =>
       out.1 = Ok (Some projections) ∧ Forall (λ ev, ¬ is_st_error ev) out.2
   | Raise _ =>
       out.1 = Ok None ∧ ∃ msg, last out.2 = Some (StError msg)
   end).
Proof.
  split; [done|]. split.
  { intros Hempty. unfold run_tsne. by rewrite Hempty. }
  intros Hne Hcol Harr n cfg out.
  destruct (run_tsne_unfold V df p n_iter lr rs Hne Hcol Harr)
    as (warned & Hwarned & Hrun).
  fold n cfg in Hrun. unfold out.
  destruct Hrun as [(proj & -> & ->)|(x & msg & -> & ->)]; cbn [fst snd].
  - split; [done|]. apply Forall_app. split.
    + destruct Hwarned as [[_ ->]|[_ [m ->]]]; repeat constructor; by intros [].
    + repeat constructor. by intros [].
  - split; [done|]. exists msg. by rewrite last_app.
Qed.


(** *** The script after the load *)

(** X18. The slider of the perplexity has a valid range exactly when the
    table has one row or at least six: with two to five rows the maximum
    handed to the slider is below its minimum of 5, and so is its initial
    value. For a position of the slider, when [np.array] builds the
    matrix: with six rows or more the position is below the number of
    rows, so the reduction runs with the chosen value and no warning is
    shown; with a single row the position is too high, the warning is
    shown and the reduction receives perplexity 1. When [np.array] raises
    (embeddings of different lengths), [run_tsne] raises before the guard
    and neither happens. *)
Theorem slider_perplexity_and_clamp (V : ViewerEnv) df p n_iter lr rs :
  df_empty df = false →
  "embedding" ∈ columns df →
  let n := Z.of_nat (length (rows df)) in
  let s := perplexity_slider n in
  let out := run_tsne V (Some df) p n_iter lr rs in
  (min_value s ≤ max_value s ↔ n = 1 ∨ 6 ≤ n) ∧
  (min_value s ≤ value s ≤ max_value s ↔ n = 1 ∨ 6 ≤ n) ∧
  (min_value s ≤ p ≤ max_value s →
   match np_array_raises V (embedding_column df) with
   | Some x => out = (Raise x, [])
   | None =>
       (6 ≤ n ∧ p < n ∧
        ∃ rest, out.2 = TsneFitTransform (tsne_with p n_iter lr rs)
                          (embedding_column df) :: rest)
       ∨ (n = 1 ∧
          ∃ msg rest, out.2 = StWarning msg
                              :: TsneFitTransform (tsne_with 1 n_iter lr rs)
                                   (embedding_column df) :: rest)
   end).
Proof.
  intros Hne Hcol n s out.
  assert (Hn : 1 ≤ n).
  { unfold df_empty in Hne. apply orb_false_elim in Hne as [_ Hrows].
    apply bool_decide_eq_false in Hrows. unfold n.
    destruct (rows df); [done|]. simpl length. lia. }
  unfold s, perplexity_slider, DEFAULT_PERPLEXITY. cbn [min_value max_value value].
  split; [case_decide; lia|]. split; [case_decide; lia|].
  intros Hp.
  destruct (np_array_raises V (embedding_column df)) as [x|] eqn:Harr.
  { by apply run_tsne_np_array_raises. }
  destruct (run_tsne_unfold V df p n_iter lr rs Hne Hcol Harr)
    as (warned & Hwarned & Hrun).
  fold n in Hwarned, Hrun. unfold out.
  destruct (decide (1 < n)) as [Hbig|Hone].
  - left. split; [lia|]. split; [lia|].
    destruct Hwarned as [[_ ->]|[Hle _]]; [|lia].
    rewrite decide_False in Hrun by lia.
    destruct Hrun as [(proj & _ & ->)|(x & msg & _ & ->)]; by eexists.
  - right. split; [lia|].
    destruct Hwarned as [[Hlt _]|[Hle [msg ->]]]; [lia|].
    rewrite decide_True in Hrun by lia.
    replace (Z.max 1 (n - 1)) with 1 in Hrun by lia.
    destruct Hrun as [(proj & _ & ->)|(x & msg' & _ & ->)]; by eexists _, _.
Qed.


(** X19. The branch of the script that warns about a file loaded without
    any valid embedding is never taken: whatever the file holds, a table
    that [load_embeddings] returns goes to the reduction, and without a
    table the script shows nothing more. *)
Theorem empty_table_branch_is_never_taken (V : ViewerEnv)
    (fs : gmap string file_content) filepath :
  let r := load_embeddings V fs filepath in
  branch_after_load r.1 ≠ WarnNoValidEmbeddings ∧
  (∀ df, r.1 = Some df → branch_after_load r.1 = RunReduction df) ∧
  (r.1 = None → branch_after_load r.1 = NothingMore).
Proof.
  intros r.
  assert (Hsome : ∀ df, r.1 = Some df → branch_after_load r.1 = RunReduction df).
  { intros df Hdf. unfold r in *.
    destruct (load_embeddings V fs filepath) as [o shown] eqn:Hload.
    simpl in Hdf. subst o.
    apply load_embeddings_inv in Hload as (_ & _ & _ & _ & _ & Hne).
    simpl. by rewrite Hne. }
  split; [|split; [done|by intros ->]].
  destruct r.1 as [df|] eqn:Hr; [|done].
  by rewrite (Hsome df eq_refl).
Qed.


(** *** The table of the plot *)

Lemma str_has_char_app a (x y : string) :
  str_has_char a (x +:+ y) = str_has_char a x || str_has_char a y.
Proof.
  induction x as [|c x IH]; [done|]. simpl. by rewrite IH, orb_assoc.
Qed.

Lemma str_replace_char_by_removes a b s :
  str_has_char a b = false →
  str_has_char a (str_replace_char_by a b s) = false.
Proof.
  intros Hb. induction s as [|c s IH]; [done|]. simpl.
  case_decide as Hc.
  - by rewrite str_has_char_app, Hb, IH.
  - simpl. rewrite IH. by rewrite bool_decide_eq_false_2.
Qed.

Lemma str_replace_char_by_id a b s :
  str_has_char a s = false → str_replace_char_by a b s = s.
Proof.
  induction s as [|c s IH]; [done|]. simpl.
  intros [Hc Hs]%orb_false_elim. apply bool_decide_eq_false in Hc.
  rewrite decide_False by done. by rewrite IH.
Qed.

(** The position of a label among the labels that a filter keeps. *)
Lemma list_find_kept_label {A} (P : A → Prop) `{!∀ x, Decision (P x)}
    (xs : list A) (s k : nat) :
  list_find (λ l, l = k)
    (filter (λ lx : nat * A, P lx.2) (zip (seq s (length xs)) xs)).*1
  = if decide (s ≤ k)%nat then
      match xs !! (k - s)%nat with
      | Some x =>
          if decide (P x)
          then Some (length (filter P (take (k - s) xs)), k)
          else None
      | None => None
      end
    else None.
Proof.
  revert s. induction xs as [|x xs IH]; intros s.
  { simpl. by case_decide. }
  simpl length. cbn [seq zip zip_with]. rewrite filter_cons. simpl.
  destruct (decide (s ≤ k)%nat) as [Hsk|Hsk].
  - destruct (decide (s = k)) as [->|Hne].
    + rewrite Nat.sub_diag. simpl.
      destruct (decide (P x)) as [HP|HP].
      * rewrite fmap_cons. cbn [list_find fst]. by rewrite decide_True.
      * rewrite IH. by rewrite decide_False by lia.
    + replace (k - s)%nat with (S (k - S s)) by lia. simpl.
      destruct (decide (P x)) as [HP|HP].
      * rewrite fmap_cons. cbn [list_find fst]. rewrite decide_False by done.
        rewrite IH, decide_True by lia.
        rewrite filter_cons_True by done.
        destruct (xs !! (k - S s)%nat) as [y|]; [|done].
        by destruct (decide (P y)).
      * rewrite IH, decide_True by lia.
        by rewrite filter_cons_False by done.
  - destruct (decide (P x)) as [HP|HP].
    + rewrite fmap_cons. cbn [list_find fst]. rewrite decide_False by lia.
      rewrite IH. by rewrite decide_False by lia.
    + rewrite IH. by rewrite decide_False by lia.
Qed.

Lemma filter_lookup_kept {A} (P : A → Prop) `{!∀ x, Decision (P x)}
    (xs : list A) k x :
  xs !! k = Some x → P x →
  filter P xs !! length (filter P (take k xs)) = Some x.
Proof.
  intros Hk HP.
  set (before := take k xs).
  rewrite <-(take_drop_middle xs k x Hk). fold before.
  rewrite filter_app, filter_cons_True by done.
  by rewrite lookup_app_r, Nat.sub_diag by lia.
Qed.

(** Where [dropna] leaves the row that had position [k]. *)
Lemma dropna_labels_find (V : ViewerEnv) (rs : list (gmap string cell)) k :
  match list_find (λ l, l = k) (dropna_labels V (seq 0 (length rs)) rs) with
  | Some (p, _) =>
      ∃ r, rs !! k = Some r ∧ isna V (cell_at r "embedding") = false ∧
           dropna_embedding V rs !! p = Some r
  | None =>
      ∀ r, rs !! k = Some r → isna V (cell_at r "embedding") = true
  end.
Proof.
  unfold dropna_labels.
  pose proof (list_find_kept_label
                (λ r, ¬ isna V (cell_at r "embedding")) rs 0 k) as Hfind.
  cbv beta in Hfind. rewrite Hfind.
  rewrite decide_True by lia. rewrite Nat.sub_0_r.
  destruct (rs !! k) as [r|] eqn:Hr; [|done].
  destruct (decide (¬ isna V (cell_at r "embedding"))) as [HP|HP].
  - exists r. split; [done|]. split.
    + by destruct (isna V _).
    + by apply filter_lookup_kept.
  - intros ? [= <-]. destruct (isna V _); [done|]. destruct HP. by intros [].
Qed.

(** When nothing is dropped the labels are the positions. *)
Lemma dropna_labels_all (V : ViewerEnv) (rs : list (gmap string cell)) s :
  Forall (λ r, isna V (cell_at r "embedding") = false) rs →
  dropna_labels V (seq s (length rs)) rs = seq s (length rs).
Proof.
  unfold dropna_labels. revert s.
  induction rs as [|r rs IH]; intros s Hall; [done|].
  apply Forall_cons in Hall as [Hr Hall].
  simpl length. cbn [seq zip zip_with].
  rewrite filter_cons_True by (simpl; rewrite Hr; by intros []).
  rewrite fmap_cons. simpl. f_equal. by apply IH.
Qed.

(** The rows of [plot_df]. *)
Lemma plot_df_inv str_other (df : DataFrame) labels projections prs :
  plot_df str_other df labels projections = Ok prs →
  length prs = length projections ∧
  ∀ k pr, prs !! k = Some pr →
    (∃ xy, projections !! k = Some xy ∧ plot_x pr = xy.1 ∧ plot_y pr = xy.2) ∧
    plot_file_id pr
    = (if decide ("file_id" ∈ columns df)
       then from_option (λ r, cell_at r "file_id") Missing (rows df !! k)
       else Cell (PStr "N/A")) ∧
    plot_chunk_id pr
    = (if decide ("id" ∈ columns df)
       then from_option (λ r, cell_at r "id") Missing (rows df !! k)
       else Cell (PStr "N/A")) ∧
    plot_display_content pr
    = (if decide ("content" ∈ columns df) then
         match list_find (λ l, l = k) labels with
         | Some (p, _) =>
             from_option
               (λ r, Cell (PStr (str_replace_char_by newline "<br>"
                                   (cell_str str_other (cell_at r "content")))))
               Missing (rows df !! p)
         | None => Missing
         end
       else Cell (PStr "N/A")).
Proof.
  unfold plot_df. intros Hplot.
  set (n := length projections) in *.
  assert (Hcol : ∀ col,
    ∀ vs, (if decide (col ∈ columns df)
           then assign_array n ((λ r, cell_at r col) <$> rows df)
           else Ok (replicate n (Cell (PStr "N/A")))) = Ok vs →
    ∀ k, (k < n)%nat →
      default Missing (vs !! k)
      = (if decide (col ∈ columns df)
         then from_option (λ r, cell_at r col) Missing (rows df !! k)
         else Cell (PStr "N/A"))).
  { intros col vs Hvs k Hk. case_decide.
    - unfold assign_array in Hvs. case_decide; [|done].
      injection Hvs as <-. rewrite list_lookup_fmap.
      by destruct (rows df !! k).
    - injection Hvs as <-. by rewrite lookup_replicate_2. }
  destruct (if decide ("file_id" ∈ columns df) then _ else _)
    as [file_ids|] eqn:Hfile; [|done].
  cbn [res_bind] in Hplot.
  destruct (if decide ("id" ∈ columns df) then _ else _)
    as [chunk_ids|] eqn:Hid; [|done].
  cbn [res_bind] in Hplot. injection Hplot as <-.
  split; [by rewrite length_imap|].
  intros k pr Hpr. rewrite list_lookup_imap in Hpr.
  destruct (projections !! k) as [xy|] eqn:Hxy; [|done].
  injection Hpr as <-. cbn [plot_x plot_y plot_file_id plot_chunk_id
                           plot_display_content].
  pose proof (lookup_lt_Some _ _ _ Hxy) as Hk. fold n in Hk.
  split; [by exists xy|].
  split; [by apply Hcol|]. split; [by apply Hcol|].
  clear Hfile Hid Hcol.
  destruct (decide ("content" ∈ columns df)); [|by rewrite lookup_replicate_2].
  unfold assign_series. rewrite list_lookup_fmap, lookup_seq_lt by done.
  simpl. destruct (list_find _ labels) as [[p l]|]; [|done].
  rewrite list_lookup_fmap. by destruct (rows df !! p).
Qed.

(** [plot_df] is built whenever the reduction gave one point per row. *)
Lemma plot_df_returns str_other (df : DataFrame) labels projections :
  length projections = length (rows df) →
  ∃ prs, plot_df str_other df labels projections = Ok prs.
Proof.
  intros Hlen. unfold plot_df, assign_array.
  rewrite !length_fmap, Hlen.
  destruct (decide ("file_id" ∈ columns df)), (decide ("id" ∈ columns df));
    rewrite ?decide_True by done; simpl; by eexists.
Qed.


Lemma apply_embedding_lookup (V : ViewerEnv) (rs0 rs : list (gmap string cell)) :
  apply_embedding V rs0 = Ok rs →
  length rs = length rs0 ∧
  ∀ k r0, rs0 !! k = Some r0 →
    ∃ y, coerce_embedding V (cell_at r0 "embedding") = Ok y ∧
         rs !! k = Some (<["embedding" := y]> r0).
Proof.
  revert rs. induction rs0 as [|r rs0 IH]; intros rs Hrs.
  { injection Hrs as <-. by split. }
  rewrite apply_embedding_cons in Hrs.
  destruct (coerce_embedding V (cell_at r "embedding")) as [y|] eqn:Hy; [|done].
  destruct (apply_embedding V rs0) as [rs'|]; [|done].
  simpl in Hrs. injection Hrs as <-.
  destruct (IH rs' eq_refl) as [Hlen Hlookup].
  split; [simpl; by rewrite Hlen|].
  intros [|k] r0 Hk; simpl in Hk.
  - injection Hk as <-. by exists y.
  - by apply Hlookup.
Qed.

(** Where the row that had position [k] before [dropna] is afterwards: the
    rows kept are those whose embedding became a tuple. *)
Lemma dropna_position (V : ViewerEnv) (rs0 rs : list (gmap string cell)) k :
  apply_embedding V rs0 = Ok rs →
  match list_find (λ l, l = k) (dropna_labels V (seq 0 (length rs)) rs) with
  | Some (p, _) =>
      ∃ r0 t, rs0 !! k = Some r0 ∧
              coerce_embedding V (cell_at r0 "embedding") = Ok (FloatTuple t) ∧
              dropna_embedding V rs !! p
              = Some (<["embedding" := FloatTuple t]> r0)
  | None =>
      ∀ r0, rs0 !! k = Some r0 →
            coerce_embedding V (cell_at r0 "embedding") = Ok (Cell PNone)
  end.
Proof.
  intros Hrs. destruct (apply_embedding_lookup V rs0 rs Hrs) as [Hlen Hlookup].
  pose proof (dropna_labels_find V rs k) as Hfind.
  destruct (list_find _ _) as [[p l]|].
  - destruct Hfind as (r & Hr & Hna & Hp).
    destruct (lookup_lt_is_Some_2 rs0 k) as [r0 Hr0].
    { rewrite <-Hlen. by eapply lookup_lt_Some. }
    destruct (Hlookup k r0 Hr0) as (y & Hy & Hk).
    rewrite Hr in Hk. injection Hk as ->.
    rewrite cell_at_insert in Hna.
    destruct (coerce_embedding_result V _ _ Hy) as [[t ->]| ->]; [|done].
    by exists r0, t.
  - intros r0 Hr0. destruct (Hlookup k r0 Hr0) as (y & Hy & Hk).
    specialize (Hfind _ Hk). rewrite cell_at_insert in Hfind.
    by destruct (coerce_embedding_result V _ _ Hy) as [[t ->]| ->].
Qed.

(** The table and the index that a list of records gives. *)
Lemma loaded_records_index (V : ViewerEnv) (fs : gmap string file_content)
    filepath (records : list (list (string * pyval))) df shown :
  fs !! filepath = Some (JsonDoc (PList (PDict <$> records))) →
  load_embeddings V fs filepath = (Some df, shown) →
  ∃ rs,
    apply_embedding V (frame_row <$> records) = Ok rs ∧
    df = {| columns := record_columns records;
            rows := dropna_embedding V rs |} ∧
    loaded_index V fs filepath
    = Some (dropna_labels V (seq 0 (length rs)) rs).
Proof.
  intros Hfs Hload. unfold load_embeddings in Hload.
  rewrite (load_embeddings_records V fs filepath records Hfs) in Hload.
  case_decide as Hcol; [|done].
  destruct (apply_embedding V (frame_row <$> records)) as [rs|x] eqn:Hrs.
  2:{ simpl in Hload. by destruct x. }
  exists rs. split; [done|]. split.
  - simpl in Hload. destruct (df_empty _); [done|].
    by case_decide; injection Hload as <- _.
  - unfold loaded_index, read_json. by rewrite Hfs, as_records_dicts, Hrs.
Qed.

Lemma coerce_loaded_row (V : ViewerEnv) (r : list (string * pyval)) :
  (∀ t, coerce_embedding V (cell_at (frame_row r) "embedding")
        = Ok (FloatTuple t) →
        loaded_row V r = Some (<["embedding" := FloatTuple t]> (frame_row r))) ∧
  (coerce_embedding V (cell_at (frame_row r) "embedding") = Ok (Cell PNone) →
   loaded_row V r = None).
Proof.
  rewrite coerce_frame_row. unfold loaded_row.
  destruct (record_get r "embedding") as [[| | | | |xs|]|]; try done.
  destruct (res_map (to_float V) xs) as [t|]; simpl; [|done].
  split; [|done]. by intros ? [= <-].
Qed.

(** X20. The hover content of the k-th point of the plot is taken from the
    record at position k of the file, and not from the k-th row of the
    loaded table, from which its chunk id and its file come: the content
    column is assigned by index label, the others by position. The k-th
    point shows the content of the k-th record of the file, with line
    feeds replaced, when that record has a list as embedding, and NaN
    when it was dropped. *)
Theorem hover_content_follows_file_positions (V : ViewerEnv)
    (str_other : cell → string) (fs : gmap string file_content) filepath
    (records : list (list (string * pyval))) df shown :
  fs !! filepath = Some (JsonDoc (PList (PDict <$> records))) →
  load_embeddings V fs filepath = (Some df, shown) →
  ∃ labels,
    loaded_index V fs filepath = Some labels ∧
    ∀ projections prs,
      plot_df str_other df labels projections = Ok prs →
      ∀ k pr, prs !! k = Some pr →
        ("id" ∈ columns df →
         plot_chunk_id pr
         = from_option (λ row, cell_at row "id") Missing
             (omap (loaded_row V) records !! k)) ∧
        ("file_id" ∈ columns df →
         plot_file_id pr
         = from_option (λ row, cell_at row "file_id") Missing
             (omap (loaded_row V) records !! k)) ∧
        ("content" ∈ columns df →
         plot_display_content pr
         = match records !! k with
           | Some r =>
               match loaded_row V r with
               | Some _ =>
                   Cell (PStr (str_replace_char_by newline "<br>"
                                 (cell_str str_other
                                    (cell_at (frame_row r) "content"))))
               | None => Missing
               end
           | None => Missing
           end).
Proof.
  intros Hfs Hload.
  destruct (loaded_records_index V fs filepath records df shown Hfs Hload)
    as (rs & Hrs & -> & Hindex).
  destruct (apply_dropna_records V records rs Hrs) as [Hrows _].
  eexists. split; [exact Hindex|].
  intros projections prs Hplot k pr Hpr.
  destruct (plot_df_inv _ _ _ _ _ Hplot) as [_ Hinv].
  destruct (Hinv k pr Hpr) as (_ & Hfile & Hid & Hcontent).
  cbn [columns rows] in *. rewrite Hrows in Hfile, Hid.
  split; [intros Hc; by rewrite decide_True in Hid|].
  split; [intros Hc; by rewrite decide_True in Hfile|].
  intros Hc. rewrite decide_True in Hcontent by done. rewrite Hcontent.
  pose proof (dropna_position V (frame_row <$> records) rs k Hrs) as Hpos.
  destruct (list_find _ _) as [[p l]|].
  - destruct Hpos as (r0 & t & Hr0 & Hy & Hp).
    rewrite list_lookup_fmap in Hr0.
    destruct (records !! k) as [r|]; [|done]. injection Hr0 as <-.
    rewrite (proj1 (coerce_loaded_row V r) t Hy), Hp. simpl.
    by rewrite cell_at_insert_ne.
  - destruct (records !! k) as [r|] eqn:Hr; [|done].
    rewrite (proj2 (coerce_loaded_row V r)); [done|].
    apply Hpos. by rewrite list_lookup_fmap, Hr.
Qed.


(** X21. On the file that the indexer wrote, nothing is dropped and the
    index labels are the positions, so the plot is consistent: given one
    point per chunk, the k-th point carries the id and the file of the
    k-th chunk of the file and, as hover content, its content with every
    line feed replaced by [<br>]. *)
Theorem indexer_output_hover_data (V : ViewerEnv) (str_other : cell → string)
    (fs : gmap string file_content) (cs : list chunk)
    (projections : list (float * float)) :
  cs ≠ [] →
  Forall (λ c, ∃ v vs, embedding c = Some (v :: vs)) cs →
  fs !! OUTPUT_JSON_FILE = Some (JsonDoc (dump_chunks cs)) →
  length projections = length cs →
  ∃ df prs,
    load_embeddings V fs EMBEDDINGS_FILE = (Some df, []) ∧
    loaded_index V fs EMBEDDINGS_FILE = Some (seq 0 (length cs)) ∧
    plot_df str_other df (seq 0 (length cs)) projections = Ok prs ∧
    length prs = length cs ∧
    ∀ k c, cs !! k = Some c →
      ∃ pr xy,
        prs !! k = Some pr ∧ projections !! k = Some xy ∧
        plot_x pr = xy.1 ∧ plot_y pr = xy.2 ∧
        plot_chunk_id pr = Cell (PStr (id c)) ∧
        plot_file_id pr = Cell (PStr (file_id c)) ∧
        plot_display_content pr
        = Cell (PStr (str_replace_char_by newline "<br>" (content c))) ∧
        str_has_char newline (str_replace_char_by newline "<br>" (content c))
        = false.
Proof.
  intros Hne Hcs Hfs Hlen.
  pose proof (load_dumped_chunks V fs cs Hne Hcs Hfs) as Hload.
  set (df := {| columns := record_columns (chunk_items <$> cs);
                rows := chunk_row <$> cs |}) in *.
  assert (Hfs' : fs !! EMBEDDINGS_FILE
                 = Some (JsonDoc (PList (PDict <$> (chunk_items <$> cs))))).
  { by rewrite <-dump_chunks_records. }
  destruct (loaded_records_index V fs EMBEDDINGS_FILE _ df [] Hfs' Hload)
    as (rs & Hrs & Hdf & Hindex).
  destruct (apply_embedding_lookup V _ rs Hrs) as [Hlen_rs Hlookup].
  rewrite length_fmap, length_fmap in Hlen_rs.
  assert (Hkept : Forall (λ r, isna V (cell_at r "embedding") = false) rs).
  { apply Forall_lookup. intros k r Hr.
    destruct (lookup_lt_is_Some_2 cs k) as [c Hc].
    { rewrite <-Hlen_rs. by eapply lookup_lt_Some. }
    destruct (Hlookup k (frame_row (chunk_items c))) as (y & Hy & Hk).
    { by rewrite !list_lookup_fmap, Hc. }
    rewrite Hr in Hk. injection Hk as ->. rewrite cell_at_insert.
    assert (Hemb : ∃ v vs, embedding c = Some (v :: vs)).
    { rewrite Forall_forall in Hcs. apply Hcs. by eapply list_elem_of_lookup_2. }
    destruct Hemb as (v & vs & He).
    destruct (record_get_chunk c _ He) as (_ & _ & _ & _ & _ & Hget).
    rewrite coerce_frame_row, Hget, res_map_floats in Hy.
    by injection Hy as <-. }
  rewrite (dropna_labels_all V rs 0 Hkept), Hlen_rs in Hindex.
  destruct (plot_df_returns str_other df (seq 0 (length cs)) projections)
    as [prs Hplot].
  { unfold df. simpl. by rewrite length_fmap. }
  destruct (plot_df_inv _ _ _ _ _ Hplot) as [Hlen_prs Hinv].
  exists df, prs. split; [done|]. split; [done|]. split; [done|].
  split; [by rewrite Hlen_prs|].
  intros k c Hc.
  destruct (lookup_lt_is_Some_2 prs k) as [pr Hpr].
  { rewrite Hlen_prs, Hlen. by eapply lookup_lt_Some. }
  destruct (Hinv k pr Hpr) as ((xy & Hxy & Hx & Hy) & Hfile & Hid & Hcontent).
  exists pr, xy. split; [done|]. split; [done|]. split; [done|]. split; [done|].
  assert (Hemb : ∃ v vs, embedding c = Some (v :: vs)).
  { rewrite Forall_forall in Hcs. apply Hcs. by eapply list_elem_of_lookup_2. }
  destruct Hemb as (v & vs & He).
  destruct (record_get_chunk c _ He) as (Hgid & Hgfile & Hgcontent & _).
  assert (Hin : chunk_items c ∈ chunk_items <$> cs).
  { apply list_elem_of_fmap_2. by eapply list_elem_of_lookup_2. }
  assert (Hrow : rows df !! k = Some (chunk_row c)).
  { unfold df. simpl. by rewrite list_lookup_fmap, Hc. }
  assert (Hcell : ∀ key s, key ≠ "embedding" →
            record_get (chunk_items c) key = Some (PStr s) →
            cell_at (chunk_row c) key = Cell (PStr s)).
  { intros key s Hkey Hget. unfold chunk_row.
    rewrite cell_at_insert_ne by done.
    by rewrite cell_at_frame_row, Hget. }
  assert (Hfind : list_find (λ l, l = k) (seq 0 (length cs)) = Some (k, k)).
  { apply list_find_Some. split; [|split; [done|]].
    - apply lookup_seq. split; [done|]. by eapply lookup_lt_Some.
    - intros j y Hj%lookup_seq Hlt. simpl in Hj. lia. }
  rewrite decide_True in Hfile by (by eapply record_get_column).
  rewrite decide_True in Hid by (by eapply record_get_column).
  rewrite decide_True in Hcontent by (by eapply record_get_column).
  rewrite Hfind in Hcontent. rewrite Hrow in Hfile, Hid, Hcontent.
  simpl in Hfile, Hid, Hcontent.
  rewrite (Hcell "file_id" _) in Hfile by done.
  rewrite (Hcell "id" _) in Hid by done.
  rewrite (Hcell "content" (content c)) in Hcontent by done.
  split; [done|]. split; [done|]. split; [done|].
  by apply str_replace_char_by_removes.
Qed.


(** ** The two programs together *)

(** X22. What a successful run of the indexer writes, the viewer loads:
    when a run that is not a dry run has a valid chunk and writes its
    file, [load_embeddings] on that file shows neither an error nor a
    warning and returns a table that goes to the reduction, with one row
    per indexed chunk, in the order of the file, and as many rows as the
    run reports indexed chunks. *)
Theorem indexer_output_loads (E : IndexerEnv) (V : ViewerEnv)
    directory file_types out (fs : gmap string file_content) :
  let st := run_batches E (find_files E directory file_types) in
  let res := index_markdown_files E directory file_types false out in
  let written := deref (rs_heap st) (rs_all_processed_chunks st) in
  rs_all_processed_chunks st ≠ [] →
  try_write E out (dump_chunks written) = WriteOk →
  fs !! OUTPUT_JSON_FILE = res.2 →
  ∃ df,
    load_embeddings V fs EMBEDDINGS_FILE = (Some df, []) ∧
    branch_after_load (Some df) = RunReduction df ∧
    rows df = chunk_row <$> written ∧
    Forall (λ c, has_embedding c = true ∧ chunk_consistent c) written ∧
    (∀ s, r_stats res.1 = Some s →
          chunks_indexed s = Z.of_nat (length (rows df))).
Proof.
  intros st res written Hne Hw Hfs.
  destruct (deref_all_valid _ _ (run_batches_all_valid E
              (find_files E directory file_types))) as [Hlen Hall].
  fold st in Hlen, Hall. fold written in Hlen, Hall.
  assert (Hfiles : find_files E directory file_types ≠ []).
  { intros Hnil. apply Hne. unfold st. by rewrite Hnil, run_batches_nil. }
  pose proof (index_outcome E directory file_types false out Hfiles) as Hout.
  fold st res in Hout. simpl in Hout. fold written in Hout.
  rewrite bool_decide_eq_true_2, Hw in Hout by done.
  destruct Hout as [_ Hout]. rewrite Hout in Hfs.
  destruct (index_with_files E directory file_types false out Hfiles)
    as [Hstats _]. fold st res in Hstats.
  assert (Hcs : written ≠ []).
  { intros Hnil. rewrite Hnil in Hlen. simpl in Hlen.
    destruct (rs_all_processed_chunks st); [done|discriminate]. }
  pose proof (load_dumped_chunks V fs written Hcs Hall Hfs) as Hload.
  eexists. split; [exact Hload|]. split.
  - apply load_embeddings_inv in Hload as (_ & _ & _ & _ & _ & Hempty).
    simpl. by rewrite Hempty.
  - split; [done|]. split.
    + apply Forall_forall. intros c Hc. split.
      * rewrite Forall_forall in Hall. destruct (Hall c Hc) as (v & vs & He).
        unfold has_embedding. by rewrite He.
      * pose proof (run_batches_consistent E
                      (find_files E directory file_types)) as Hheap.
        fold st in Hheap. unfold written, deref in Hc.
        apply list_elem_of_omap in Hc as (l & _ & Hl).
        by eapply (Forall_lookup_1 _ (rs_heap st)).
    + intros s Hs. rewrite Hstats in Hs. injection Hs as <-. simpl.
      by rewrite length_fmap, Hlen.
Qed.

End Properties.

(** * The properties on the test worlds *)

(** The example of the specification: three pieces of one file start at 0,
    400 and 800. *)
Example split_text_demo :
  split_text demo_env "alpha beta gamma" "docs/notes.md" []
  = Some ([0; 1; 2]%nat,
          [ {| id := "docs/notes.md_0-5"; file_id := "docs/notes.md";
               content := "alpha"; start_pos := 0; end_pos := 5;
               embedding := None |};
            {| id := "docs/notes.md_400-404"; file_id := "docs/notes.md";
               content := "beta"; start_pos := 400; end_pos := 404;
               embedding := None |};
            {| id := "docs/notes.md_800-805"; file_id := "docs/notes.md";
               content := "gamma"; start_pos := 800; end_pos := 805;
               embedding := None |} ]).
Proof. vm_compute. reflexivity. Qed.

(** A Windows-style path gives a POSIX-style [file_id]. *)
Example split_text_demo_backslash :
  (λ r : list nat * list chunk, file_id <$> r.2)
    <$> split_text demo_env "alpha" "docs\sub\big.md" []
  = Some (replicate 3 "docs/sub/big.md").
Proof. vm_compute. reflexivity. Qed.

(** The example of the specification: a batch of more than 100 chunks whose
    second sub-batch fails keeps the first 100 chunks only. *)
Example index_demo_failed_sub_batch :
  (index_markdown_files demo_env "docs" ["md"] false None).1
  = {| status := "success";
       message := "Processed 2 files and saved 100 chunks to embeddings.json in 2.0 seconds";
       r_stats := Some {| files_processed := 2; files_failed := 2;
                          chunks_created := 118; chunks_indexed := 100;
                          processing_time := PFloat 2 |} |}.
Proof. vm_compute. reflexivity. Qed.

(** The example of the specification: a perplexity above the number of rows
    is replaced, after a warning. *)
Example run_tsne_demo_clamped :
  (run_tsne demo_viewer (Some demo_frame) 40 300 200 42).2
  = [StWarning "Perplexity (40) is too high for the number of samples (3). Setting perplexity to 2.";
     TsneFitTransform (tsne_with 2 300 200 42)
       [FloatTuple [0; 1]; FloatTuple [1; 1]; FloatTuple [2; 1]]].
Proof. vm_compute. reflexivity. Qed.

(** Of the four rows of the demo document the loader keeps the last two. *)
Example load_demo_records :
  (λ df, (λ r, r !! "id") <$> rows df)
    <$> (load_embeddings demo_viewer
           {[ EMBEDDINGS_FILE := JsonDoc (PList (PDict <$> demo_records)) ]}
           EMBEDDINGS_FILE).1
  = Some [Some (Cell (PStr "c")); Some (Cell (PStr "d"))].
Proof. vm_compute. reflexivity. Qed.

(** [len] counts code points: the two accented letters take two bytes
    each, and the offsets and the id are those of the code points. *)
Example split_text_demo_accents :
  py_len "héllo wörld" = 11%nat ∧
  String.length "héllo wörld" = 13%nat ∧
  split_text demo_env_accents "héllo wörld" "docs/accents.md" []
  = Some ([0%nat],
          [ {| id := "docs/accents.md_0-11"; file_id := "docs/accents.md";
               content := "héllo wörld"; start_pos := 0; end_pos := 11;
               embedding := None |} ]).
Proof. vm_compute. repeat split. Qed.

(** The loader returns the table with the two embeddings of different
    lengths, and on it [run_tsne] raises what [np.array] raises. *)
Example run_tsne_demo_ragged :
  (load_embeddings demo_viewer_numpy
     {[ EMBEDDINGS_FILE := JsonDoc (PList (PDict <$> demo_records)) ]}
     EMBEDDINGS_FILE).1 = Some demo_frame_ragged ∧
  run_tsne demo_viewer_numpy (Some demo_frame_ragged) 40 300 200 42
  = (Raise (ValueError "setting an array element with a sequence. The requested array has an inhomogeneous shape after 1 dimensions."), []).
Proof. vm_compute. split; reflexivity. Qed.

Lemma indexed_chunks_have_embeddings_witness :
  ∃ s,
    r_stats (index_markdown_files demo_env "docs" ["md"] false None).1 = Some s ∧
    chunks_indexed s
    = Z.of_nat
        (length
           (deref
              (rs_heap (run_batches demo_env (find_files demo_env "docs" ["md"])))
              (rs_all_processed_chunks
                 (run_batches demo_env (find_files demo_env "docs" ["md"]))))).
Proof.
  destruct (indexed_chunks_have_embeddings demo_env "docs" ["md"] false None)
    as (_ & _ & _ & _ & _ & Hindexed & _).
  eexists. split; [vm_compute; reflexivity|].
  apply Hindexed. vm_compute. reflexivity.
Defined.

Lemma embed_content_sub_batches_witness :
  NoDup demo_chunks ∧
  (∀ l, l ∈ demo_chunks → is_Some (demo_heap !! l)) ∧
  es_all (embed_content demo_env demo_chunks demo_heap 0) = demo_chunks.
Proof.
  assert (Hnd : NoDup demo_chunks)
    by (apply (bool_decide_unpack _); vm_compute; exact I).
  assert (Hvalid : ∀ l, l ∈ demo_chunks → is_Some (demo_heap !! l)).
  { intros l Hl. unfold demo_chunks in Hl.
    repeat (apply elem_of_cons in Hl as [->|Hl]; [eexists; reflexivity|]).
    by apply elem_of_nil in Hl. }
  split; [exact Hnd|]. split; [exact Hvalid|].
  destruct (embed_content_sub_batches demo_env demo_chunks demo_heap 0 Hnd Hvalid)
    as (_ & _ & Hall & _).
  exact Hall.
Defined.

Lemma split_text_positions_and_ids_witness :
  text_splitter demo_env "alpha beta gamma" = Some ["alpha"; "beta"; "gamma"] ∧
  relpath demo_env "docs/notes.md" = Some "docs/notes.md" ∧
  ∃ locs σ',
    split_text demo_env "alpha beta gamma" "docs/notes.md" [] = Some (locs, σ') ∧
    length locs = 3%nat.
Proof.
  split; [reflexivity|]. split; [reflexivity|].
  destruct (split_text_positions_and_ids demo_env "alpha beta gamma"
              "docs/notes.md" [] ["alpha"; "beta"; "gamma"] "docs/notes.md"
              eq_refl eq_refl) as (locs & σ' & Hsplit & Hlen & _).
  exists locs, σ'. split; [exact Hsplit|exact Hlen].
Defined.

(** C4, as it is stated, fails: a dry run that finds no file returns the
    error result, without counters. *)
Lemma dry_run_without_files_is_no_success :
  ¬ (let res := index_markdown_files demo_env "docs" ["txt"] true None in
     res.2 = None ∧ status res.1 = "success" ∧ is_Some (r_stats res.1)).
Proof. vm_compute. intros (_ & H & _). discriminate H. Qed.

Lemma dry_run_never_writes_witness :
  find_files demo_env "docs" ["md"] ≠ [] ∧
  (index_markdown_files demo_env "docs" ["md"] true (Some (NotJson "old"))).2
  = Some (NotJson "old") ∧
  status (index_markdown_files demo_env "docs" ["md"] true
            (Some (NotJson "old"))).1 = "success".
Proof.
  assert (Hfiles : find_files demo_env "docs" ["md"] ≠ [])
    by (vm_compute; discriminate).
  destruct (dry_run_never_writes demo_env "docs" ["md"] (Some (NotJson "old")))
    as [Hout Hres].
  split; [exact Hfiles|]. split; [exact Hout|].
  exact (proj1 (Hres Hfiles)).
Defined.

Lemma json_round_trip_witness :
  demo_persisted ≠ [] ∧
  Forall (λ c : @chunk Z, ∃ v vs, embedding c = Some (v :: vs)) demo_persisted ∧
  ({[ OUTPUT_JSON_FILE := JsonDoc (dump_chunks demo_persisted) ]}
     : gmap string file_content) !! OUTPUT_JSON_FILE
  = Some (JsonDoc (dump_chunks demo_persisted)) ∧
  ∃ df,
    load_embeddings demo_viewer
      {[ OUTPUT_JSON_FILE := JsonDoc (dump_chunks demo_persisted) ]}
      EMBEDDINGS_FILE = (Some df, []) ∧
    length (rows df) = 2%nat.
Proof.
  assert (Hne : demo_persisted ≠ []) by discriminate.
  assert (Hall : Forall (λ c : @chunk Z, ∃ v vs, embedding c = Some (v :: vs))
                        demo_persisted).
  { unfold demo_persisted. repeat constructor; eexists _, _; reflexivity. }
  assert (Hfs : ({[ OUTPUT_JSON_FILE := JsonDoc (dump_chunks demo_persisted) ]}
                   : gmap string file_content) !! OUTPUT_JSON_FILE
                = Some (JsonDoc (dump_chunks demo_persisted)))
    by apply lookup_singleton_eq.
  split; [exact Hne|]. split; [exact Hall|]. split; [exact Hfs|].
  destruct (json_round_trip demo_viewer _ demo_persisted Hne Hall Hfs)
    as (df & Hload & Hlen & _).
  exists df. split; [exact Hload|exact Hlen].
Defined.

(** C6, as it is stated, fails: on the table that the loader returns for
    [demo_records], whose two embeddings have different lengths, a
    perplexity of 40 is not below the number of rows, and yet no warning
    is shown and the reduction is not run, since [np.array] raises first. *)
Lemma clamp_is_not_reached_on_a_ragged_table :
  ¬ (let df := demo_frame_ragged in
     let n := Z.of_nat (length (rows df)) in
     df_empty df = false →
     n ≤ 40 →
     ∃ msg rest,
       (run_tsne demo_viewer_numpy (Some df) 40 300 200 42).2
       = StWarning msg
         :: TsneFitTransform (tsne_with (Z.max 1 (n - 1)) 300 200 42)
              (embedding_column df)
         :: rest).
Proof.
  intros H. cbv zeta in H.
  destruct H as (msg & rest & Hshown); [reflexivity|vm_compute; discriminate|].
  vm_compute in Hshown. discriminate Hshown.
Qed.

Lemma perplexity_is_clamped_witness :
  df_empty demo_frame = false ∧
  "embedding" ∈ columns demo_frame ∧
  np_array_raises demo_viewer_numpy (embedding_column demo_frame) = None ∧
  ∃ msg rest,
    (run_tsne demo_viewer_numpy (Some demo_frame) 40 300 200 42).2
    = StWarning msg
      :: TsneFitTransform (tsne_with 2 300 200 42) (embedding_column demo_frame)
      :: rest.
Proof.
  assert (Hne : df_empty demo_frame = false) by reflexivity.
  assert (Hcol : "embedding" ∈ columns demo_frame)
    by (apply elem_of_cons; right; apply elem_of_cons; left; reflexivity).
  assert (Harr : np_array_raises demo_viewer_numpy (embedding_column demo_frame)
                 = None) by reflexivity.
  split; [exact Hne|]. split; [exact Hcol|]. split; [exact Harr|].
  pose proof (perplexity_is_clamped demo_viewer_numpy demo_frame 40 300 200 42
                Hne Hcol) as Hclamp.
  cbv zeta in Hclamp. rewrite Harr in Hclamp.
  destruct Hclamp as [Hclamp _].
  destruct Hclamp as (msg & rest & Hshown & _); [vm_compute; discriminate|].
  exists msg, rest. exact Hshown.
Defined.

Lemma no_files_is_an_error_witness :
  find_files demo_env "docs" ["txt"] = [] ∧
  main demo_env (Namespace "docs" ["txt"] false) (Some "key") None = (1, None).
Proof.
  assert (Hnil : find_files demo_env "docs" ["txt"] = []) by reflexivity.
  split; [exact Hnil|].
  exact (proj2 (proj2 (proj2
    (no_files_is_an_error demo_env (Some "key") "docs" ["txt"] false None Hnil)))).
Defined.

Lemma write_failure_keeps_stats_witness :
  rs_all_processed_chunks
    (run_batches demo_env_read_only (find_files demo_env_read_only "docs" ["md"]))
  ≠ [] ∧
  status (index_markdown_files demo_env_read_only "docs" ["md"] false None).1
  = "error" ∧
  is_Some (r_stats
             (index_markdown_files demo_env_read_only "docs" ["md"] false None).1).
Proof.
  assert (Hne : rs_all_processed_chunks
                  (run_batches demo_env_read_only
                     (find_files demo_env_read_only "docs" ["md"])) ≠ [])
    by (vm_compute; discriminate).
  split; [exact Hne|].
  destruct (write_failure_keeps_stats demo_env_read_only "docs" ["md"] None
              "[Errno 30] Read-only file system" None Hne eq_refl) as [Hres _].
  rewrite Hres. split; [reflexivity|]. eexists. reflexivity.
Defined.

Lemma empty_read_is_a_failed_file_witness :
  read_text_file demo_env "docs/locked.md" = "" ∧
  read_text_file demo_env "docs/empty.md" = "" ∧
  files_failed
    (bs_stats (process_file demo_env
                 {| bs_heap := []; bs_stats := initial_stats; bs_all_chunks := [] |}
                 "docs/locked.md")) = 1 ∧
  files_failed
    (bs_stats (process_file demo_env
                 {| bs_heap := []; bs_stats := initial_stats; bs_all_chunks := [] |}
                 "docs/empty.md")) = 1.
Proof.
  split; [reflexivity|]. split; [reflexivity|]. split.
  - exact (proj1 (proj1 (proj2
      (empty_read_is_a_failed_file demo_env
         {| bs_heap := []; bs_stats := initial_stats; bs_all_chunks := [] |}
         "docs/locked.md" eq_refl)))).
  - exact (proj1 (proj1 (proj2
      (empty_read_is_a_failed_file demo_env
         {| bs_heap := []; bs_stats := initial_stats; bs_all_chunks := [] |}
         "docs/empty.md" eq_refl)))).
Defined.

Lemma load_drops_only_non_list_embeddings_witness :
  ({[ EMBEDDINGS_FILE := JsonDoc (PList (PDict <$> demo_records)) ]}
     : gmap string file_content) !! EMBEDDINGS_FILE
  = Some (JsonDoc (PList (PDict <$> demo_records))) ∧
  ∀ df shown,
    load_embeddings demo_viewer
      {[ EMBEDDINGS_FILE := JsonDoc (PList (PDict <$> demo_records)) ]}
      EMBEDDINGS_FILE = (Some df, shown) →
    rows df = omap (loaded_row demo_viewer) demo_records.
Proof.
  assert (Hfs : ({[ EMBEDDINGS_FILE := JsonDoc (PList (PDict <$> demo_records)) ]}
                   : gmap string file_content) !! EMBEDDINGS_FILE
                = Some (JsonDoc (PList (PDict <$> demo_records))))
    by apply lookup_singleton_eq.
  split; [exact Hfs|]. intros df shown Hload.
  destruct (load_drops_only_non_list_embeddings demo_viewer _ EMBEDDINGS_FILE
              demo_records Hfs) as [Hkept _].
  exact (proj1 (proj2 (Hkept df shown Hload))).
Defined.

(** With the first record dropped, the first point has the id of the
    second record and no content, and the second point has the id of the
    third record and the content of the second. *)
Example plot_demo_gap :
  demo_plot
  = Ok [ {| plot_x := 0; plot_y := 0; plot_file_id := Cell (PStr "one.md");
            plot_display_content := Missing;
            plot_chunk_id := Cell (PStr "b") |};
         {| plot_x := 1; plot_y := 1; plot_file_id := Cell (PStr "two.md");
            plot_display_content := Cell (PStr "second<br>line");
            plot_chunk_id := Cell (PStr "c") |} ].
Proof. vm_compute. reflexivity. Qed.

(** With two to five rows the slider gets a maximum below its minimum. *)
Example perplexity_slider_demo :
  perplexity_slider 3 = {| min_value := 5; max_value := 2; value := 2; step := 1 |}
  ∧ perplexity_slider 1 = {| min_value := 5; max_value := 50; value := 30; step := 1 |}
  ∧ perplexity_slider 7 = {| min_value := 5; max_value := 6; value := 6; step := 1 |}.
Proof. repeat split. Qed.

Lemma statistics_add_up_witness :
  let s := {| files_processed := 2; files_failed := 2; chunks_created := 118;
              chunks_indexed := 100; processing_time := PFloat 2 |} in
  r_stats (index_markdown_files demo_env "docs" ["md"] false None).1 = Some s ∧
  files_processed s + files_failed s
  = Z.of_nat (length (find_files demo_env "docs" ["md"])).
Proof.
  intros s.
  assert (Hs : r_stats (index_markdown_files demo_env "docs" ["md"] false None).1
               = Some s) by (vm_compute; reflexivity).
  split; [exact Hs|].
  exact (proj1 (statistics_add_up demo_env "docs" ["md"] false None s Hs)).
Defined.

Lemma demo_env_answering_well_behaved : api_well_behaved demo_env_answering.
Proof.
  intros n texts. eexists. split; [reflexivity|]. split.
  - by rewrite length_fmap.
  - apply Forall_fmap, Forall_forall. by intros t _.
Defined.

Lemma nothing_lost_when_service_answers_witness :
  api_well_behaved demo_env_answering ∧
  deref (rs_heap (run_batches demo_env_answering
                    (find_files demo_env_answering "docs" ["md"])))
        (rs_all_processed_chunks
           (run_batches demo_env_answering
              (find_files demo_env_answering "docs" ["md"])))
  = rs_heap (run_batches demo_env_answering
               (find_files demo_env_answering "docs" ["md"])).
Proof.
  split; [exact demo_env_answering_well_behaved|].
  exact (proj1 (nothing_lost_when_service_answers demo_env_answering
                  "docs" ["md"] false None demo_env_answering_well_behaved)).
Defined.

Lemma nothing_written_when_service_fails_witness :
  api_always_raises demo_env_offline ∧
  find_files demo_env_offline "docs" ["md"] ≠ [] ∧
  main demo_env_offline (Namespace "docs" ["md"] false) (Some "key")
    (Some (NotJson "old"))
  = (0, Some (NotJson "old")).
Proof.
  assert (Hraise : api_always_raises demo_env_offline).
  { intros n texts. eexists. reflexivity. }
  assert (Hfiles : find_files demo_env_offline "docs" ["md"] ≠ [])
    by (vm_compute; discriminate).
  split; [exact Hraise|]. split; [exact Hfiles|].
  apply (nothing_written_when_service_fails demo_env_offline "docs" ["md"]
           false (Some (NotJson "old")) Hraise Hfiles).
  discriminate.
Defined.

Lemma output_file_format_witness :
  rs_all_processed_chunks
    (run_batches demo_env (find_files demo_env "docs" ["md"])) ≠ [] ∧
  ∃ docs,
    (index_markdown_files demo_env "docs" ["md"] false None).2
    = Some (JsonDoc (PList docs)) ∧
    Forall (λ d, ∃ items v vs,
              d = PDict items ∧ items.*1 = OUTPUT_KEYS ∧
              record_get items "embedding" = Some (PList (PFloat <$> v :: vs)))
           docs.
Proof.
  assert (Hne : rs_all_processed_chunks
                  (run_batches demo_env (find_files demo_env "docs" ["md"])) ≠ [])
    by (vm_compute; discriminate).
  split; [exact Hne|].
  destruct (output_file_format demo_env "docs" ["md"] None Hne eq_refl)
    as (docs & Hout & _ & Hdocs).
  exists docs. split; [exact Hout|exact Hdocs].
Defined.

Lemma only_unreadable_files_is_a_success_witness :
  find_files demo_env_unreadable "docs" ["md"] ≠ [] ∧
  (∀ f, f ∈ find_files demo_env_unreadable "docs" ["md"] →
        read_text_file demo_env_unreadable f = "") ∧
  status (index_markdown_files demo_env_unreadable "docs" ["md"] false None).1
  = "success".
Proof.
  assert (Hfiles : find_files demo_env_unreadable "docs" ["md"] ≠ [])
    by (vm_compute; discriminate).
  assert (Hempty : ∀ f, f ∈ find_files demo_env_unreadable "docs" ["md"] →
                        read_text_file demo_env_unreadable f = "").
  { intros f _. reflexivity. }
  split; [exact Hfiles|]. split; [exact Hempty|].
  exact (proj1 (proj2 (proj2
    (only_unreadable_files_is_a_success demo_env_unreadable "docs" ["md"]
       false None Hfiles Hempty)))).
Defined.

Lemma split_text_offsets_grow_witness :
  ∃ locs σ' c0 c1,
    split_text demo_env "alpha beta gamma" "docs/notes.md" [] = Some (locs, σ') ∧
    σ' !! 0%nat = Some c0 ∧ σ' !! 1%nat = Some c1 ∧
    start_pos c0 < start_pos c1.
Proof.
  eexists _, _, _, _.
  split; [vm_compute; reflexivity|]. split; [reflexivity|]. split; [reflexivity|].
  refine (proj2 (proj2 (split_text_offsets_grow demo_env "alpha beta gamma"
            "docs/notes.md" [] _ _ _ 0%nat 1%nat 0%nat 1%nat _ _ _ _ _ _)) _).
  - vm_compute. reflexivity.
  - reflexivity.
  - reflexivity.
  - reflexivity.
  - reflexivity.
  - lia.
Defined.

Lemma loaded_table_is_never_empty_witness :
  ∃ df shown,
    load_embeddings demo_viewer demo_fs_gap EMBEDDINGS_FILE = (Some df, shown) ∧
    rows df ≠ [].
Proof.
  destruct (load_embeddings demo_viewer demo_fs_gap EMBEDDINGS_FILE)
    as [[df|] shown] eqn:Hload; [|vm_compute in Hload; discriminate Hload].
  exists df, shown. split; [reflexivity|].
  exact (proj1 (proj2 (loaded_table_is_never_empty demo_viewer demo_fs_gap
                         EMBEDDINGS_FILE df shown Hload))).
Defined.

Lemma reduction_perplexity_is_bounded_witness :
  df_empty demo_frame = false ∧
  "embedding" ∈ columns demo_frame ∧
  np_array_raises demo_viewer_numpy (embedding_column demo_frame) = None ∧
  ∃ cfg before after,
    (run_tsne demo_viewer_numpy (Some demo_frame) 40 300 200 42).2
    = before ++ [TsneFitTransform cfg (embedding_column demo_frame)] ++ after ∧
    perplexity cfg < 3.
Proof.
  assert (Hne : df_empty demo_frame = false) by reflexivity.
  assert (Hcol : "embedding" ∈ columns demo_frame)
    by (apply elem_of_cons; right; apply elem_of_cons; left; reflexivity).
  assert (Harr : np_array_raises demo_viewer_numpy (embedding_column demo_frame)
                 = None) by reflexivity.
  split; [exact Hne|]. split; [exact Hcol|]. split; [exact Harr|].
  pose proof (reduction_perplexity_is_bounded demo_viewer_numpy demo_frame
                40 300 200 42 Hne Hcol) as Hbound.
  cbv zeta in Hbound. rewrite Harr in Hbound.
  destruct Hbound
    as (cfg & before & after & Hshown & _ & _ & _ & _ & _ & _ & Hlt & _).
  exists cfg, before, after. split; [exact Hshown|]. apply Hlt. vm_compute.
  discriminate.
Defined.

Lemma slider_perplexity_and_clamp_witness :
  df_empty demo_frame_big = false ∧
  "embedding" ∈ columns demo_frame_big ∧
  np_array_raises demo_viewer_numpy (embedding_column demo_frame_big) = None ∧
  min_value (perplexity_slider 7) ≤ 6 ≤ max_value (perplexity_slider 7) ∧
  ∃ rest,
    (run_tsne demo_viewer_numpy (Some demo_frame_big) 6 300 200 42).2
    = TsneFitTransform (tsne_with 6 300 200 42) (embedding_column demo_frame_big)
      :: rest.
Proof.
  assert (Hne : df_empty demo_frame_big = false) by reflexivity.
  assert (Hcol : "embedding" ∈ columns demo_frame_big)
    by (apply elem_of_cons; right; apply elem_of_cons; left; reflexivity).
  assert (Harr : np_array_raises demo_viewer_numpy
                   (embedding_column demo_frame_big) = None) by reflexivity.
  assert (Hp : min_value (perplexity_slider 7) ≤ 6 ≤ max_value (perplexity_slider 7))
    by (vm_compute; split; discriminate).
  split; [exact Hne|]. split; [exact Hcol|]. split; [exact Harr|].
  split; [exact Hp|].
  destruct (slider_perplexity_and_clamp demo_viewer_numpy demo_frame_big
              6 300 200 42 Hne Hcol) as (_ & _ & Hrun).
  specialize (Hrun Hp). rewrite Harr in Hrun.
  destruct Hrun as [(_ & _ & Hshown)|(Hone & _)].
  - exact Hshown.
  - vm_compute in Hone. discriminate Hone.
Defined.

Lemma hover_content_follows_file_positions_witness :
  demo_fs_gap !! EMBEDDINGS_FILE
  = Some (JsonDoc (PList (PDict <$> demo_records_gap))) ∧
  ∃ df shown labels,
    load_embeddings demo_viewer demo_fs_gap EMBEDDINGS_FILE = (Some df, shown) ∧
    loaded_index demo_viewer demo_fs_gap EMBEDDINGS_FILE = Some labels.
Proof.
  assert (Hfs : demo_fs_gap !! EMBEDDINGS_FILE
                = Some (JsonDoc (PList (PDict <$> demo_records_gap))))
    by apply lookup_singleton_eq.
  split; [exact Hfs|].
  destruct (load_embeddings demo_viewer demo_fs_gap EMBEDDINGS_FILE)
    as [[df|] shown] eqn:Hload; [|vm_compute in Hload; discriminate Hload].
  destruct (hover_content_follows_file_positions demo_viewer demo_str
              demo_fs_gap EMBEDDINGS_FILE demo_records_gap df shown Hfs Hload)
    as (labels & Hindex & _).
  exists df, shown, labels. split; [reflexivity|exact Hindex].
Defined.

Lemma indexer_output_hover_data_witness :
  demo_persisted ≠ [] ∧
  Forall (λ c : @chunk Z, ∃ v vs, embedding c = Some (v :: vs)) demo_persisted ∧
  ({[ OUTPUT_JSON_FILE := JsonDoc (dump_chunks demo_persisted) ]}
     : gmap string file_content) !! OUTPUT_JSON_FILE
  = Some (JsonDoc (dump_chunks demo_persisted)) ∧
  ∃ df prs,
    plot_df demo_str df (seq 0 (length demo_persisted)) [(0, 0); (1, 1)] = Ok prs ∧
    length prs = 2%nat.
Proof.
  assert (Hne : demo_persisted ≠ []) by discriminate.
  assert (Hall : Forall (λ c : @chunk Z, ∃ v vs, embedding c = Some (v :: vs))
                        demo_persisted).
  { unfold demo_persisted. repeat constructor; eexists _, _; reflexivity. }
  assert (Hfs : ({[ OUTPUT_JSON_FILE := JsonDoc (dump_chunks demo_persisted) ]}
                   : gmap string file_content) !! OUTPUT_JSON_FILE
                = Some (JsonDoc (dump_chunks demo_persisted)))
    by apply lookup_singleton_eq.
  split; [exact Hne|]. split; [exact Hall|]. split; [exact Hfs|].
  destruct (indexer_output_hover_data demo_viewer demo_str _ demo_persisted
              [(0, 0); (1, 1)] Hne Hall Hfs eq_refl)
    as (df & prs & _ & _ & Hplot & Hlen & _).
  exists df, prs. split; [exact Hplot|exact Hlen].
Defined.

Lemma indexer_output_loads_witness :
  rs_all_processed_chunks
    (run_batches demo_env (find_files demo_env "docs" ["md"])) ≠ [] ∧
  demo_disk !! OUTPUT_JSON_FILE
  = (index_markdown_files demo_env "docs" ["md"] false None).2 ∧
  ∃ df,
    load_embeddings demo_viewer demo_disk EMBEDDINGS_FILE = (Some df, []) ∧
    ∀ s, r_stats (index_markdown_files demo_env "docs" ["md"] false None).1
         = Some s →
         chunks_indexed s = Z.of_nat (length (rows df)).
Proof.
  assert (Hne : rs_all_processed_chunks
                  (run_batches demo_env (find_files demo_env "docs" ["md"])) ≠ [])
    by (vm_compute; discriminate).
  assert (Hfs : demo_disk !! OUTPUT_JSON_FILE
                = (index_markdown_files demo_env "docs" ["md"] false None).2)
    by (vm_compute; reflexivity).
  split; [exact Hne|]. split; [exact Hfs|].
  destruct (indexer_output_loads demo_env demo_viewer "docs" ["md"] None
              demo_disk Hne eq_refl Hfs) as (df & Hload & _ & _ & _ & Hcount).
  exists df. split; [exact Hload|exact Hcount].
Defined.
